(** * A verified model of the GraphQL blog backend

    The development embeds the request pipeline of the backend (the
    resolvers of [graphql/resolvers.js], the guard of [middleware/auth.js],
    the upload route and the error formatter of [app.js], the helper of
    [util/file.js] and the two Mongoose schemas) and proves properties of
    its authorization, validation, pagination and side effects.

    Resolvers are [async] functions over a document store and a file
    system: they are written in a state-and-exception monad [Async] whose
    state holds the two collections, the stored files and the trace of the
    store and file-system calls issued so far.  The third-party packages
    (validator, bcryptjs, jsonwebtoken, path) are interfaces, given as type
    classes. *)

From Stdlib Require Import Ascii String ZArith List Bool Lia.
From Stdlib Require Import Sorting.Sorted Sorting.Permutation.
From stdpp Require Import base option list strings gmap.
Import ListNotations.

Set Warnings "-register-all".

Open Scope string_scope.
Open Scope list_scope.
Open Scope Z_scope.

(** ** JavaScript values *)

(** A Mongo [ObjectId]; [toString] gives its hexadecimal rendering.  The
    resolvers receive identifiers as strings and the store casts them: a
    string that is no ObjectId fails the cast ([isValid] below). *)
Inductive ObjectId := Oid (hex : string).

Definition toString (o : ObjectId) : string := let 'Oid h := o in h.

Definition ObjectId_eqb (a b : ObjectId) : bool :=
  String.eqb (toString a) (toString b).

(** The values that occur in the objects handed to the GraphQL layer. *)
Inductive Value :=
| VNull
| VBool (b : bool)
| VNum (n : Z)
| VStr (s : string)
| VOid (o : ObjectId)
| VDate (t : Z)
| VArr (items : list Value)
| VObj (fields : list (string * Value)).

(** An object is its list of properties, in insertion order. *)
Abbreviation Obj := (list (string * Value)).

(** [o[k]] *)
Fixpoint obj_get (k : string) (o : Obj) : option Value :=
  match o with
  | [] => None
  | (k', v) :: rest => if String.eqb k' k then Some v else obj_get k rest
  end.

(** [o[k] = v]: an existing property keeps its place, a new one is added
    last. *)
Fixpoint obj_set (k : string) (v : Value) (o : Obj) : Obj :=
  match o with
  | [] => [(k, v)]
  | (k', v') :: rest =>
      if String.eqb k' k then (k, v) :: rest else (k', v') :: obj_set k v rest
  end.

(** [{ ...o, k1: v1, ..., kn: vn }] *)
Definition spread (o : Obj) (overrides : Obj) : Obj :=
  fold_left (fun acc kv => obj_set (fst kv) (snd kv) acc) overrides o.

(** JavaScript truthiness of a string. *)
Definition truthy_string (s : string) : bool := negb (String.eqb s "").

(** ** Errors *)

(** One entry [{ message: ... }] of a validation error's [data] list. *)
Record FieldError := { fe_message : string }.

(** An [Error] object with the two ad hoc properties the resolvers attach:
    [code] and [data] are [None] while they are undefined. *)
Record JsError := {
  message : string;
  code : option Z;
  data : option (list FieldError)
}.

(** [new Error(msg)] *)
Definition Error (msg : string) : JsError :=
  {| message := msg; code := None; data := None |}.

(** [error.code = c] *)
Definition set_code (c : Z) (e : JsError) : JsError :=
  {| message := message e; code := Some c; data := data e |}.

(** [error.data = d] *)
Definition set_data (d : list FieldError) (e : JsError) : JsError :=
  {| message := message e; code := code e; data := Some d |}.

(** ** Documents *)

(** [models/user.js] *)
Module User.
Record t := {
  _id : ObjectId;
  email : string;
  password : string;
  name : string;
  status : string;
  posts : list ObjectId
}.

(** The schema's default for [status]. *)
Definition default_status : string := "I am new!".

(** [required: true] on a string path rejects the empty string. *)
Definition valid (u : t) : bool :=
  truthy_string (email u) && truthy_string (password u)
  && truthy_string (name u).

(** [user._doc]: the raw document (the version key is left out). *)
Definition _doc (u : t) : Obj :=
  [ ("posts", VArr (map VOid (posts u)));
    ("status", VStr (status u));
    ("_id", VOid (_id u));
    ("email", VStr (email u));
    ("name", VStr (name u));
    ("password", VStr (password u)) ].
End User.

(** [models/post.js], with [timestamps: true]. *)
Module Post.
Record t := {
  _id : ObjectId;
  title : string;
  imageUrl : string;
  content : string;
  creator : ObjectId;
  createdAt : Z;
  updatedAt : Z
}.

Definition valid (p : t) : bool :=
  truthy_string (title p) && truthy_string (imageUrl p)
  && truthy_string (content p).

(** [post._doc], given the value held by the [creator] path: the
    ObjectId, or what [populate] put there. *)
Definition _doc (p : t) (creator_value : Value) : Obj :=
  [ ("_id", VOid (_id p));
    ("title", VStr (title p));
    ("content", VStr (content p));
    ("imageUrl", VStr (imageUrl p));
    ("creator", creator_value);
    ("createdAt", VDate (createdAt p));
    ("updatedAt", VDate (updatedAt p)) ].
End Post.

(** ** The store, the file system and the effect monad *)

(** The calls issued to the store and to the file system. *)
Inductive Event :=
| UserFindOne (email : string)
| UserFindById (id : option string)
| UserSave (id : ObjectId)
| PostFindById (id : string)
| PostCountDocuments
| PostFind (skip limit : Z)
| PostSave (id : ObjectId)
| PostFindByIdAndRemove (id : string)
| FsUnlink (path : string)
| FsWrite (path : string).

(** Reads leave the store as it is; the other calls are side effects. *)
Definition is_side_effect (e : Event) : bool :=
  match e with
  | UserSave _ | PostSave _ | PostFindByIdAndRemove _
  | FsUnlink _ | FsWrite _ => true
  | _ => false
  end.

Record State := {
  db_users : list User.t;      (* the users collection, in natural order *)
  db_posts : list Post.t;      (* the posts collection, in natural order *)
  fs_files : gset string;      (* the stored files, by path *)
  clock : Z;                   (* the current time, in milliseconds *)
  oid_counter : nat;           (* how many ObjectIds were generated *)
  trace : list Event           (* the calls issued so far, oldest first *)
}.

Inductive Result (A : Type) :=
| Ok (a : A)
| Throw (e : JsError).
Arguments Ok {A} a.
Arguments Throw {A} e.

(** An [async] computation: it ends in a value or in a thrown error, and
    the effects performed before a throw stay. *)
Definition Async (A : Type) : Type := State -> Result A * State.

Definition ret {A} (a : A) : Async A := fun st => (Ok a, st).

Definition throw {A} (e : JsError) : Async A := fun st => (Throw e, st).

Definition bind {A B} (c : Async A) (k : A -> Async B) : Async B :=
  fun st =>
    match c st with
    | (Ok a, st') => k a st'
    | (Throw e, st') => (Throw e, st')
    end.

Notation "x <- c ;; k" := (bind c (fun x => k))
  (at level 100, c at next level, right associativity).
Notation "c ;;; k" := (bind c (fun _ => k))
  (at level 100, right associativity).

Definition get_state : Async State := fun st => (Ok st, st).

Definition log (e : Event) : Async unit :=
  fun st =>
    (Ok tt, {| db_users := db_users st; db_posts := db_posts st;
               fs_files := fs_files st; clock := clock st;
               oid_counter := oid_counter st; trace := trace st ++ [e] |}).

Definition set_users (us : list User.t) : Async unit :=
  fun st =>
    (Ok tt, {| db_users := us; db_posts := db_posts st;
               fs_files := fs_files st; clock := clock st;
               oid_counter := oid_counter st; trace := trace st |}).

Definition set_posts (ps : list Post.t) : Async unit :=
  fun st =>
    (Ok tt, {| db_users := db_users st; db_posts := ps;
               fs_files := fs_files st; clock := clock st;
               oid_counter := oid_counter st; trace := trace st |}).

Definition set_files (fs : gset string) : Async unit :=
  fun st =>
    (Ok tt, {| db_users := db_users st; db_posts := db_posts st;
               fs_files := fs; clock := clock st;
               oid_counter := oid_counter st; trace := trace st |}).

Definition bump_counter : Async nat :=
  fun st =>
    (Ok (oid_counter st),
     {| db_users := db_users st; db_posts := db_posts st;
        fs_files := fs_files st; clock := clock st;
        oid_counter := S (oid_counter st); trace := trace st |}).

(** ** The third-party packages *)

(** [validator]: [isEmail] is the package's; [isEmpty] and [isLength] are
    its length tests, a string being its sequence of characters. *)
Class Validator := { isEmail : string -> bool }.

Definition isEmpty (str : string) : bool := (String.length str =? 0)%nat.

Definition isLength (str : string) (min : nat) : bool :=
  (min <=? String.length str)%nat.

(** [bcryptjs]: [hash(password, rounds)] with the salt of this run, and
    [compare(password, hash)]. *)
Class Bcrypt := {
  bcrypt_hash : string -> nat -> string;
  bcrypt_compare : string -> string -> bool
}.

(** What a token carries. *)
Record TokenPayload := { tp_userId : string; tp_email : string }.

(** What [jwt.verify] does: it throws, or returns the decoded token, which
    the guard tests for truthiness. *)
Inductive Verified :=
| VerifyThrows
| Decoded (decodedToken : option TokenPayload).

(** [jsonwebtoken]: [sign(payload, secret, { expiresIn })] at a given time;
    [verify(token, secret)] of a possibly undefined token at a given time. *)
Class Jwt := {
  jwt_sign : TokenPayload -> string -> string -> Z -> string;
  jwt_verify : option string -> string -> Z -> Verified
}.

(** The runtime: ObjectId generation, [ObjectId.isValid] (whether a string
    casts to an ObjectId; the rendering of a generated identifier does),
    [Date.prototype.toISOString], [path.join] and the directory of
    [util/file.js]. *)
Class Runtime := {
  new_ObjectId : nat -> ObjectId;
  isValid : string -> bool;
  isValid_new_ObjectId : forall n, isValid (toString (new_ObjectId n)) = true;
  toISOString : Z -> string;
  path_join : list string -> string;
  __dirname : string
}.

(** The store answers a query whose skip is negative in its own way: the
    driver passes the number on unchecked. *)
Class Mongo := {
  find_negative_skip : Z -> Z -> list Post.t -> Result (list Post.t)
}.

(** ** Mongoose queries *)

(** Whether an identifier renders as the string [id].  This decides a
    lookup by an id in rendered form, the form in which the resolvers hand
    identifiers out; another spelling of the same ObjectId (upper-case
    digits) is not resolved, and no theorem asserts a miss for one. *)
Definition has_id (id : string) (o : ObjectId) : bool :=
  String.eqb (toString o) id.

(** [User.findOne({ email })] *)
Definition User_findOne (email : string) : Async (option User.t) :=
  log (UserFindOne email) ;;;
  st <- get_state ;;
  ret (List.find (fun u => String.eqb (User.email u) email) (db_users st)).

(** [User.findById(id)]; an undefined id finds nothing.  The id is the one
    the guard took from a verified token: the rendering of a user's
    identifier, as login signed it. *)
Definition User_findById (id : option string) : Async (option User.t) :=
  log (UserFindById id) ;;;
  st <- get_state ;;
  ret (match id with
       | None => None
       | Some id => List.find (fun u => has_id id (User._id u)) (db_users st)
       end).

(** The error of a failed schema validation: it has no [code]. *)
Definition ValidationError (model : string) : JsError :=
  Error (model +:+ " validation failed").

(** [user.save()]: a new document is appended to the collection, a loaded
    one replaces the stored document of the same [_id]. *)
Definition User_save (isNew : bool) (user : User.t) : Async User.t :=
  if negb (User.valid user) then throw (ValidationError "User")
  else
    log (UserSave (User._id user)) ;;;
    st <- get_state ;;
    set_users
      (if isNew then db_users st ++ [user]
       else map (fun u => if ObjectId_eqb (User._id u) (User._id user)
                          then user else u) (db_users st)) ;;;
    ret user.

(** The error of a query whose [_id] is a string that does not cast to an
    ObjectId: it has no [code]. *)
Definition CastError (model value : string) : JsError :=
  Error ("Cast to ObjectId failed for value " +:+ value
         +:+ " at path _id for model " +:+ model).

(** [Post.findById(id)]: the id is cast first, and a string that is no
    ObjectId rejects the query before it is sent.  Identifiers are then
    compared by their rendering. *)
Definition Post_findById {Rt : Runtime} (id : string)
    : Async (option Post.t) :=
  if negb (isValid id) then throw (CastError "Post" id)
  else
    log (PostFindById id) ;;;
    st <- get_state ;;
    ret (List.find (fun p => has_id id (Post._id p)) (db_posts st)).

(** [.populate('creator')] on one document: the creator path holds the
    referenced user, or null when there is none. *)
Definition populate (post : Post.t) : Async (Post.t * option User.t) :=
  u <- User_findById (Some (toString (Post.creator post))) ;;
  ret (post, u).

(** Whether [save] has something to write: a path differs from the stored
    document. *)
Definition isModified (stored post : Post.t) : bool :=
  negb (String.eqb (Post.title stored) (Post.title post)
        && String.eqb (Post.content stored) (Post.content post)
        && String.eqb (Post.imageUrl stored) (Post.imageUrl post)).

(** The timestamps plugin: both stamps on insertion; [updatedAt] on a save
    that modifies the document. *)
Definition stamp (isNew : bool) (now : Z) (stored : option Post.t)
    (post : Post.t) : Post.t :=
  if isNew then
    {| Post._id := Post._id post; Post.title := Post.title post;
       Post.imageUrl := Post.imageUrl post; Post.content := Post.content post;
       Post.creator := Post.creator post;
       Post.createdAt := now; Post.updatedAt := now |}
  else
    match stored with
    | Some old =>
        if isModified old post then
          {| Post._id := Post._id post; Post.title := Post.title post;
             Post.imageUrl := Post.imageUrl post;
             Post.content := Post.content post;
             Post.creator := Post.creator post;
             Post.createdAt := Post.createdAt post; Post.updatedAt := now |}
        else post
    | None => post
    end.

(** [post.save()] *)
Definition Post_save (isNew : bool) (post : Post.t) : Async Post.t :=
  if negb (Post.valid post) then throw (ValidationError "Post")
  else
    st <- get_state ;;
    let stored :=
      List.find (fun p => ObjectId_eqb (Post._id p) (Post._id post))
                (db_posts st) in
    let saved := stamp isNew (clock st) stored post in
    log (PostSave (Post._id post)) ;;;
    set_posts
      (if isNew then db_posts st ++ [saved]
       else map (fun p => if ObjectId_eqb (Post._id p) (Post._id post)
                          then saved else p) (db_posts st)) ;;;
    ret saved.

(** Removal of the first document with the given id. *)
Fixpoint remove_by_id (id : string) (ps : list Post.t) : list Post.t :=
  match ps with
  | [] => []
  | p :: rest =>
      if has_id id (Post._id p) then rest else p :: remove_by_id id rest
  end.

(** [Post.findByIdAndRemove(id)], with the same cast. *)
Definition Post_findByIdAndRemove {Rt : Runtime} (id : string)
    : Async (option Post.t) :=
  if negb (isValid id) then throw (CastError "Post" id)
  else
    log (PostFindByIdAndRemove id) ;;;
    st <- get_state ;;
    set_posts (remove_by_id id (db_posts st)) ;;;
    ret (List.find (fun p => has_id id (Post._id p)) (db_posts st)).

(** [Post.find().countDocuments()] *)
Definition Post_countDocuments : Async Z :=
  log PostCountDocuments ;;;
  st <- get_state ;;
  ret (Z.of_nat (length (db_posts st))).

(** [.sort({ createdAt: -1 })]: newest first; documents created at the
    same time keep their natural order (the sort is taken to be stable). *)
Fixpoint insert_desc (p : Post.t) (sorted : list Post.t) : list Post.t :=
  match sorted with
  | [] => [p]
  | q :: rest =>
      if Post.createdAt q <=? Post.createdAt p then p :: q :: rest
      else q :: insert_desc p rest
  end.

Definition sort_desc (ps : list Post.t) : list Post.t :=
  fold_right insert_desc [] ps.

(** [Post.find().sort({ createdAt: -1 }).skip(skip).limit(limit)] *)
Definition Post_find_page {Mg : Mongo} (skip limit : Z) : Async (list Post.t) :=
  log (PostFind skip limit) ;;;
  st <- get_state ;;
  if skip <? 0 then
    match find_negative_skip skip limit (db_posts st) with
    | Ok ps => ret ps
    | Throw e => throw e
    end
  else
    ret (take (Z.to_nat limit)
              (drop (Z.to_nat skip) (sort_desc (db_posts st)))).

(** [.populate('creator')] on a list of documents. *)
Fixpoint populate_all (ps : list Post.t)
    : Async (list (Post.t * option User.t)) :=
  match ps with
  | [] => ret []
  | p :: rest =>
      pu <- populate p ;;
      more <- populate_all rest ;;
      ret (pu :: more)
  end.

(** ** [util/file.js] *)

(** [fs.unlink(path, err => console.log(err))]: the file goes if it is
    there; a failure is only logged, never thrown. *)
Definition fs_unlink (path : string) : Async unit :=
  log (FsUnlink path) ;;;
  st <- get_state ;;
  set_files (fs_files st ∖ {[ path ]}).

Definition clearImage {Rt : Runtime} (filePath : string) : Async unit :=
  let filePath := path_join [__dirname; ".."; filePath] in
  fs_unlink filePath.

(** ** [graphql/resolvers.js] *)

(** The properties of the Express request that the handlers read: the
    guard sets [isAuth] and [userId], multer sets [file], and [oldPath] is
    the field of that name in the request body. *)
Record MulterFile := { mf_path : string }.

Record Request := {
  isAuth : bool;
  userId : option string;
  file : option MulterFile;
  oldPath : option string
}.

Record UserInputData := {
  ui_email : string;
  ui_name : string;
  ui_password : string
}.

Record PostInputData := {
  pi_title : string;
  pi_content : string;
  pi_imageUrl : string
}.

Record AuthData := { token : string; ad_userId : string }.

Record PostData := { pd_posts : list Obj; totalPosts : Z }.

(** A property read or a method call on [null] or [undefined]: an error
    without [code]. *)
Definition TypeError (what : string) : JsError :=
  Error ("Cannot read property of " +:+ what).

Definition jwt_secret : string := "somesupersecretsecret".

Definition notAuthenticated : JsError :=
  set_code 401 (Error "Not authenticated!").

(** [errors.push({ message })] *)
Definition push (errors : list FieldError) (msg : string) : list FieldError :=
  errors ++ [ {| fe_message := msg |} ].

(** The value of a populated [creator] path. *)
Definition creator_value (u : option User.t) : Value :=
  match u with
  | Some u => VObj (User._doc u)
  | None => VNull
  end.

Section Resolvers.
Context {Vd : Validator} {Bc : Bcrypt} {Jw : Jwt} {Rt : Runtime}
  {Mg : Mongo}.

(** [{ ...user._doc, _id: user._id.toString() }] *)
Definition user_out (u : User.t) : Obj :=
  spread (User._doc u) [ ("_id", VStr (toString (User._id u))) ].

(** [{ ...post._doc, _id: ..., createdAt: ..., updatedAt: ... }] *)
Definition post_out (p : Post.t) (creator : Value) : Obj :=
  spread (Post._doc p creator)
    [ ("_id", VStr (toString (Post._id p)));
      ("createdAt", VStr (toISOString (Post.createdAt p)));
      ("updatedAt", VStr (toISOString (Post.updatedAt p))) ].

Definition createUser (userInput : option UserInputData) (req : Request)
    : Async Obj :=
  match userInput with
  | None => throw (TypeError "undefined")
  | Some userInput =>
      let errors := [] in
      let errors :=
        if negb (isEmail (ui_email userInput))
        then push errors "E-Mail is invalid." else errors in
      let errors :=
        if isEmpty (ui_password userInput)
           || negb (isLength (ui_password userInput) 5)
        then push errors "Password too short!" else errors in
      if (0 <? length errors)%nat then
        throw (set_code 422 (set_data errors (Error "Invalid input.")))
      else
        existingUser <- User_findOne (ui_email userInput) ;;
        match existingUser with
        | Some _ => throw (Error "User exists already!")
        | None =>
            let hashedPw := bcrypt_hash (ui_password userInput) 12 in
            n <- bump_counter ;;
            let user :=
              {| User._id := new_ObjectId n;
                 User.email := ui_email userInput;
                 User.password := hashedPw;
                 User.name := ui_name userInput;
                 User.status := User.default_status;
                 User.posts := [] |} in
            createdUser <- User_save true user ;;
            ret (user_out createdUser)
        end
  end.

Definition login (email password : string) : Async AuthData :=
  user <- User_findOne email ;;
  match user with
  | None => throw (set_code 401 (Error "User not found."))
  | Some user =>
      let isEqual := bcrypt_compare password (User.password user) in
      if negb isEqual then
        throw (set_code 401 (Error "Password is incorrect."))
      else
        st <- get_state ;;
        let token :=
          jwt_sign {| tp_userId := toString (User._id user);
                      tp_email := User.email user |}
                   jwt_secret "1h" (clock st) in
        ret {| token := token; ad_userId := toString (User._id user) |}
  end.

(** The two length rules shared by [createPost] and [updatePost]. *)
Definition post_errors (postInput : PostInputData) : list FieldError :=
  let errors := [] in
  let errors :=
    if isEmpty (pi_title postInput)
       || negb (isLength (pi_title postInput) 5)
    then push errors "Title is invalid." else errors in
  let errors :=
    if isEmpty (pi_content postInput)
       || negb (isLength (pi_content postInput) 5)
    then push errors "Content is invalid." else errors in
  errors.

Definition invalidInput (errors : list FieldError) : JsError :=
  set_code 422 (set_data errors (Error "Invalid input.")).

Definition createPost (postInput : option PostInputData) (req : Request)
    : Async Obj :=
  if negb (isAuth req) then throw notAuthenticated
  else
    match postInput with
    | None => throw (TypeError "undefined")
    | Some postInput =>
        let errors := post_errors postInput in
        if (0 <? length errors)%nat then throw (invalidInput errors)
        else
          user <- User_findById (userId req) ;;
          match user with
          | None => throw (set_code 401 (Error "Invalid user."))
          | Some user =>
              n <- bump_counter ;;
              let post :=
                {| Post._id := new_ObjectId n;
                   Post.title := pi_title postInput;
                   Post.imageUrl := pi_imageUrl postInput;
                   Post.content := pi_content postInput;
                   Post.creator := User._id user;
                   Post.createdAt := 0; Post.updatedAt := 0 |} in
              createdPost <- Post_save true post ;;
              (* user.posts.push(createdPost) *)
              let user :=
                {| User._id := User._id user; User.email := User.email user;
                   User.password := User.password user;
                   User.name := User.name user;
                   User.status := User.status user;
                   User.posts := User.posts user ++ [Post._id createdPost]
                |} in
              User_save false user ;;;
              ret (post_out createdPost (VObj (User._doc user)))
          end
    end.

Definition perPage : Z := 2.

Definition posts (page : option Z) (req : Request) : Async PostData :=
  if negb (isAuth req) then throw notAuthenticated
  else
    (* if (!page) page = 1 *)
    let page :=
      match page with
      | None => 1
      | Some n => if n =? 0 then 1 else n
      end in
    totalPosts <- Post_countDocuments ;;
    found <- Post_find_page ((page - 1) * perPage) perPage ;;
    populated <- populate_all found ;;
    ret {| pd_posts :=
             map (fun pu => post_out (fst pu) (creator_value (snd pu)))
                 populated;
           totalPosts := totalPosts |}.

Definition post (id : string) (req : Request) : Async Obj :=
  if negb (isAuth req) then throw notAuthenticated
  else
    found <- Post_findById id ;;
    match found with
    | None => throw (set_code 404 (Error "No post found!"))
    | Some p =>
        pu <- populate p ;;
        ret (post_out (fst pu) (creator_value (snd pu)))
    end.

(** The sentinel the client sends when the image is kept: the string
    ['undefined']. *)
Definition unchanged_image : string := "undefined".

Definition updatePost (id : string) (postInput : option PostInputData)
    (req : Request) : Async Obj :=
  if negb (isAuth req) then throw notAuthenticated
  else
    found <- Post_findById id ;;
    match found with
    | None => throw (set_code 404 (Error "No post found!"))
    | Some p =>
        pu <- populate p ;;
        let post := fst pu in
        match snd pu, userId req with
        | None, _ => throw (TypeError "null")
        | Some _, None => throw (TypeError "undefined")
        | Some creator, Some caller =>
            if negb (String.eqb (toString (User._id creator)) caller) then
              throw (set_code 403 (Error "Not authorized!"))
            else
              match postInput with
              | None => throw (TypeError "undefined")
              | Some postInput =>
                  let errors := post_errors postInput in
                  if (0 <? length errors)%nat then
                    throw (invalidInput errors)
                  else
                    let post :=
                      {| Post._id := Post._id post;
                         Post.title := pi_title postInput;
                         Post.imageUrl :=
                           if negb (String.eqb (pi_imageUrl postInput)
                                               unchanged_image)
                           then pi_imageUrl postInput
                           else Post.imageUrl post;
                         Post.content := pi_content postInput;
                         Post.creator := Post.creator post;
                         Post.createdAt := Post.createdAt post;
                         Post.updatedAt := Post.updatedAt post |} in
                    updatedPost <- Post_save false post ;;
                    ret (post_out updatedPost (VObj (User._doc creator)))
              end
        end
    end.

(** [user.posts.pull(id)] *)
Definition pull (id : string) (refs : list ObjectId) : list ObjectId :=
  List.filter (fun o => negb (has_id id o)) refs.

Definition deletePost (id : string) (req : Request) : Async bool :=
  if negb (isAuth req) then throw notAuthenticated
  else
    found <- Post_findById id ;;
    match found with
    | None => throw (set_code 404 (Error "No post found!"))
    | Some post =>
        match userId req with
        | None => throw (TypeError "undefined")
        | Some caller =>
            if negb (String.eqb (toString (Post.creator post)) caller) then
              throw (set_code 403 (Error "Not authorized!"))
            else
              clearImage (Post.imageUrl post) ;;;
              Post_findByIdAndRemove id ;;;
              user <- User_findById (userId req) ;;
              match user with
              | None => throw (TypeError "null")
              | Some user =>
                  let user :=
                    {| User._id := User._id user;
                       User.email := User.email user;
                       User.password := User.password user;
                       User.name := User.name user;
                       User.status := User.status user;
                       User.posts := pull id (User.posts user) |} in
                  User_save false user ;;;
                  ret true
              end
        end
    end.

Definition user (req : Request) : Async Obj :=
  if negb (isAuth req) then throw notAuthenticated
  else
    user <- User_findById (userId req) ;;
    match user with
    | None => throw (set_code 404 (Error "No user found!"))
    | Some user => ret (user_out user)
    end.

Definition updateStatus (status : string) (req : Request) : Async Obj :=
  if negb (isAuth req) then throw notAuthenticated
  else
    user <- User_findById (userId req) ;;
    match user with
    | None => throw (set_code 404 (Error "No user found!"))
    | Some user =>
        let user :=
          {| User._id := User._id user; User.email := User.email user;
             User.password := User.password user;
             User.name := User.name user;
             User.status := status;
             User.posts := User.posts user |} in
        User_save false user ;;;
        ret (user_out user)
    end.

End Resolvers.

(** ** [middleware/auth.js] *)

(** [str.split(' ')] *)
Fixpoint split_from (sep : Ascii.ascii) (cur : string) (str : string)
    : list string :=
  match str with
  | EmptyString => [cur]
  | String c rest =>
      if Ascii.eqb c sep then cur :: split_from sep "" rest
      else split_from sep (cur +:+ String c EmptyString) rest
  end.

Definition split_space (str : string) : list string :=
  split_from " "%char "" str.

(** What a middleware does with a request: it hands it on with [next()],
    hands an error on, or answers itself. *)
Inductive Outcome (R : Type) :=
| Next (req : Request)
| NextError (e : JsError)
| Respond (r : R).
Arguments Next {R} req.
Arguments NextError {R} e.
Arguments Respond {R} r.

Definition with_auth (req : Request) (a : bool) (uid : option string)
    : Request :=
  {| isAuth := a; userId := uid; file := file req; oldPath := oldPath req |}.

(** The guard, given the value of the Authorization header and the time. *)
Definition auth {Jw : Jwt} {R} (authHeader : option string) (now : Z)
    (req : Request) : Outcome R :=
  match authHeader with
  | None => Next (with_auth req false (userId req))
  | Some authHeader =>
      if negb (truthy_string authHeader) then
        Next (with_auth req false (userId req))
      else
        let token := nth_error (split_space authHeader) 1 in
        match jwt_verify token jwt_secret now with
        | VerifyThrows => Next (with_auth req false (userId req))
        | Decoded None => Next (with_auth req false (userId req))
        | Decoded (Some decodedToken) =>
            Next (with_auth req true (Some (tp_userId decodedToken)))
        end
  end.

(** ** [graphql/schema.js] *)

(** The fields of the [User] type. *)
Definition User_fields : list string :=
  [ "_id"; "name"; "email"; "password"; "status"; "posts" ].

(** The default field resolver on a selection of a type's fields: a field
    of the type is read as the property of that name of the source
    object. *)
Definition select_fields (type_fields selection : list string)
    (source : Obj) : list (string * option Value) :=
  map (fun f => (f, obj_get f source))
      (List.filter (fun f => existsb (String.eqb f) type_fields) selection).

(** The operations of [RootQuery] and [RootMutation], with their
    arguments. *)
Inductive Operation :=
| Login (email password : string)
| Posts (page : option Z)
| GetPost (id : string)
| GetUser
| CreateUser (userInput : option UserInputData)
| CreatePost (postInput : option PostInputData)
| UpdatePost (id : string) (postInput : option PostInputData)
| DeletePost (id : string)
| UpdateStatus (status : string).

(** The two operations that do not ask for an identity. *)
Definition is_public (op : Operation) : bool :=
  match op with
  | Login _ _ | CreateUser _ => true
  | _ => false
  end.

Inductive Data :=
| DAuth (d : AuthData)
| DPosts (d : PostData)
| DObj (o : Obj)
| DBool (b : bool).

(** ** [app.js] *)

(** A thrown error as the GraphQL layer reports it. *)
Record GraphQLError := {
  ge_message : string;
  originalError : option JsError
}.

Definition located (e : JsError) : GraphQLError :=
  {| ge_message := message e; originalError := Some e |}.

(** The error envelope. *)
Record Envelope := {
  env_message : string;
  env_status : Z;
  env_data : option (list FieldError)
}.

Inductive Formatted :=
| AsIs (err : GraphQLError)
| Enveloped (env : Envelope).

(** [code || 500] *)
Definition code_or_500 (c : option Z) : Z :=
  match c with
  | Some c => if c =? 0 then 500 else c
  | None => 500
  end.

Definition formatError (err : GraphQLError) : Formatted :=
  match originalError err with
  | None => AsIs err
  | Some originalError =>
      let data := data originalError in
      let message :=
        if truthy_string (ge_message err) then ge_message err
        else "An error occurred." in
      let code := code_or_500 (code originalError) in
      Enveloped {| env_message := message; env_status := code;
                   env_data := data |}
  end.

Record HttpResponse := { res_status : Z; res_json : Obj }.

(** The part of a multipart request named [image]. *)
Record Upload := { originalname : string; mimetype : string }.

Definition fileFilter (file : Upload) : bool :=
  String.eqb (mimetype file) "image/png"
  || String.eqb (mimetype file) "image/jpg"
  || String.eqb (mimetype file) "image/jpeg".

Section App.
Context {Vd : Validator} {Bc : Bcrypt} {Jw : Jwt} {Rt : Runtime}
  {Mg : Mongo}.

(** The root value: the resolver of each operation. *)
Definition dispatch (op : Operation) (req : Request) : Async Data :=
  match op with
  | Login email password => d <- login email password ;; ret (DAuth d)
  | Posts page => d <- posts page req ;; ret (DPosts d)
  | GetPost id => o <- post id req ;; ret (DObj o)
  | GetUser => o <- user req ;; ret (DObj o)
  | CreateUser userInput => o <- createUser userInput req ;; ret (DObj o)
  | CreatePost postInput => o <- createPost postInput req ;; ret (DObj o)
  | UpdatePost id postInput =>
      o <- updatePost id postInput req ;; ret (DObj o)
  | DeletePost id => b <- deletePost id req ;; ret (DBool b)
  | UpdateStatus status => o <- updateStatus status req ;; ret (DObj o)
  end.

(** The GraphQL endpoint: the data of the operation, or its error passed
    through [formatError]. *)
Definition graphql (op : Operation) (req : Request) (st : State)
    : (Data + Formatted) * State :=
  match dispatch op req st with
  | (Ok d, st') => (inl d, st')
  | (Throw e, st') => (inr (formatError (located e)), st')
  end.

(** [multer({ storage, fileFilter }).single('image')]: an accepted file
    is written under [images] and described in [req.file]. *)
Definition multer_single (part : option Upload) (req : Request)
    : Async Request :=
  match part with
  | None => ret req
  | Some f =>
      if fileFilter f then
        st <- get_state ;;
        let filename := toISOString (clock st) +:+ "-" +:+ originalname f in
        let path := path_join ["images"; filename] in
        log (FsWrite path) ;;;
        set_files ({[ path ]} ∪ fs_files st) ;;;
        ret {| isAuth := isAuth req; userId := userId req;
               file := Some {| mf_path := path |};
               oldPath := oldPath req |}
      else ret req
  end.

(** The handler of [PUT /post-image]. *)
Definition put_post_image (req : Request) : Async HttpResponse :=
  if negb (isAuth req) then throw (Error "Not authenticated!")
  else
    match file req with
    | None =>
        ret {| res_status := 200;
               res_json := [ ("message", VStr "No file provided!") ] |}
    | Some f =>
        (match oldPath req with
         | Some old => if truthy_string old then clearImage old else ret tt
         | None => ret tt
         end) ;;;
        ret {| res_status := 201;
               res_json := [ ("message", VStr "File stored.");
                             ("filePath", VStr (mf_path f)) ] |}
    end.

(** The last middleware: an error becomes a response; no error of this
    program has a [statusCode], so the status is the default. *)
Definition error_handler (error : JsError) : HttpResponse :=
  {| res_status := 500;
     res_json :=
       ("message", VStr (message error))
       :: match data error with
          | Some d =>
              [ ("data",
                 VArr (map (fun fe => VObj [("message", VStr (fe_message fe))])
                           d)) ]
          | None => []
          end |}.

(** An incoming request as Express first sees it. *)
Definition incoming (old : option string) : Request :=
  {| isAuth := false; userId := None; file := None; oldPath := old |}.

(** A [PUT /post-image] request through the middleware stack: multer,
    the guard, the handler, and the error handler. *)
Definition upload_request (authHeader : option string)
    (part : option Upload) (old : option string) (st : State)
    : HttpResponse * State :=
  match multer_single part (incoming old) st with
  | (Throw e, st1) => (error_handler e, st1)
  | (Ok req, st1) =>
      match auth (R := HttpResponse) authHeader (clock st1) req with
      | Next req =>
          match put_post_image req st1 with
          | (Ok res, st2) => (res, st2)
          | (Throw e, st2) => (error_handler e, st2)
          end
      | NextError e => (error_handler e, st1)
      | Respond r => (r, st1)
      end
  end.

(** A GraphQL request through the guard and the endpoint. *)
Definition graphql_request (authHeader : option string) (op : Operation)
    (st : State) : (Data + Formatted) * State :=
  match auth (R := Data + Formatted) authHeader (clock st) (incoming None) with
  | Next req => graphql op req st
  | NextError e => (inr (formatError (located e)), st)
  | Respond r => (r, st)
  end.

End App.

(** ** The store seen from outside *)

(** The state after some more calls were issued, the store as it was. *)
Definition traced (evs : list Event) (st : State) : State :=
  {| db_users := db_users st; db_posts := db_posts st;
     fs_files := fs_files st; clock := clock st;
     oid_counter := oid_counter st; trace := trace st ++ evs |}.

(** The store's lookups, as functions of the collections. *)
Definition user_by_email (email : string) (st : State) : option User.t :=
  List.find (fun u => String.eqb (User.email u) email) (db_users st).

Definition user_by_id (id : string) (st : State) : option User.t :=
  List.find (fun u => has_id id (User._id u)) (db_users st).

(** The post an id designates: none when the id is no ObjectId. *)
Definition post_by_id {Rt : Runtime} (id : string) (st : State)
    : option Post.t :=
  List.find (fun p => isValid id && has_id id (Post._id p)) (db_posts st).

(** The side effects among the calls issued between two states. *)
Definition side_effects (evs : list Event) : list Event :=
  List.filter is_side_effect evs.

(** What a caller sees of a thrown error. *)
Definition surfaced (e : JsError) : Formatted := formatError (located e).

(** ** A sample deployment

    Small stand-ins for the packages, and a store with two users and three
    posts, on which the theorems are run. *)
Module Sample.

Definition validator : Validator :=
  {| isEmail := fun s =>
       existsb (Ascii.eqb "@"%char) (list_ascii_of_string s) |}.

Definition bcrypt : Bcrypt :=
  {| bcrypt_hash := fun pw _ => "$2a$12$" +:+ pw;
     bcrypt_compare := fun pw h => String.eqb h ("$2a$12$" +:+ pw) |}.

Definition jwt : Jwt :=
  {| jwt_sign := fun p _ _ _ => "jwt." +:+ tp_userId p;
     jwt_verify := fun tok _ _ =>
       match tok with
       | Some t =>
           if String.prefix "jwt." t then
             Decoded (Some {| tp_userId :=
                                String.substring 4 (String.length t - 4) t;
                              tp_email := "" |})
           else VerifyThrows
       | None => VerifyThrows
       end |}.

(** Identifiers are short strings here, and every string casts. *)
Definition runtime : Runtime :=
  {| new_ObjectId := fun n =>
       Oid (string_of_list_ascii (repeat "n"%char (S n)));
     isValid := fun _ => true;
     isValid_new_ObjectId := fun _ => eq_refl;
     toISOString := fun t =>
       if t =? 0 then "1970-01-01T00:00:00.000Z"
       else "2019-03-01T10:00:00.000Z";
     path_join := String.concat "/";
     __dirname := "/srv/util" |}.

(** MongoDB rejects a find command whose skip is negative. *)
Definition mongo : Mongo :=
  {| find_negative_skip := fun _ _ _ =>
       Throw (Error "Skip value must be non-negative") |}.

Definition alice : User.t :=
  {| User._id := Oid "a1"; User.email := "alice@example.com";
     User.password := "$2a$12$wonderland"; User.name := "Alice";
     User.status := "I am new!"; User.posts := [Oid "p1"; Oid "p2"] |}.

Definition bob : User.t :=
  {| User._id := Oid "b2"; User.email := "bob@example.com";
     User.password := "$2a$12$builder"; User.name := "Bob";
     User.status := "I am new!"; User.posts := [Oid "p3"] |}.

Definition post1 : Post.t :=
  {| Post._id := Oid "p1"; Post.title := "First post";
     Post.imageUrl := "images/one.png"; Post.content := "Hello world";
     Post.creator := Oid "a1"; Post.createdAt := 100;
     Post.updatedAt := 100 |}.

Definition post2 : Post.t :=
  {| Post._id := Oid "p2"; Post.title := "Second post";
     Post.imageUrl := "images/two.png"; Post.content := "More words";
     Post.creator := Oid "a1"; Post.createdAt := 300;
     Post.updatedAt := 300 |}.

Definition post3 : Post.t :=
  {| Post._id := Oid "p3"; Post.title := "Third post";
     Post.imageUrl := "images/three.png"; Post.content := "By Bob";
     Post.creator := Oid "b2"; Post.createdAt := 200;
     Post.updatedAt := 200 |}.

Definition store : State :=
  {| db_users := [alice; bob]; db_posts := [post1; post2; post3];
     fs_files := ∅; clock := 1000; oid_counter := 0; trace := [] |}.

(** The request of a caller the guard has identified. *)
Definition as_user (uid : string) : Request :=
  {| isAuth := true; userId := Some uid; file := None; oldPath := None |}.

Definition anonymous : Request :=
  {| isAuth := false; userId := None; file := None; oldPath := None |}.

End Sample.

(** ** A deployment with hexadecimal identifiers

    ObjectIds as the driver has them: an identifier renders as 24
    lower-case hexadecimal digits, and a string casts to an ObjectId when
    it has 24 hexadecimal digits or 12 characters. *)
Module Hex.

Definition digits : list ascii := list_ascii_of_string "0123456789abcdef".

Definition is_hex (c : ascii) : bool :=
  existsb (Ascii.eqb c) (list_ascii_of_string "0123456789abcdefABCDEF").

(** The [width] low hexadecimal digits of [n], most significant first. *)
Fixpoint hex (width n : nat) : list ascii :=
  match width with
  | O => []
  | S w => hex w (n / 16)%nat ++ [nth (n mod 16)%nat digits "0"%char]
  end.

Definition generate (n : nat) : ObjectId :=
  Oid (string_of_list_ascii (hex 24 n)).

Definition casts (s : string) : bool :=
  ((String.length s =? 24)%nat && forallb is_hex (list_ascii_of_string s))
  || (String.length s =? 12)%nat.

Lemma hex_length (width n : nat) : length (hex width n) = width.
Proof.
  revert n. induction width as [| w IH]; intros n; [reflexivity |].
  cbn [hex]. rewrite length_app, IH. cbn [length]. lia.
Qed.

Lemma hex_is_hex (width n : nat) : forallb is_hex (hex width n) = true.
Proof.
  revert n. induction width as [| w IH]; intros n; [reflexivity |].
  cbn [hex]. rewrite forallb_app, IH. cbn [forallb andb].
  rewrite andb_true_r.
  pose proof (Nat.mod_upper_bound n 16 ltac:(lia)) as Hlt.
  destruct (n mod 16)%nat as [| m]; [reflexivity |].
  do 15 (destruct m as [| m]; [reflexivity |]). lia.
Qed.

Lemma length_string_of_list_ascii (l : list ascii) :
  String.length (string_of_list_ascii l) = length l.
Proof. induction l as [| c l IH]; [reflexivity |]. cbn. now rewrite IH. Qed.

Lemma casts_generate (n : nat) : casts (toString (generate n)) = true.
Proof.
  unfold casts, generate, toString.
  rewrite length_string_of_list_ascii, hex_length,
    list_ascii_of_string_of_list_ascii, hex_is_hex.
  reflexivity.
Qed.

Definition runtime : Runtime :=
  {| new_ObjectId := generate;
     isValid := casts;
     isValid_new_ObjectId := casts_generate;
     toISOString := toISOString (Runtime := Sample.runtime);
     path_join := String.concat "/";
     __dirname := "/srv/util" |}.

Definition carol : User.t :=
  {| User._id := Oid "000000000000000000000000";
     User.email := "carol@example.com";
     User.password := "$2a$12$singer"; User.name := "Carol";
     User.status := "I am new!";
     User.posts := [Oid "000000000000000000000002"] |}.

Definition dave : User.t :=
  {| User._id := Oid "000000000000000000000001";
     User.email := "dave@example.com";
     User.password := "$2a$12$diver"; User.name := "Dave";
     User.status := "I am new!"; User.posts := [] |}.

Definition post : Post.t :=
  {| Post._id := Oid "000000000000000000000002";
     Post.title := "Carol's post"; Post.imageUrl := "images/carol.png";
     Post.content := "Some words"; Post.creator := Oid "000000000000000000000000";
     Post.createdAt := 100; Post.updatedAt := 100 |}.

Definition store : State :=
  {| db_users := [carol; dave]; db_posts := [post]; fs_files := ∅;
     clock := 1000; oid_counter := 3; trace := [] |}.

End Hex.

(** The id is the rendering of an identifier the generator gives: the
    form in which the resolvers hand identifiers out. *)
Definition issued {Rt : Runtime} (id : string) : Prop :=
  exists n, id = toString (new_ObjectId n).

(** The Authorization header gives no identity: it is absent or empty,
    or [jwt.verify] rejects its second segment. *)
Definition no_identity {Jw : Jwt} (authHeader : option string) (now : Z)
    : Prop :=
  match authHeader with
  | None => True
  | Some h =>
      h = ""
      \/ jwt_verify (nth_error (split_space h) 1) jwt_secret now = VerifyThrows
      \/ jwt_verify (nth_error (split_space h) 1) jwt_secret now = Decoded None
  end.

(** The Authorization header carries a token that verifies. *)
Definition identifies {Jw : Jwt} (authHeader : option string) (now : Z)
    (d : TokenPayload) : Prop :=
  exists h,
    authHeader = Some h /\ h <> ""
    /\ jwt_verify (nth_error (split_space h) 1) jwt_secret now
       = Decoded (Some d).

(** No file reaches the upload handler: none was sent, or the filter
    dropped it. *)
Definition no_file_accepted (part : option Upload) : Prop :=
  match part with
  | None => True
  | Some f => fileFilter f = false
  end.

(** Referential integrity of the store: the creator of every post is a
    stored user. *)
Definition creators_exist (st : State) : bool :=
  forallb (fun p =>
             match user_by_id (toString (Post.creator p)) st with
             | Some _ => true
             | None => false
             end)
          (db_posts st).


(** A loaded user after [user.posts.pull(id)]. *)
Definition pulled (id : string) (u : User.t) : User.t :=
  {| User._id := User._id u; User.email := User.email u;
     User.password := User.password u; User.name := User.name u;
     User.status := User.status u; User.posts := pull id (User.posts u) |}.

(** Newest first: [a] may stand before [b]. *)
Definition newer_first (a b : Post.t) : Prop :=
  Post.createdAt b <= Post.createdAt a.

(** The documents of page [n] of a sorted collection. *)
Definition page_slice (n : Z) (sorted : list Post.t) : list Post.t :=
  take 2 (drop (Z.to_nat ((n - 1) * 2)) sorted).

(** A post as the posts query renders it, its creator looked up in the
    store. *)
Definition rendered {Rt : Runtime} (st : State) (p : Post.t) : Obj :=
  post_out p (creator_value (user_by_id (toString (Post.creator p)) st)).

(** Referential integrity, on the two collections. *)
Definition integrity (us : list User.t) (ps : list Post.t) : Prop :=
  forall p, In p ps ->
    List.find (fun u => has_id (toString (Post.creator p)) (User._id u)) us
    <> None.

(** Every identifier found among [us] is found among [us']. *)
Definition users_kept (us us' : list User.t) : Prop :=
  forall id,
    List.find (fun u => has_id id (User._id u)) us <> None ->
    List.find (fun u => has_id id (User._id u)) us' <> None.

(** Every post of [ps'] is one of [ps] or has its creator among [us]. *)
Definition posts_from (us : list User.t) (ps ps' : list Post.t) : Prop :=
  forall p, In p ps' ->
    In p ps
    \/ List.find (fun u => has_id (toString (Post.creator p)) (User._id u)) us
       <> None.

(** The store before any request. *)
Definition empty_store (now : Z) : State :=
  {| db_users := []; db_posts := []; fs_files := ∅; clock := now;
     oid_counter := 0; trace := [] |}.

(** ** Further notions used by the properties *)

(** The messages createUser collects for an input. *)
Definition user_errors {Vd : Validator} (input : UserInputData)
    : list FieldError :=
  (if isEmail (ui_email input) then []
   else [ {| fe_message := "E-Mail is invalid." |} ])
  ++ (if (5 <=? String.length (ui_password input))%nat then []
      else [ {| fe_message := "Password too short!" |} ]).

(** The messages of the two length rules of a post input. *)
Definition length_errors (input : PostInputData) : list FieldError :=
  (if (5 <=? String.length (pi_title input))%nat then []
   else [ {| fe_message := "Title is invalid." |} ])
  ++ (if (5 <=? String.length (pi_content input))%nat then []
      else [ {| fe_message := "Content is invalid." |} ]).

(** The user document [new User({ email, name, password: hash })] with
    the identifier generated at counter [n]. *)
Definition registered {Bc : Bcrypt} {Rt : Runtime} (n : nat)
    (input : UserInputData) : User.t :=
  {| User._id := new_ObjectId n;
     User.email := ui_email input;
     User.password := bcrypt_hash (ui_password input) 12;
     User.name := ui_name input;
     User.status := "I am new!";
     User.posts := [] |}.

(** A string without a space. *)
Fixpoint no_space (s : string) : bool :=
  match s with
  | EmptyString => true
  | String c rest => negb (Ascii.eqb c " "%char) && no_space rest
  end.

(** The posts of a query result; none when it threw. *)
Definition page_posts (r : Result PostData) : list Obj :=
  match r with
  | Ok d => pd_posts d
  | Throw _ => []
  end.

(** The post document [new Post({ title, content, imageUrl, creator })]
    with the identifier generated at counter [n], as saved at time
    [now]. *)
Definition created {Rt : Runtime} (n : nat) (now : Z)
    (input : PostInputData) (creator : ObjectId) : Post.t :=
  {| Post._id := new_ObjectId n;
     Post.title := pi_title input;
     Post.imageUrl := pi_imageUrl input;
     Post.content := pi_content input;
     Post.creator := creator;
     Post.createdAt := now;
     Post.updatedAt := now |}.

(** A loaded user after [user.posts.push(post)]. *)
Definition pushed (pid : ObjectId) (u : User.t) : User.t :=
  {| User._id := User._id u; User.email := User.email u;
     User.password := User.password u; User.name := User.name u;
     User.status := User.status u; User.posts := User.posts u ++ [pid] |}.

(** A loaded user after [user.status = status]. *)
Definition with_status (status : string) (u : User.t) : User.t :=
  {| User._id := User._id u; User.email := User.email u;
     User.password := User.password u; User.name := User.name u;
     User.status := status; User.posts := User.posts u |}.

(** The users collection after the save of a loaded user. *)
Definition users_after_save (u : User.t) (us : list User.t) : list User.t :=
  map (fun x => if ObjectId_eqb (User._id x) (User._id u) then u else x) us.

(** The user the store finds for the caller of a request. *)
Definition caller (req : Request) (st : State) : option User.t :=
  match userId req with
  | Some uid => user_by_id uid st
  | None => None
  end.

(** The kinds of error a resolver throws: an authorization or lookup
    failure with its code and no data, a validation failure with code 422
    and a non-empty list of messages, or an error without code and
    data. *)
Definition classified (e : JsError) : Prop :=
  ((code e = Some 401 \/ code e = Some 403 \/ code e = Some 404)
   /\ data e = None)
  \/ (code e = Some 422 /\ exists d, data e = Some d /\ d <> [])
  \/ (code e = None /\ data e = None).

(** The page argument does not make the skip negative. *)
Definition skips_forward (op : Operation) : Prop :=
  match op with
  | Posts (Some n) => 0 <= n
  | _ => True
  end.

(** Where multer writes an accepted file at time [now]. *)
Definition stored_path {Rt : Runtime} (now : Z) (f : Upload) : string :=
  path_join ["images"; toISOString now +:+ "-" +:+ originalname f].

(** The path [clearImage] unlinks for an image reference. *)
Definition image_path {Rt : Runtime} (filePath : string) : string :=
  path_join [__dirname; ".."; filePath].

(** The two collections agree with each other, given how many
    identifiers were generated: the posts have distinct identifiers, each
    one generated; every stored user passes the schema; every post is in
    the post set of the user the store finds for its creator; and every
    reference in a user's post set is a stored post created by that
    user. *)
Definition consistent_at {Rt : Runtime}
    (us : list User.t) (ps : list Post.t) (c : nat) : Prop :=
  List.NoDup (map (fun p => toString (Post._id p)) ps)
  /\ (forall p, In p ps ->
        exists k, (k < c)%nat /\ Post._id p = new_ObjectId k)
  /\ (forall u, In u us -> User.valid u = true)
  /\ (forall p, In p ps ->
        exists u,
          List.find (fun x => has_id (toString (Post.creator p)) (User._id x))
                    us = Some u
          /\ In (Post._id p) (User.posts u))
  /\ (forall u r, In u us -> In r (User.posts u) ->
        exists p, In p ps /\ Post._id p = r
                  /\ toString (Post.creator p) = toString (User._id u)).

Definition consistent {Rt : Runtime} (st : State) : Prop :=
  consistent_at (db_users st) (db_posts st) (oid_counter st).

(** No identifier is generated twice. *)
Definition generates_distinct {Rt : Runtime} : Prop :=
  forall j k : nat, new_ObjectId j = new_ObjectId k -> j = k.

(** The accounts are distinct: no two stored users share an identifier
    or an email, and every identifier was generated. *)
Definition accounts_at {Rt : Runtime} (us : list User.t) (c : nat) : Prop :=
  List.NoDup (map (fun u => toString (User._id u)) us)
  /\ (forall u, In u us ->
        exists k, (k < c)%nat /\ User._id u = new_ObjectId k)
  /\ List.NoDup (map User.email us).

Definition accounts_distinct {Rt : Runtime} (st : State) : Prop :=
  accounts_at (db_users st) (oid_counter st).

(** createPost as far as its first save: the post document is built and
    saved, the creator's post set is not yet written. *)
Definition createPost_post_save {Rt : Runtime} (postInput : PostInputData)
    (user : User.t) : Async Post.t :=
  n <- bump_counter ;;
  Post_save true
    {| Post._id := new_ObjectId n;
       Post.title := pi_title postInput;
       Post.imageUrl := pi_imageUrl postInput;
       Post.content := pi_content postInput;
       Post.creator := User._id user;
       Post.createdAt := 0; Post.updatedAt := 0 |}.

(** A store of one user and one post, grown from the empty store by a
    registration and a createPost of the sample deployment. *)
Definition grown_store : State :=
  snd (createPost (Rt := Sample.runtime)
         (Some {| pi_title := "Hello there"; pi_content := "First words";
                  pi_imageUrl := "images/hello.png" |})
         {| isAuth := true; userId := Some "n"; file := None;
            oldPath := None |}
         (snd (createUser (Vd := Sample.validator) (Bc := Sample.bcrypt)
                 (Rt := Sample.runtime)
                 (Some {| ui_email := "dora@example.com"; ui_name := "Dora";
                          ui_password := "explorer" |})
                 Sample.anonymous (empty_store 0)))).

(** The store after the first registration on the empty store. *)
Definition first_user_store : State :=
  snd (createUser (Vd := Sample.validator) (Bc := Sample.bcrypt)
         (Rt := Sample.runtime)
         (Some {| ui_email := "dora@example.com"; ui_name := "Dora";
                  ui_password := "explorer" |})
         Sample.anonymous (empty_store 0)).

(** * Properties *)

(** ** Running the monad *)

Ltac run_async :=
  unfold bind, ret, throw, log, get_state, set_users, set_posts, set_files,
    bump_counter; simpl.

Lemma traced_nil st : traced [] st = st.
Proof. destruct st; unfold traced; simpl. now rewrite app_nil_r. Qed.

Lemma traced_traced evs evs' st :
  traced evs' (traced evs st) = traced (evs ++ evs') st.
Proof. unfold traced; simpl. now rewrite app_assoc. Qed.

Lemma User_findOne_run email st :
  User_findOne email st
  = (Ok (user_by_email email st), traced [UserFindOne email] st).
Proof. reflexivity. Qed.

Lemma User_findById_run id st :
  User_findById (Some id) st
  = (Ok (user_by_id id st), traced [UserFindById (Some id)] st).
Proof. reflexivity. Qed.

Lemma post_by_id_valid {Rt : Runtime} id st :
  isValid id = true ->
  post_by_id id st
  = List.find (fun p => has_id id (Post._id p)) (db_posts st).
Proof. unfold post_by_id. now intros ->. Qed.

Lemma post_by_id_invalid {Rt : Runtime} id st :
  isValid id = false -> post_by_id id st = None.
Proof.
  unfold post_by_id. intros ->. simpl.
  induction (db_posts st) as [| p ps IH]; [reflexivity | exact IH].
Qed.

Lemma post_by_id_isValid {Rt : Runtime} id st p :
  post_by_id id st = Some p -> isValid id = true.
Proof.
  intros Hf. destruct (isValid id) eqn:Hv; [reflexivity |].
  rewrite (post_by_id_invalid _ _ Hv) in Hf. discriminate.
Qed.

Lemma Post_findById_run {Rt : Runtime} id st :
  isValid id = true ->
  Post_findById id st
  = (Ok (post_by_id id st), traced [PostFindById id] st).
Proof.
  intros Hv. rewrite (post_by_id_valid _ _ Hv).
  unfold Post_findById. now rewrite Hv.
Qed.

Lemma Post_findById_found {Rt : Runtime} id st p :
  post_by_id id st = Some p ->
  Post_findById id st = (Ok (Some p), traced [PostFindById id] st).
Proof.
  intros Hf. rewrite (Post_findById_run _ _ (post_by_id_isValid _ _ _ Hf)).
  now rewrite Hf.
Qed.

Lemma Post_findById_cast {Rt : Runtime} id st :
  isValid id = false ->
  Post_findById id st = (Throw (CastError "Post" id), st).
Proof. intros Hv. unfold Post_findById. now rewrite Hv. Qed.

Lemma populate_run p st :
  populate p st
  = (Ok (p, user_by_id (toString (Post.creator p)) st),
     traced [UserFindById (Some (toString (Post.creator p)))] st).
Proof. reflexivity. Qed.

Lemma post_by_id_has_id {Rt : Runtime} id st p :
  post_by_id id st = Some p -> toString (Post._id p) = id.
Proof.
  unfold post_by_id. intros Hf. apply find_some in Hf as [_ Hid].
  apply andb_prop in Hid as [_ Hid]. now apply String.eqb_eq in Hid.
Qed.

Lemma user_by_id_has_id id st u :
  user_by_id id st = Some u -> toString (User._id u) = id.
Proof.
  unfold user_by_id. intros Hf. apply find_some in Hf as [_ Hid].
  now apply String.eqb_eq in Hid.
Qed.

(** ** Validation *)

Lemma short_password_rejected (pw : string) :
  pw = "" \/ (String.length pw < 5)%nat ->
  isEmpty pw || negb (isLength pw 5) = true.
Proof.
  intros Hpw. unfold isEmpty, isLength.
  assert (Hlen : (String.length pw < 5)%nat).
  { destruct Hpw as [-> | Hlt]; [simpl; lia | exact Hlt]. }
  apply orb_true_iff. right. apply negb_true_iff.
  apply Nat.leb_gt. exact Hlen.
Qed.

(** C3: a createUser input with a malformed email and a password that is
    empty or shorter than 5 characters fails with one error of code 422,
    whose data lists both messages, the email's first; the state, trace
    of store calls included, is the one before the call: nothing was read
    or written. *)
Theorem createUser_reports_every_violation
    {Vd : Validator} {Bc : Bcrypt} {Rt : Runtime}
    (input : UserInputData) (req : Request) (st : State) :
  isEmail (ui_email input) = false ->
  ui_password input = "" \/ (String.length (ui_password input) < 5)%nat ->
  createUser (Some input) req st
  = (Throw {| message := "Invalid input."; code := Some 422;
              data := Some [ {| fe_message := "E-Mail is invalid." |};
                             {| fe_message := "Password too short!" |} ] |},
     st).
Proof.
  intros Hemail Hpw. unfold createUser.
  rewrite Hemail, (short_password_rejected _ Hpw). reflexivity.
Qed.

Lemma createUser_reports_every_violation_witness :
  createUser (Vd := Sample.validator) (Bc := Sample.bcrypt)
    (Rt := Sample.runtime)
    (Some {| ui_email := "not-an-email"; ui_name := "Carol";
             ui_password := "abc" |})
    Sample.anonymous Sample.store
  = (Throw {| message := "Invalid input."; code := Some 422;
              data := Some [ {| fe_message := "E-Mail is invalid." |};
                             {| fe_message := "Password too short!" |} ] |},
     Sample.store).
Proof.
  apply (createUser_reports_every_violation
           (Vd := Sample.validator) (Bc := Sample.bcrypt)
           (Rt := Sample.runtime)).
  - reflexivity.
  - right. simpl. lia.
Defined.

Lemma long_password_accepted (pw : string) :
  (5 <= String.length pw)%nat ->
  isEmpty pw || negb (isLength pw 5) = false.
Proof.
  intros Hlen. unfold isEmpty, isLength.
  apply orb_false_iff. split.
  - apply Nat.eqb_neq. lia.
  - apply negb_false_iff. now apply Nat.leb_le.
Qed.

(** ** Registration conflicts *)

(** C8, as the code has it: a createUser call that passes validation and
    whose email is already registered fails, after the one lookup, with an
    error that has no code and no data; the envelope shown to the caller
    has status 500. *)
Theorem createUser_conflict_unclassified
    {Vd : Validator} {Bc : Bcrypt} {Rt : Runtime}
    (input : UserInputData) (req : Request) (st : State) (u : User.t) :
  isEmail (ui_email input) = true ->
  (5 <= String.length (ui_password input))%nat ->
  user_by_email (ui_email input) st = Some u ->
  createUser (Some input) req st
  = (Throw (Error "User exists already!"),
     traced [UserFindOne (ui_email input)] st)
  /\ code (Error "User exists already!") = None
  /\ surfaced (Error "User exists already!")
     = Enveloped {| env_message := "User exists already!";
                    env_status := 500; env_data := None |}.
Proof.
  intros Hemail Hpw Hreg. split; [| split; reflexivity].
  unfold createUser.
  rewrite Hemail, (long_password_accepted _ Hpw). simpl.
  unfold bind at 1. rewrite User_findOne_run, Hreg. reflexivity.
Qed.

Lemma createUser_conflict_unclassified_witness :
  createUser (Vd := Sample.validator) (Bc := Sample.bcrypt)
    (Rt := Sample.runtime)
    (Some {| ui_email := "alice@example.com"; ui_name := "Alice again";
             ui_password := "rabbit hole" |})
    Sample.anonymous Sample.store
  = (Throw (Error "User exists already!"),
     traced [UserFindOne "alice@example.com"] Sample.store)
  /\ code (Error "User exists already!") = None
  /\ surfaced (Error "User exists already!")
     = Enveloped {| env_message := "User exists already!";
                    env_status := 500; env_data := None |}.
Proof.
  apply (createUser_conflict_unclassified
           (Vd := Sample.validator) (Bc := Sample.bcrypt)
           (Rt := Sample.runtime)
           {| ui_email := "alice@example.com"; ui_name := "Alice again";
              ui_password := "rabbit hole" |}
           Sample.anonymous Sample.store Sample.alice).
  - reflexivity.
  - simpl. lia.
  - reflexivity.
Defined.

(** C8 as stated fails: with a registered email and a password of three
    characters, validation comes first and the error carries the explicit
    code 422, which is the status of the envelope. *)
Lemma createUser_conflict_counterexample :
  let input := {| ui_email := "alice@example.com"; ui_name := "Alice again";
                  ui_password := "abc" |} in
  let e := {| message := "Invalid input."; code := Some 422;
              data := Some [ {| fe_message := "Password too short!" |} ] |} in
  user_by_email (ui_email input) Sample.store = Some Sample.alice
  /\ createUser (Vd := Sample.validator) (Bc := Sample.bcrypt)
       (Rt := Sample.runtime) (Some input) Sample.anonymous Sample.store
     = (Throw e, Sample.store)
  /\ code e <> None
  /\ surfaced e
     = Enveloped {| env_message := "Invalid input."; env_status := 422;
                    env_data :=
                      Some [ {| fe_message := "Password too short!" |} ] |}.
Proof.
  repeat split; try reflexivity. discriminate.
Qed.

(** ** Login failures *)

(** C2, as the code has it: a login with an unknown email and a login with
    a known email and a wrong password both fail with code 401 and no
    data, after the one lookup; the first error says "User not found.",
    the second "Password is incorrect.", and so do the envelopes. *)
Theorem login_failures_are_401
    {Bc : Bcrypt} {Jw : Jwt}
    (email1 password1 email2 password2 : string) (st : State) (u : User.t) :
  user_by_email email1 st = None ->
  user_by_email email2 st = Some u ->
  bcrypt_compare password2 (User.password u) = false ->
  let e1 := {| message := "User not found."; code := Some 401;
               data := None |} in
  let e2 := {| message := "Password is incorrect."; code := Some 401;
               data := None |} in
  login email1 password1 st = (Throw e1, traced [UserFindOne email1] st)
  /\ login email2 password2 st = (Throw e2, traced [UserFindOne email2] st)
  /\ surfaced e1 = Enveloped {| env_message := "User not found.";
                                env_status := 401; env_data := None |}
  /\ surfaced e2 = Enveloped {| env_message := "Password is incorrect.";
                                env_status := 401; env_data := None |}.
Proof.
  intros Hunknown Hknown Hwrong e1 e2.
  repeat split.
  - unfold login, bind at 1. rewrite User_findOne_run, Hunknown. reflexivity.
  - unfold login, bind at 1. rewrite User_findOne_run, Hknown, Hwrong.
    reflexivity.
Qed.

Lemma login_failures_are_401_witness :
  fst (login (Bc := Sample.bcrypt) (Jw := Sample.jwt)
         "mallory@example.com" "guess" Sample.store)
  = Throw {| message := "User not found."; code := Some 401; data := None |}
  /\ fst (login (Bc := Sample.bcrypt) (Jw := Sample.jwt)
            "alice@example.com" "guess" Sample.store)
     = Throw {| message := "Password is incorrect."; code := Some 401;
                data := None |}.
Proof.
  destruct (login_failures_are_401 (Bc := Sample.bcrypt) (Jw := Sample.jwt)
              "mallory@example.com" "guess" "alice@example.com" "guess"
              Sample.store Sample.alice)
    as (H1 & H2 & _); [reflexivity | reflexivity | reflexivity |].
  rewrite H1, H2. split; reflexivity.
Defined.

(** C2 as stated fails: on the sample store the two failures reach the
    caller as different envelopes, so the caller learns whether the email
    is registered. *)
Lemma login_failures_counterexample :
  exists e1 e2,
    fst (login (Bc := Sample.bcrypt) (Jw := Sample.jwt)
           "mallory@example.com" "guess" Sample.store) = Throw e1
    /\ fst (login (Bc := Sample.bcrypt) (Jw := Sample.jwt)
              "alice@example.com" "guess" Sample.store) = Throw e2
    /\ surfaced e1 <> surfaced e2.
Proof.
  eexists. eexists. split; [reflexivity | split; [reflexivity |]].
  discriminate.
Qed.

(** ** What a user object carries *)

Lemma user_out_password (u : User.t) :
  obj_get "password" (user_out u) = Some (VStr (User.password u)).
Proof. reflexivity. Qed.

Lemma user_out_id (u : User.t) :
  obj_get "_id" (user_out u) = Some (VStr (toString (User._id u))).
Proof. reflexivity. Qed.

Lemma User_save_new_inv (u r : User.t) (st st' : State) :
  User_save true u st = (Ok r, st') ->
  r = u /\ db_users st' = db_users st ++ [u].
Proof.
  unfold User_save. destruct (User.valid u); simpl.
  - run_async. intros [= <- <-]. simpl. auto.
  - unfold throw. discriminate.
Qed.

Lemma createUser_success_inv
    {Vd : Validator} {Bc : Bcrypt} {Rt : Runtime}
    (userInput : option UserInputData) (req : Request) (st st' : State)
    (o : Obj) :
  createUser userInput req st = (Ok o, st') ->
  exists input u,
    userInput = Some input
    /\ db_users st' = db_users st ++ [u]
    /\ User.email u = ui_email input
    /\ User.password u = bcrypt_hash (ui_password input) 12
    /\ o = user_out u.
Proof.
  unfold createUser. destruct userInput as [input |]; [| discriminate].
  destruct (negb (isEmail (ui_email input)));
    destruct (isEmpty (ui_password input)
              || negb (isLength (ui_password input) 5));
    simpl; try discriminate.
  unfold bind at 1. rewrite User_findOne_run.
  destruct (user_by_email (ui_email input) st); [discriminate |].
  unfold bind at 1, bump_counter.
  unfold bind at 1.
  destruct (User_save true _ _) as [[r | e] st1] eqn:Hsave; [| discriminate].
  apply User_save_new_inv in Hsave as [-> Husers].
  unfold ret. intros [= <- <-].
  eexists input, _. repeat split; [exact Husers | reflexivity | reflexivity].
Qed.

Lemma user_success_inv (req : Request) (st st' : State) (o : Obj) :
  user req st = (Ok o, st') ->
  exists u, In u (db_users st) /\ db_users st' = db_users st
            /\ o = user_out u.
Proof.
  unfold user. destruct (negb (isAuth req)); [discriminate |].
  unfold bind, User_findById, log, get_state, ret, bind. simpl.
  destruct (userId req) as [id |]; [| discriminate].
  destruct (List.find _ (db_users st)) as [u |] eqn:Hfind; [| discriminate].
  intros [= <- <-]. exists u. apply find_some in Hfind as [Hin _]. auto.
Qed.

(** C1, as the code has it: the object returned by a successful createUser
    or user call is the stored document with its identifier rendered as a
    string; its password property is the stored hash (for createUser, the
    hash just computed), and password is a field of the User type, so a
    caller who selects it receives the hash. *)
Theorem user_object_carries_password_hash
    {Vd : Validator} {Bc : Bcrypt} {Rt : Runtime}
    (userInput : option UserInputData) (req : Request) (st st' : State)
    (o : Obj) :
  createUser userInput req st = (Ok o, st') \/ user req st = (Ok o, st') ->
  exists u,
    In u (db_users st')
    /\ o = user_out u
    /\ obj_get "password" o = Some (VStr (User.password u))
    /\ select_fields User_fields ["password"] o
       = [("password", Some (VStr (User.password u)))]
    /\ (createUser userInput req st = (Ok o, st') ->
        exists input,
          userInput = Some input
          /\ User.password u = bcrypt_hash (ui_password input) 12).
Proof.
  intros [Hcreate | Hquery].
  - destruct (createUser_success_inv _ _ _ _ _ Hcreate)
      as (input & u & Hin & Husers & Hmail & Hpw & ->).
    exists u. repeat split.
    + rewrite Husers. apply in_or_app. right. now left.
    + intros _. exists input. auto.
  - destruct (user_success_inv _ _ _ _ Hquery) as (u & Hin & Husers & ->).
    exists u. repeat split.
    + now rewrite Husers.
    + intros Hcreate.
      destruct (createUser_success_inv _ _ _ _ _ Hcreate)
        as (input & u' & Hin' & Husers' & Hmail & Hpw & Hout).
      exists input. split; [exact Hin' |].
      assert (Hp : obj_get "password" (user_out u)
                   = obj_get "password" (user_out u')) by now rewrite Hout.
      rewrite !user_out_password in Hp. injection Hp as ->. exact Hpw.
Qed.

Lemma user_object_carries_password_hash_witness :
  let run :=
    createUser (Vd := Sample.validator) (Bc := Sample.bcrypt)
      (Rt := Sample.runtime)
      (Some {| ui_email := "carol@example.com"; ui_name := "Carol";
               ui_password := "looking glass" |})
      Sample.anonymous Sample.store in
  exists o u,
    fst run = Ok o
    /\ In u (db_users (snd run))
    /\ o = user_out u
    /\ obj_get "password" o = Some (VStr (User.password u)).
Proof.
  intros run.
  destruct run as [[o | e] st'] eqn:Hrun; [| vm_compute in Hrun; discriminate].
  destruct (user_object_carries_password_hash
              (Vd := Sample.validator) (Bc := Sample.bcrypt)
              (Rt := Sample.runtime) _ _ _ _ _ (or_introl Hrun))
    as (u & Hin & Hout & Hpw & _).
  exists o, u. auto.
Defined.

(** C1 as stated fails: a registration on the sample store succeeds and
    the returned object has a password property, holding the hash that was
    stored; the user query of a registered caller returns the stored hash
    as well. *)
Lemma user_object_counterexample :
  (exists o st',
     createUser (Vd := Sample.validator) (Bc := Sample.bcrypt)
       (Rt := Sample.runtime)
       (Some {| ui_email := "carol@example.com"; ui_name := "Carol";
                ui_password := "looking glass" |})
       Sample.anonymous Sample.store = (Ok o, st')
     /\ obj_get "password" o = Some (VStr "$2a$12$looking glass")
     /\ user_by_email "carol@example.com" st'
        = Some {| User._id := Oid "n"; User.email := "carol@example.com";
                  User.password := "$2a$12$looking glass";
                  User.name := "Carol"; User.status := "I am new!";
                  User.posts := [] |})
  /\ (exists o st',
        user (Sample.as_user "a1") Sample.store = (Ok o, st')
        /\ obj_get "password" o = Some (VStr (User.password Sample.alice))).
Proof.
  split; eexists; eexists; (split; [vm_compute; reflexivity |]);
    repeat split; reflexivity.
Qed.

(** ** The guard *)

Lemma truthy_string_false (s : string) : s = "" -> truthy_string s = false.
Proof. now intros ->. Qed.

Lemma truthy_string_true (s : string) : s <> "" -> truthy_string s = true.
Proof.
  intros Hne. unfold truthy_string. apply negb_true_iff.
  now apply String.eqb_neq.
Qed.

Lemma auth_no_identity {Jw : Jwt} {R : Type} (authHeader : option string)
    (now : Z) (req : Request) :
  no_identity authHeader now ->
  auth (R := R) authHeader now req = Next (with_auth req false (userId req)).
Proof.
  unfold no_identity, auth. destruct authHeader as [h |]; [| reflexivity].
  destruct (truthy_string h) eqn:Htruthy; simpl; [| reflexivity].
  intros [-> | [-> | ->]]; [discriminate | reflexivity | reflexivity].
Qed.

Lemma auth_identifies {Jw : Jwt} {R : Type} (authHeader : option string)
    (now : Z) (req : Request) (d : TokenPayload) :
  identifies authHeader now d ->
  auth (R := R) authHeader now req
  = Next (with_auth req true (Some (tp_userId d))).
Proof.
  intros (h & -> & Hne & Hverify). unfold auth.
  rewrite (truthy_string_true _ Hne), Hverify. reflexivity.
Qed.

Lemma dispatch_unauthenticated
    {Vd : Validator} {Bc : Bcrypt} {Jw : Jwt} {Rt : Runtime} {Mg : Mongo}
    (op : Operation) (req : Request) (st : State) :
  isAuth req = false ->
  is_public op = false ->
  dispatch op req st = (Throw notAuthenticated, st).
Proof.
  intros Hanon Hprivate.
  destruct op; try discriminate Hprivate; simpl;
    unfold bind, posts, post, user, createPost, updatePost, deletePost,
      updateStatus;
    rewrite Hanon; reflexivity.
Qed.

(** C7: when the Authorization header is absent or its bearer token fails
    verification, the guard raises nothing: it hands the request on with
    isAuth false.  Every operation other than login and createUser then
    throws the error of code 401 in the state it was given (no validation
    message, no store call in the trace), and the caller receives the
    envelope of status 401. *)
Theorem unauthenticated_calls_are_rejected
    {Vd : Validator} {Bc : Bcrypt} {Jw : Jwt} {Rt : Runtime} {Mg : Mongo}
    (authHeader : option string) (op : Operation) (st : State) :
  no_identity authHeader (clock st) ->
  is_public op = false ->
  (forall (R : Type) (req0 : Request),
     exists req,
       auth (R := R) authHeader (clock st) req0 = Next req
       /\ isAuth req = false)
  /\ (forall req, isAuth req = false ->
        dispatch op req st = (Throw notAuthenticated, st))
  /\ code notAuthenticated = Some 401
  /\ graphql_request authHeader op st
     = (inr (Enveloped {| env_message := "Not authenticated!";
                          env_status := 401; env_data := None |}), st).
Proof.
  intros Hnone Hprivate. split; [| split; [| split]].
  - intros R req0. exists (with_auth req0 false (userId req0)).
    split; [| reflexivity]. apply auth_no_identity. exact Hnone.
  - intros req Hanon. apply dispatch_unauthenticated; assumption.
  - reflexivity.
  - unfold graphql_request. rewrite (auth_no_identity _ _ _ Hnone).
    unfold graphql.
    rewrite dispatch_unauthenticated;
      [reflexivity | reflexivity | exact Hprivate].
Qed.

Lemma unauthenticated_calls_are_rejected_witness :
  graphql_request (Vd := Sample.validator) (Bc := Sample.bcrypt)
    (Jw := Sample.jwt) (Rt := Sample.runtime) (Mg := Sample.mongo)
    (Some "Bearer forged")
    (UpdatePost "p1" (Some {| pi_title := ""; pi_content := "";
                              pi_imageUrl := "" |}))
    Sample.store
  = (inr (Enveloped {| env_message := "Not authenticated!";
                       env_status := 401; env_data := None |}),
     Sample.store).
Proof.
  apply (unauthenticated_calls_are_rejected
           (Vd := Sample.validator) (Bc := Sample.bcrypt)
           (Jw := Sample.jwt) (Rt := Sample.runtime) (Mg := Sample.mongo)).
  - right. left. reflexivity.
  - reflexivity.
Defined.

(** ** The upload route *)

(** C10: an upload request that carries a verified token and no accepted
    file (none was sent, or its MIME type is not png, jpg or jpeg) is
    answered with status 200 and the message 'No file provided!'; the
    state is the one before the request, whatever the oldPath field holds:
    no file was written and none was unlinked. *)
Theorem upload_without_file_keeps_old_image
    {Jw : Jwt} {Rt : Runtime}
    (authHeader : option string) (part : option Upload) (old : option string)
    (st : State) (d : TokenPayload) :
  identifies authHeader (clock st) d ->
  no_file_accepted part ->
  upload_request authHeader part old st
  = ({| res_status := 200;
        res_json := [ ("message", VStr "No file provided!") ] |}, st).
Proof.
  intros Hid Hnofile. unfold upload_request.
  assert (Hmulter : multer_single part (incoming old) st
                    = (Ok (incoming old), st)).
  { unfold multer_single. destruct part as [f |]; [| reflexivity].
    simpl in Hnofile. now rewrite Hnofile. }
  rewrite Hmulter, (auth_identifies _ _ _ _ Hid). reflexivity.
Qed.

Lemma upload_without_file_keeps_old_image_witness :
  upload_request (Jw := Sample.jwt) (Rt := Sample.runtime)
    (Some "Bearer jwt.a1")
    (Some {| originalname := "notes.pdf"; mimetype := "application/pdf" |})
    (Some "images/one.png") Sample.store
  = ({| res_status := 200;
        res_json := [ ("message", VStr "No file provided!") ] |},
     Sample.store).
Proof.
  apply (upload_without_file_keeps_old_image
           (Jw := Sample.jwt) (Rt := Sample.runtime) _ _ _ _
           {| tp_userId := "a1"; tp_email := "" |}).
  - exists "Bearer jwt.a1". repeat split. discriminate.
  - reflexivity.
Defined.

(** ** Ownership *)

Lemma user_by_id_traced id evs st :
  user_by_id id (traced evs st) = user_by_id id st.
Proof. reflexivity. Qed.

Lemma post_by_id_traced {Rt : Runtime} id evs st :
  post_by_id id (traced evs st) = post_by_id id st.
Proof. reflexivity. Qed.

Lemma post_by_id_In {Rt : Runtime} id st p :
  post_by_id id st = Some p -> In p (db_posts st).
Proof. unfold post_by_id. intros Hf. now apply find_some in Hf. Qed.

Lemma creators_exist_resolves st p :
  creators_exist st = true -> In p (db_posts st) ->
  exists u, user_by_id (toString (Post.creator p)) st = Some u.
Proof.
  unfold creators_exist. rewrite forallb_forall. intros Hall Hin.
  specialize (Hall p Hin).
  destruct (user_by_id _ st) as [u |]; [now exists u | discriminate].
Qed.

Lemma CastError_surfaced model value :
  surfaced (CastError model value)
  = Enveloped {| env_message := message (CastError model value);
                 env_status := 500; env_data := None |}.
Proof. reflexivity. Qed.

Lemma post_cast {Rt : Runtime} id req st :
  isAuth req = true -> isValid id = false ->
  post id req st = (Throw (CastError "Post" id), st).
Proof.
  intros Hauth Hv. unfold post. rewrite Hauth. simpl.
  unfold bind at 1. now rewrite Post_findById_cast.
Qed.



Lemma updatePost_missing
    {Rt : Runtime} id postInput req st :
  isAuth req = true -> isValid id = true -> post_by_id id st = None ->
  updatePost id postInput req st
  = (Throw {| message := "No post found!"; code := Some 404; data := None |},
     traced [PostFindById id] st).
Proof.
  intros Hauth Hv Hmiss. unfold updatePost. rewrite Hauth. simpl.
  unfold bind at 1. rewrite Post_findById_run, Hmiss by exact Hv.
  reflexivity.
Qed.

Lemma deletePost_missing
    {Rt : Runtime} id req st :
  isAuth req = true -> isValid id = true -> post_by_id id st = None ->
  deletePost id req st
  = (Throw {| message := "No post found!"; code := Some 404; data := None |},
     traced [PostFindById id] st).
Proof.
  intros Hauth Hv Hmiss. unfold deletePost. rewrite Hauth. simpl.
  unfold bind at 1. rewrite Post_findById_run, Hmiss by exact Hv.
  reflexivity.
Qed.



Lemma issued_isValid {Rt : Runtime} id : issued id -> isValid id = true.
Proof. intros [n ->]. apply isValid_new_ObjectId. Qed.




(** ** Saving a loaded document *)

Section Replace.
Context {A : Type} (key : A -> string).

(** The collection after [save] of a loaded document. *)
Let replaced (new : A) (l : list A) : list A :=
  map (fun a => if String.eqb (key a) (key new) then new else a) l.

Lemma find_replaced_same (new old : A) (l : list A) :
  List.find (fun a => String.eqb (key a) (key new)) l = Some old ->
  List.find (fun a => String.eqb (key a) (key new)) (replaced new l)
  = Some new.
Proof.
  unfold replaced. induction l as [| a l IH]; simpl; [discriminate |].
  destruct (String.eqb (key a) (key new)) eqn:Hkey; simpl.
  - intros _. now rewrite String.eqb_refl.
  - rewrite Hkey. exact IH.
Qed.

Lemma find_replaced_other (id : string) (new : A) (l : list A) :
  id <> key new ->
  List.find (fun a => String.eqb (key a) id) (replaced new l)
  = List.find (fun a => String.eqb (key a) id) l.
Proof.
  intros Hother. unfold replaced. induction l as [| a l IH]; simpl; [easy |].
  destruct (String.eqb (key a) (key new)) eqn:Hkey; simpl.
  - apply String.eqb_eq in Hkey.
    assert (Hnew : String.eqb (key new) id = false)
      by (apply String.eqb_neq; congruence).
    rewrite Hkey, Hnew. exact IH.
  - now rewrite IH.
Qed.

End Replace.

Lemma Post_save_loaded_inv (post r : Post.t) (st st' : State) :
  Post_save false post st = (Ok r, st') ->
  r = stamp false (clock st)
        (List.find (fun p => ObjectId_eqb (Post._id p) (Post._id post))
                   (db_posts st)) post
  /\ db_posts st'
     = map (fun p => if ObjectId_eqb (Post._id p) (Post._id post)
                     then r else p) (db_posts st)
  /\ db_users st' = db_users st
  /\ fs_files st' = fs_files st
  /\ trace st' = trace st ++ [PostSave (Post._id post)].
Proof.
  unfold Post_save. destruct (Post.valid post); simpl; [| discriminate].
  run_async. intros [= <- <-]. simpl. auto.
Qed.

Lemma stamp_loaded_fields now stored (post : Post.t) :
  let r := stamp false now stored post in
  Post._id r = Post._id post /\ Post.title r = Post.title post
  /\ Post.content r = Post.content post
  /\ Post.imageUrl r = Post.imageUrl post
  /\ Post.creator r = Post.creator post
  /\ Post.createdAt r = Post.createdAt post.
Proof.
  unfold stamp. destruct stored as [old |]; [| now simpl].
  destruct (isModified old post); now simpl.
Qed.

(** ** Updating a post *)

(** C6: after a successful updatePost the stored post has the supplied
    title and content; its image reference is the supplied one unless that
    is the sentinel 'undefined', in which case it is the one stored before.
    Identifier, creator and creation time are kept, the other posts and
    the users are as they were, and the returned object shows the same
    three fields. *)
Theorem updatePost_replaces_title_content_and_image
    {Rt : Runtime}
    (id : string) (postInput : option PostInputData) (req : Request)
    (st st' : State) (out : Obj) :
  updatePost id postInput req st = (Ok out, st') ->
  exists input old new,
    postInput = Some input
    /\ post_by_id id st = Some old
    /\ post_by_id id st' = Some new
    /\ Post.title new = pi_title input
    /\ Post.content new = pi_content input
    /\ Post.imageUrl new
       = (if String.eqb (pi_imageUrl input) unchanged_image
          then Post.imageUrl old else pi_imageUrl input)
    /\ (Post._id new = Post._id old
        /\ Post.creator new = Post.creator old
        /\ Post.createdAt new = Post.createdAt old)
    /\ (forall id', id' <> id -> post_by_id id' st' = post_by_id id' st)
    /\ db_users st' = db_users st
    /\ (obj_get "title" out = Some (VStr (Post.title new))
        /\ obj_get "content" out = Some (VStr (Post.content new))
        /\ obj_get "imageUrl" out = Some (VStr (Post.imageUrl new))).
Proof.
  unfold updatePost. destruct (negb (isAuth req)); [discriminate |].
  unfold bind at 1.
  destruct (isValid id) eqn:Hv;
    [| rewrite (Post_findById_cast _ _ Hv); discriminate].
  rewrite (Post_findById_run _ _ Hv).
  destruct (post_by_id id st) as [old |] eqn:Hold; [| discriminate].
  unfold bind at 1. rewrite populate_run, user_by_id_traced. simpl.
  destruct (user_by_id _ st) as [creator |]; [| discriminate].
  destruct (userId req) as [caller |]; [| discriminate].
  destruct (negb (String.eqb _ caller)); [discriminate |].
  destruct postInput as [input |]; [| discriminate].
  destruct (0 <? length (post_errors input))%nat; [discriminate |].
  unfold bind at 1.
  destruct (Post_save false _ _) as [[r | e] st1] eqn:Hsave; [| discriminate].
  unfold ret. intros [= <- <-].
  apply Post_save_loaded_inv in Hsave
    as (Hr & Hposts & Husers & _ & _). simpl in Hposts, Husers.
  match type of Hr with r = stamp _ ?now ?stored ?post =>
    destruct (stamp_loaded_fields now stored post)
      as (Hid & Htitle & Hcontent & Himage & Hcreator & Hcreated)
  end.
  rewrite <- Hr in Hid, Htitle, Hcontent, Himage, Hcreator, Hcreated.
  simpl in Hid, Htitle, Hcontent, Himage, Hcreator, Hcreated.
  pose proof (post_by_id_has_id _ _ _ Hold) as Hkey.
  pose proof Hold as Hfind. rewrite (post_by_id_valid _ _ Hv) in Hfind.
  exists input, old, r. repeat split; auto.
  - rewrite (post_by_id_valid _ _ Hv), Hposts.
    rewrite <- Hkey, <- Hid.
    apply (find_replaced_same (fun p => toString (Post._id p)) r old).
    rewrite Hid, Hkey. exact Hfind.
  - rewrite Himage. now destruct (String.eqb (pi_imageUrl input) _).
  - intros id' Hother. destruct (isValid id') eqn:Hv';
      [| now rewrite !post_by_id_invalid].
    rewrite !post_by_id_valid by exact Hv'. rewrite Hposts, <- Hid.
    apply (find_replaced_other (fun p => toString (Post._id p)) id' r).
    rewrite Hid, Hkey. exact Hother.
Qed.

Lemma updatePost_replaces_title_content_and_image_witness :
  let run :=
    updatePost (Rt := Sample.runtime) "p1"
      (Some {| pi_title := "Edited title"; pi_content := "Edited content";
               pi_imageUrl := "undefined" |})
      (Sample.as_user "a1") Sample.store in
  exists new,
    post_by_id (Rt := Sample.runtime) "p1" (snd run) = Some new
    /\ Post.title new = "Edited title"
    /\ Post.content new = "Edited content"
    /\ Post.imageUrl new = "images/one.png".
Proof.
  intros run.
  destruct run as [[out | e] st'] eqn:Hrun;
    [| vm_compute in Hrun; discriminate].
  destruct (updatePost_replaces_title_content_and_image
              (Rt := Sample.runtime) _ _ _ _ _ _ Hrun)
    as (input & old & new & Hinput & Hold & Hnew & Htitle & Hcontent
        & Himage & _).
  injection Hinput as <-. vm_compute in Hold. injection Hold as <-.
  exists new. simpl. auto.
Defined.

(** ** Deleting a post *)

(** The calls a successful deletePost issues, in order. *)
Lemma deletePost_success_inv
    {Rt : Runtime} (id : string) (req : Request) (st st' : State) (b : bool) :
  deletePost id req st = (Ok b, st') ->
  exists p u,
    b = true
    /\ isAuth req = true
    /\ post_by_id id st = Some p
    /\ userId req = Some (toString (Post.creator p))
    /\ user_by_id (toString (Post.creator p)) st = Some u
    /\ User.valid u = true
    /\ trace st'
       = trace st
         ++ [ PostFindById id;
              FsUnlink (path_join [__dirname; ".."; Post.imageUrl p]);
              PostFindByIdAndRemove id;
              UserFindById (Some (toString (Post.creator p)));
              UserSave (User._id u) ]
    /\ fs_files st'
       = fs_files st ∖ {[ path_join [__dirname; ".."; Post.imageUrl p] ]}
    /\ db_posts st' = remove_by_id id (db_posts st)
    /\ db_users st'
       = map (fun x =>
                if ObjectId_eqb (User._id x) (User._id u)
                then pulled id u else x)
             (db_users st).
Proof.
  unfold deletePost. destruct (isAuth req); [| discriminate]. simpl.
  unfold bind at 1.
  destruct (isValid id) eqn:Hv;
    [| rewrite (Post_findById_cast _ _ Hv); discriminate].
  rewrite (Post_findById_run _ _ Hv).
  destruct (post_by_id id st) as [p |] eqn:Hpost; [| discriminate].
  destruct (userId req) as [caller |]; [| discriminate].
  destruct (String.eqb _ caller) eqn:Hown; [| discriminate]. simpl.
  apply String.eqb_eq in Hown. subst caller.
  unfold bind, clearImage, fs_unlink, Post_findByIdAndRemove, User_findById,
    bind, log, get_state, set_files, set_posts, ret. rewrite Hv. simpl.
  fold (user_by_id (toString (Post.creator p)) st).
  destruct (user_by_id _ st) as [u |] eqn:Huser; [| discriminate].
  unfold User_save. simpl.
  destruct (negb (User.valid _)) eqn:Hvalid; [discriminate |].
  apply negb_false_iff in Hvalid.
  run_async. intros [= <- <-]. simpl.
  exists p, u. repeat split; auto.
  now rewrite <- !app_assoc.
Qed.

Lemma deletePost_succeeds
    {Rt : Runtime} (id : string) (req : Request) (st : State)
    (p : Post.t) (u : User.t) :
  isAuth req = true ->
  post_by_id id st = Some p ->
  userId req = Some (toString (Post.creator p)) ->
  user_by_id (toString (Post.creator p)) st = Some u ->
  User.valid u = true ->
  fst (deletePost id req st) = Ok true.
Proof.
  intros Hauth Hpost Huid Huser Hvalid.
  unfold deletePost. rewrite Hauth. simpl.
  unfold bind at 1. rewrite (Post_findById_found _ _ _ Hpost), Huid.
  rewrite String.eqb_refl. simpl.
  unfold bind, clearImage, fs_unlink, Post_findByIdAndRemove, User_findById,
    bind, log, get_state, set_files, set_posts, ret.
  rewrite (post_by_id_isValid _ _ _ Hpost). simpl.
  fold (user_by_id (toString (Post.creator p)) st). rewrite Huser.
  unfold User_save. simpl.
  change (User.valid _) with (User.valid u). rewrite Hvalid. reflexivity.
Qed.




(** ** Pagination *)

Lemma insert_desc_perm (p : Post.t) (l : list Post.t) :
  Permutation (insert_desc p l) (p :: l).
Proof.
  induction l as [| q l IH]; simpl; [reflexivity |].
  destruct (Post.createdAt q <=? Post.createdAt p); [reflexivity |].
  rewrite IH. apply perm_swap.
Qed.

Lemma sort_desc_perm (l : list Post.t) : Permutation (sort_desc l) l.
Proof.
  induction l as [| p l IH]; simpl; [reflexivity |].
  rewrite insert_desc_perm. now constructor.
Qed.

Lemma insert_desc_hd (p q : Post.t) (l : list Post.t) :
  newer_first q p -> HdRel newer_first q l ->
  HdRel newer_first q (insert_desc p l).
Proof.
  intros Hqp Hhd. destruct l as [| r l]; simpl; [now constructor |].
  destruct (Post.createdAt r <=? Post.createdAt p); constructor; auto.
  now inversion Hhd.
Qed.

Lemma insert_desc_sorted (p : Post.t) (l : list Post.t) :
  Sorted newer_first l -> Sorted newer_first (insert_desc p l).
Proof.
  induction l as [| q l IH]; simpl; intros Hsorted.
  - repeat constructor.
  - destruct (Post.createdAt q <=? Post.createdAt p) eqn:Hcmp.
    + constructor; [exact Hsorted |]. constructor.
      unfold newer_first. apply Z.leb_le in Hcmp. exact Hcmp.
    + inversion Hsorted as [| q' l' Hl Hhd]; subst.
      constructor; [now apply IH |].
      apply insert_desc_hd; [| exact Hhd].
      unfold newer_first. apply Z.leb_gt in Hcmp. lia.
Qed.

(** The sort is stable: the posts created at one time come out in the
    order the collection has them. *)
Lemma insert_desc_stable (t : Z) (p : Post.t) (l : list Post.t) :
  List.filter (fun q => Post.createdAt q =? t) (insert_desc p l)
  = List.filter (fun q => Post.createdAt q =? t) (p :: l).
Proof.
  induction l as [| q l IH]; [reflexivity |].
  cbn [insert_desc].
  destruct (Post.createdAt q <=? Post.createdAt p) eqn:Hcmp; [reflexivity |].
  apply Z.leb_gt in Hcmp.
  cbn [List.filter] in *. rewrite IH.
  destruct (Post.createdAt p =? t) eqn:Hp; [| reflexivity].
  apply Z.eqb_eq in Hp.
  assert (Hq : (Post.createdAt q =? t) = false) by (apply Z.eqb_neq; lia).
  now rewrite Hq.
Qed.

Lemma sort_desc_stable (t : Z) (l : list Post.t) :
  List.filter (fun q => Post.createdAt q =? t) (sort_desc l)
  = List.filter (fun q => Post.createdAt q =? t) l.
Proof.
  induction l as [| p l IH]; [reflexivity |].
  cbn [sort_desc fold_right]. fold (sort_desc l).
  rewrite insert_desc_stable. cbn [List.filter]. now rewrite IH.
Qed.

Lemma sort_desc_sorted (l : list Post.t) : Sorted newer_first (sort_desc l).
Proof.
  induction l as [| p l IH]; simpl; [constructor |].
  now apply insert_desc_sorted.
Qed.

Lemma newer_first_trans : Relations_1.Transitive newer_first.
Proof. unfold newer_first. intros a b c Hab Hbc. lia. Qed.

Lemma sort_desc_strongly_sorted (l : list Post.t) :
  StronglySorted newer_first (sort_desc l).
Proof.
  apply Sorted_StronglySorted; [apply newer_first_trans |].
  apply sort_desc_sorted.
Qed.

Lemma populate_all_run (ps : list Post.t) (st : State) :
  populate_all ps st
  = (Ok (map (fun p => (p, user_by_id (toString (Post.creator p)) st)) ps),
     traced (map (fun p => UserFindById (Some (toString (Post.creator p))))
                 ps) st).
Proof.
  revert st. induction ps as [| p ps IH]; intros st; simpl.
  - unfold ret. now rewrite traced_nil.
  - unfold bind at 1. rewrite populate_run.
    unfold bind at 1. rewrite IH. unfold ret.
    now rewrite traced_traced.
Qed.

Lemma posts_run {Rt : Runtime} {Mg : Mongo} (n : Z) (req : Request)
    (st : State) :
  isAuth req = true -> 1 <= n ->
  let shown := page_slice n (sort_desc (db_posts st)) in
  posts (Some n) req st
  = (Ok {| pd_posts := map (rendered st) shown;
           totalPosts := Z.of_nat (length (db_posts st)) |},
     traced ([PostCountDocuments; PostFind ((n - 1) * 2) 2]
             ++ map (fun p => UserFindById (Some (toString (Post.creator p))))
                    shown) st).
Proof.
  intros Hauth Hn shown. unfold posts. rewrite Hauth. simpl.
  assert (Hnz : (n =? 0) = false) by (apply Z.eqb_neq; lia). rewrite Hnz.
  unfold bind at 1, Post_countDocuments, bind, log, get_state, ret. simpl.
  unfold Post_find_page, bind, log, get_state, ret, perPage. simpl.
  assert (Hskip : ((n - 1) * 2 <? 0) = false) by (apply Z.ltb_ge; lia).
  rewrite Hskip. rewrite populate_all_run. simpl.
  rewrite map_map. unfold traced. simpl. rewrite <- !app_assoc. reflexivity.
Qed.

Lemma page_slice_beyond (n : Z) (l : list Post.t) :
  1 <= n -> Z.of_nat (length l) <= (n - 1) * 2 -> page_slice n l = [].
Proof.
  intros Hn Hlen. unfold page_slice.
  rewrite drop_ge by lia. reflexivity.
Qed.

Lemma page_slice_length (n : Z) (l : list Post.t) :
  (length (page_slice n l) <= 2)%nat.
Proof. unfold page_slice. rewrite length_take. lia. Qed.

Lemma posts_query_issued {Rt : Runtime} {Mg : Mongo} (n : Z) (req : Request)
    (st : State) :
  isAuth req = true -> n <> 0 ->
  (exists later,
     trace (snd (posts (Some n) req st))
     = trace st ++ [PostCountDocuments; PostFind ((n - 1) * 2) 2] ++ later)
  /\ db_posts (snd (posts (Some n) req st)) = db_posts st
  /\ db_users (snd (posts (Some n) req st)) = db_users st.
Proof.
  intros Hauth Hn. unfold posts. rewrite Hauth. simpl.
  apply Z.eqb_neq in Hn. rewrite Hn.
  unfold bind at 1, Post_countDocuments, bind, log, get_state, ret. simpl.
  unfold Post_find_page, bind, log, get_state, ret, perPage. simpl.
  destruct ((n - 1) * 2 <? 0).
  - destruct (find_negative_skip _ _ _) as [found | e]; simpl.
    + unfold bind. rewrite populate_all_run. simpl.
      split; [| split; reflexivity].
      eexists. rewrite <- !app_assoc. reflexivity.
    + split; [| split; reflexivity].
      exists []. now rewrite <- !app_assoc.
  - unfold bind. rewrite populate_all_run. simpl.
    split; [| split; reflexivity].
    eexists. rewrite <- !app_assoc. reflexivity.
Qed.

Lemma posts_negative_page {Rt : Runtime} {Mg : Mongo} (m : Z)
    (req : Request) (st : State) (e : JsError) :
  isAuth req = true -> m < 0 ->
  find_negative_skip ((m - 1) * 2) 2 (db_posts st) = Throw e ->
  posts (Some m) req st
  = (Throw e, traced [PostCountDocuments; PostFind ((m - 1) * 2) 2] st).
Proof.
  intros Hauth Hm Hreject. unfold posts. rewrite Hauth. simpl.
  assert (Hnz : (m =? 0) = false) by (apply Z.eqb_neq; lia). rewrite Hnz.
  unfold bind at 1, Post_countDocuments, bind, log, get_state, ret. simpl.
  unfold Post_find_page, bind, log, get_state, ret, perPage. simpl.
  assert (Hskip : ((m - 1) * 2 <? 0) = true) by (apply Z.ltb_lt; lia).
  rewrite Hskip, Hreject. unfold throw, traced. simpl.
  now rewrite <- !app_assoc.
Qed.

(** C4, as stated, fails on a negative page: for page -1 the query is
    issued with skip -4, which the store rejects, so an authenticated
    caller gets the store's error and no page, where the claim promises the
    posts after the first (n-1)*2. *)
Lemma posts_negative_page_counterexample :
  let run := posts (Rt := Sample.runtime) (Mg := Sample.mongo) (Some (-1))
               (Sample.as_user "a1") Sample.store in
  fst run = Throw (Error "Skip value must be non-negative")
  /\ trace (snd run) = [PostCountDocuments; PostFind (-4) 2]
  /\ (forall d, fst run <> Ok d).
Proof. repeat split. intros d. discriminate. Qed.

(** C4, for the page arguments the code serves: for an authenticated
    caller, the posts query takes page n = 1 when the argument is absent
    or zero and the argument itself otherwise, counts the whole collection
    and asks the store for the posts sorted by creation time, newest
    first, with skip (n-1)*2 and limit 2; it changes neither collection.
    When the argument is absent, zero or positive the call succeeds with
    the posts that follow the first (n-1)*2 of the sorted collection, two
    at most, and totalPosts is the size of the whole collection; when
    (n-1)*2 reaches that size the list is empty and the total is still the
    full count.  A negative argument is not checked: the query goes out
    with a negative skip, and when the store rejects it the call fails
    with the store's error. *)
Theorem posts_returns_the_requested_page
    {Rt : Runtime} {Mg : Mongo}
    (page : option Z) (req : Request) (st : State) :
  isAuth req = true ->
  let sorted := sort_desc (db_posts st) in
  let total := Z.of_nat (length (db_posts st)) in
  let n := match page with
           | None | Some 0 => 1
           | Some m => m
           end in
  let query := [PostCountDocuments; PostFind ((n - 1) * 2) 2] in
  Permutation sorted (db_posts st)
  /\ StronglySorted newer_first sorted
  /\ (exists later,
        trace (snd (posts page req st)) = trace st ++ query ++ later)
  /\ db_posts (snd (posts page req st)) = db_posts st
  /\ db_users (snd (posts page req st)) = db_users st
  /\ (match page with
      | Some m => 0 <= m
      | None => True
      end ->
      fst (posts page req st)
      = Ok {| pd_posts :=
                map (rendered st)
                    (take 2 (drop (Z.to_nat ((n - 1) * 2)) sorted));
              totalPosts := total |}
      /\ (length (take 2 (drop (Z.to_nat ((n - 1) * 2)) sorted)) <= 2)%nat
      /\ (total <= (n - 1) * 2 ->
          fst (posts page req st)
          = Ok {| pd_posts := []; totalPosts := total |}))
  /\ (forall e,
        match page with
        | Some m => m < 0
        | None => False
        end ->
        find_negative_skip ((n - 1) * 2) 2 (db_posts st) = Throw e ->
        posts page req st = (Throw e, traced query st)).
Proof.
  intros Hauth sorted total n query.
  assert (Hnz : n <> 0).
  { subst n. destruct page as [[| m | m] |]; lia. }
  assert (Hsame : posts page req st = posts (Some n) req st).
  { subst n. destruct page as [[| m | m] |]; try reflexivity.
    all: unfold posts; now rewrite Hauth. }
  split; [apply sort_desc_perm |].
  split; [apply sort_desc_strongly_sorted |].
  rewrite Hsame.
  destruct (posts_query_issued n req st Hauth Hnz) as (Hq & Hposts & Husers).
  split; [exact Hq |]. split; [exact Hposts |]. split; [exact Husers |].
  split.
  - intros Hpage.
    assert (Hn : 1 <= n).
    { subst n. destruct page as [[| m | m] |]; lia. }
    rewrite (posts_run n req st Hauth Hn). simpl.
    split; [reflexivity |].
    split; [apply page_slice_length |].
    intros Hbeyond. fold (page_slice n sorted).
    rewrite page_slice_beyond; [reflexivity | exact Hn |].
    subst sorted total. rewrite (Permutation_length (sort_desc_perm _)).
    exact Hbeyond.
  - intros e Hneg Hreject.
    assert (Hn : n < 0).
    { subst n. destruct page as [[| m | m] |]; (lia || easy). }
    now apply posts_negative_page.
Qed.

Lemma posts_returns_the_requested_page_witness :
  fst (posts (Rt := Sample.runtime) (Mg := Sample.mongo) None
         (Sample.as_user "a1") Sample.store)
  = Ok {| pd_posts := [ rendered (Rt := Sample.runtime) Sample.store
                          Sample.post2;
                        rendered (Rt := Sample.runtime) Sample.store
                          Sample.post3 ];
          totalPosts := 3 |}
  /\ fst (posts (Rt := Sample.runtime) (Mg := Sample.mongo) (Some 2)
            (Sample.as_user "a1") Sample.store)
     = Ok {| pd_posts := [ rendered (Rt := Sample.runtime) Sample.store
                             Sample.post1 ];
             totalPosts := 3 |}
  /\ fst (posts (Rt := Sample.runtime) (Mg := Sample.mongo) (Some 3)
            (Sample.as_user "a1") Sample.store)
     = Ok {| pd_posts := []; totalPosts := 3 |}
  /\ fst (posts (Rt := Sample.runtime) (Mg := Sample.mongo) (Some (-2))
            (Sample.as_user "a1") Sample.store)
     = Throw (Error "Skip value must be non-negative").
Proof.
  split; [| split; [| split]].
  - destruct (posts_returns_the_requested_page
                (Rt := Sample.runtime) (Mg := Sample.mongo) None
                (Sample.as_user "a1") Sample.store eq_refl)
      as (_ & _ & _ & _ & _ & Hpage & _).
    destruct Hpage as (Hres & _); [exact I | exact Hres].
  - destruct (posts_returns_the_requested_page
                (Rt := Sample.runtime) (Mg := Sample.mongo) (Some 2)
                (Sample.as_user "a1") Sample.store eq_refl)
      as (_ & _ & _ & _ & _ & Hpage & _).
    destruct Hpage as (Hres & _); [lia | exact Hres].
  - destruct (posts_returns_the_requested_page
                (Rt := Sample.runtime) (Mg := Sample.mongo) (Some 3)
                (Sample.as_user "a1") Sample.store eq_refl)
      as (_ & _ & _ & _ & _ & Hpage & _).
    destruct Hpage as (_ & _ & Hbeyond); [lia |].
    apply Hbeyond. simpl. lia.
  - destruct (posts_returns_the_requested_page
                (Rt := Sample.runtime) (Mg := Sample.mongo) (Some (-2))
                (Sample.as_user "a1") Sample.store eq_refl)
      as (_ & _ & _ & _ & _ & _ & Hneg).
    rewrite (Hneg (Error "Skip value must be non-negative"));
      [reflexivity | simpl; lia | reflexivity].
Defined.

(** ** Referential integrity is an invariant of the store *)

Lemma creators_exist_integrity (st : State) :
  creators_exist st = true <-> integrity (db_users st) (db_posts st).
Proof.
  unfold creators_exist, integrity, user_by_id. rewrite forallb_forall.
  split; intros Hall p Hin; specialize (Hall p Hin).
  - destruct (List.find _ (db_users st)); [discriminate | discriminate].
  - destruct (List.find _ (db_users st)); [reflexivity | contradiction].
Qed.

Lemma integrity_preserved us ps us' ps' :
  integrity us ps -> users_kept us us' -> posts_from us ps ps' ->
  integrity us' ps'.
Proof.
  intros Hinv Hkept Hfrom p Hin. apply Hkept.
  destruct (Hfrom p Hin) as [Hold | Hfound]; [now apply Hinv | exact Hfound].
Qed.

Lemma users_kept_refl us : users_kept us us.
Proof. intros id Hfound. exact Hfound. Qed.

Lemma users_kept_app us u : users_kept us (us ++ [u]).
Proof.
  intros id Hfound.
  destruct (List.find _ us) as [v |] eqn:Hfind; [| contradiction].
  apply find_some in Hfind as [Hin Hid].
  intros Hnone.
  assert (Hv : In v (us ++ [u])) by (apply in_or_app; now left).
  apply (find_none _ _ Hnone v) in Hv. simpl in Hv. congruence.
Qed.

Lemma users_kept_replaced us (new : User.t) (target : ObjectId) :
  User._id new = target ->
  users_kept us
    (map (fun u => if ObjectId_eqb (User._id u) target then new else u) us).
Proof.
  intros <- id Hfound.
  destruct (String.eqb_spec id (toString (User._id new))) as [-> | Hother].
  - destruct (List.find _ us) as [old |] eqn:Hfind; [| contradiction].
    unfold has_id, ObjectId_eqb.
    rewrite (find_replaced_same (fun u => toString (User._id u)) new old us
               Hfind).
    discriminate.
  - unfold has_id, ObjectId_eqb.
    rewrite (find_replaced_other (fun u => toString (User._id u)) id new us
               Hother).
    exact Hfound.
Qed.

Lemma posts_from_refl us ps : posts_from us ps ps.
Proof. intros p Hin. now left. Qed.

Lemma posts_from_app us ps (p : Post.t) :
  List.find (fun u => has_id (toString (Post.creator p)) (User._id u)) us
  <> None ->
  posts_from us ps (ps ++ [p]).
Proof.
  intros Hcreator q Hin. apply in_app_or in Hin as [Hold | [<- | []]].
  - now left.
  - now right.
Qed.

Lemma posts_from_removed us ps id : posts_from us ps (remove_by_id id ps).
Proof.
  intros p Hin. left. induction ps as [| q ps IH]; simpl in *; [easy |].
  destruct (has_id id (Post._id q)); [now right |].
  destruct Hin as [<- | Hin]; [now left | right; now apply IH].
Qed.

Lemma posts_from_replaced us ps (new : Post.t) (sel : Post.t -> bool) :
  List.find (fun u => has_id (toString (Post.creator new)) (User._id u)) us
  <> None ->
  posts_from us ps (map (fun p => if sel p then new else p) ps).
Proof.
  intros Hcreator p Hin. apply in_map_iff in Hin as (q & Hq & Hin).
  destruct (sel q); subst; [now right | now left].
Qed.

Lemma find_has_id_self us id (u : User.t) :
  List.find (fun x => has_id id (User._id x)) us = Some u ->
  List.find (fun x => has_id (toString (User._id u)) (User._id x)) us
  <> None.
Proof.
  intros Hfind. pose proof Hfind as Hsome.
  apply find_some in Hsome as [_ Hid]. apply String.eqb_eq in Hid.
  rewrite Hid, Hfind. discriminate.
Qed.

(** One case analysis on the next test of a run. *)
Ltac branch_on H :=
  match type of H with
  | context [if ?b then _ else _] => destruct b eqn:?
  | context [match ?x with Some _ => _ | None => _ end] => destruct x eqn:?
  | context [match ?x with Ok _ => _ | Throw _ => _ end] => destruct x eqn:?
  end.

Ltac unfold_store H :=
  unfold User_findOne, User_findById, User_save, Post_findById, populate,
    Post_save, Post_findByIdAndRemove, Post_countDocuments, clearImage,
    fs_unlink, User_findById, bind, ret, throw, log, get_state, set_users,
    set_posts, set_files, bump_counter in H;
  simpl in H.

Ltac close_integrity Hinv :=
  simpl; eapply integrity_preserved; [exact Hinv | |];
  eauto using users_kept_refl, users_kept_app, users_kept_replaced,
    posts_from_refl, posts_from_app, posts_from_removed, posts_from_replaced,
    find_has_id_self.

Lemma createUser_keeps_integrity
    {Vd : Validator} {Bc : Bcrypt} {Rt : Runtime}
    userInput req st (r : Result Obj) st' :
  integrity (db_users st) (db_posts st) ->
  createUser userInput req st = (r, st') ->
  integrity (db_users st') (db_posts st').
Proof.
  intros Hinv Hrun. unfold createUser in Hrun. unfold_store Hrun.
  repeat branch_on Hrun; injection Hrun as <- <-; close_integrity Hinv.
Qed.

Lemma login_keeps_integrity
    {Bc : Bcrypt} {Jw : Jwt} email password st (r : Result AuthData) st' :
  integrity (db_users st) (db_posts st) ->
  login email password st = (r, st') ->
  integrity (db_users st') (db_posts st').
Proof.
  intros Hinv Hrun. unfold login in Hrun. unfold_store Hrun.
  repeat branch_on Hrun; injection Hrun as <- <-; close_integrity Hinv.
Qed.

Lemma createPost_keeps_integrity
    {Rt : Runtime} postInput req st (r : Result Obj) st' :
  integrity (db_users st) (db_posts st) ->
  createPost postInput req st = (r, st') ->
  integrity (db_users st') (db_posts st').
Proof.
  intros Hinv Hrun. unfold createPost in Hrun. unfold_store Hrun.
  destruct (userId req) as [uid |];
  repeat branch_on Hrun; try discriminate; injection Hrun as <- <-;
    close_integrity Hinv.
Qed.

Lemma posts_keeps_integrity
    {Rt : Runtime} {Mg : Mongo} page req st (r : Result PostData) st' :
  integrity (db_users st) (db_posts st) ->
  posts page req st = (r, st') ->
  integrity (db_users st') (db_posts st').
Proof.
  intros Hinv Hrun. unfold posts in Hrun.
  destruct (negb (isAuth req)).
  - injection Hrun as <- <-. exact Hinv.
  - unfold Post_countDocuments, Post_find_page, bind, log, get_state, ret,
      throw in Hrun.
    simpl in Hrun.
    destruct (_ <? 0).
    + destruct (find_negative_skip _ _ _).
      * rewrite populate_all_run in Hrun.
        injection Hrun as <- <-. exact Hinv.
      * injection Hrun as <- <-. exact Hinv.
    + rewrite populate_all_run in Hrun. injection Hrun as <- <-. exact Hinv.
Qed.

Lemma post_keeps_integrity
    {Rt : Runtime} id req st (r : Result Obj) st' :
  integrity (db_users st) (db_posts st) ->
  post id req st = (r, st') ->
  integrity (db_users st') (db_posts st').
Proof.
  intros Hinv Hrun. unfold post in Hrun. unfold_store Hrun.
  repeat branch_on Hrun; injection Hrun as <- <-; close_integrity Hinv.
Qed.

Lemma stamp_creator isNew now stored (p : Post.t) :
  Post.creator (stamp isNew now stored p) = Post.creator p.
Proof.
  unfold stamp. destruct isNew; [reflexivity |].
  destruct stored as [old |]; [| reflexivity].
  now destruct (isModified old p).
Qed.

Lemma updatePost_keeps_integrity
    {Rt : Runtime} id postInput req st (r : Result Obj) st' :
  integrity (db_users st) (db_posts st) ->
  updatePost id postInput req st = (r, st') ->
  integrity (db_users st') (db_posts st').
Proof.
  intros Hinv Hrun. unfold updatePost in Hrun. unfold_store Hrun.
  destruct (userId req) as [uid |];
  repeat branch_on Hrun; try discriminate; injection Hrun as <- <-;
    try (close_integrity Hinv; fail).
  all: simpl; eapply integrity_preserved;
    [exact Hinv | apply users_kept_refl | apply posts_from_replaced].
  all: simpl; apply Hinv.
  all: match goal with
       | Hfind : List.find _ ?l = Some ?t |- In ?t ?l =>
           apply find_some in Hfind as [Hin _]; exact Hin
       end.
Qed.

Lemma deletePost_keeps_integrity
    {Rt : Runtime} id req st (r : Result bool) st' :
  integrity (db_users st) (db_posts st) ->
  deletePost id req st = (r, st') ->
  integrity (db_users st') (db_posts st').
Proof.
  intros Hinv Hrun. unfold deletePost in Hrun. unfold_store Hrun.
  destruct (userId req) as [uid |];
  repeat branch_on Hrun; try discriminate; injection Hrun as <- <-;
    close_integrity Hinv.
Qed.

Lemma user_keeps_integrity req st (r : Result Obj) st' :
  integrity (db_users st) (db_posts st) ->
  user req st = (r, st') ->
  integrity (db_users st') (db_posts st').
Proof.
  intros Hinv Hrun. unfold user in Hrun. unfold_store Hrun.
  destruct (userId req) as [uid |];
  repeat branch_on Hrun; injection Hrun as <- <-; close_integrity Hinv.
Qed.

Lemma updateStatus_keeps_integrity status req st (r : Result Obj) st' :
  integrity (db_users st) (db_posts st) ->
  updateStatus status req st = (r, st') ->
  integrity (db_users st') (db_posts st').
Proof.
  intros Hinv Hrun. unfold updateStatus in Hrun. unfold_store Hrun.
  destruct (userId req) as [uid |];
  repeat branch_on Hrun; try discriminate; injection Hrun as <- <-;
    close_integrity Hinv.
Qed.

Lemma dispatch_keeps_integrity
    {Vd : Validator} {Bc : Bcrypt} {Jw : Jwt} {Rt : Runtime} {Mg : Mongo}
    op req st :
  integrity (db_users st) (db_posts st) ->
  integrity (db_users (snd (dispatch op req st)))
            (db_posts (snd (dispatch op req st))).
Proof.
  intros Hinv. destruct op; simpl; unfold bind, ret.
  - destruct (login _ _ st) as [[d | e] st'] eqn:Hrun;
      apply (login_keeps_integrity _ _ _ _ _ Hinv Hrun).
  - destruct (posts _ _ st) as [[d | e] st'] eqn:Hrun;
      apply (posts_keeps_integrity _ _ _ _ _ Hinv Hrun).
  - destruct (post _ _ st) as [[d | e] st'] eqn:Hrun;
      apply (post_keeps_integrity _ _ _ _ _ Hinv Hrun).
  - destruct (user _ st) as [[d | e] st'] eqn:Hrun;
      apply (user_keeps_integrity _ _ _ _ Hinv Hrun).
  - destruct (createUser _ _ st) as [[d | e] st'] eqn:Hrun;
      apply (createUser_keeps_integrity _ _ _ _ _ Hinv Hrun).
  - destruct (createPost _ _ st) as [[d | e] st'] eqn:Hrun;
      apply (createPost_keeps_integrity _ _ _ _ _ Hinv Hrun).
  - destruct (updatePost _ _ _ st) as [[d | e] st'] eqn:Hrun;
      apply (updatePost_keeps_integrity _ _ _ _ _ _ Hinv Hrun).
  - destruct (deletePost _ _ st) as [[d | e] st'] eqn:Hrun;
      apply (deletePost_keeps_integrity _ _ _ _ _ Hinv Hrun).
  - destruct (updateStatus _ _ st) as [[d | e] st'] eqn:Hrun;
      apply (updateStatus_keeps_integrity _ _ _ _ _ Hinv Hrun).
Qed.

Lemma multer_single_keeps_collections {Rt : Runtime} part req st r st' :
  multer_single part req st = (r, st') ->
  db_users st' = db_users st /\ db_posts st' = db_posts st.
Proof.
  unfold multer_single. destruct part as [f |]; [destruct (fileFilter f) |].
  all: run_async; intros [= <- <-]; auto.
Qed.

Lemma put_post_image_keeps_collections {Rt : Runtime} req st r st' :
  put_post_image req st = (r, st') ->
  db_users st' = db_users st /\ db_posts st' = db_posts st.
Proof.
  unfold put_post_image. destruct (negb (isAuth req)).
  - run_async. intros [= <- <-]. auto.
  - destruct (file req) as [f |]; [| run_async; intros [= <- <-]; auto].
    destruct (oldPath req) as [old |]; [destruct (truthy_string old) |].
    all: unfold clearImage, fs_unlink; run_async; intros [= <- <-]; auto.
Qed.

Lemma upload_request_keeps_collections
    {Jw : Jwt} {Rt : Runtime} authHeader part old st :
  db_users (snd (upload_request authHeader part old st)) = db_users st
  /\ db_posts (snd (upload_request authHeader part old st)) = db_posts st.
Proof.
  unfold upload_request.
  destruct (multer_single part (incoming old) st) as [[req | e] st1] eqn:Hm;
    apply multer_single_keeps_collections in Hm as [Hu Hp]; [| now simpl].
  destruct (auth authHeader (clock st1) req) as [req' | e | r];
    [| now simpl ..].
  destruct (put_post_image req' st1) as [[res | e] st2] eqn:Hput;
    apply put_post_image_keeps_collections in Hput as [Hu' Hp']; simpl;
    split; congruence.
Qed.

(** X24: the hypothesis of the ownership theorem describes every store
    the service can reach: the empty store has the creators of all its posts,
    and every GraphQL request and every upload request keeps this so,
    whether it succeeds or throws. *)
Theorem referential_integrity_is_invariant
    {Vd : Validator} {Bc : Bcrypt} {Jw : Jwt} {Rt : Runtime} {Mg : Mongo} :
  (forall now, creators_exist (empty_store now) = true)
  /\ (forall authHeader op st,
        creators_exist st = true ->
        creators_exist (snd (graphql_request authHeader op st)) = true)
  /\ (forall authHeader part old st,
        creators_exist st = true ->
        creators_exist (snd (upload_request authHeader part old st)) = true).
Proof.
  split; [reflexivity | split].
  - intros authHeader op st Hinv.
    apply creators_exist_integrity. apply creators_exist_integrity in Hinv.
    unfold graphql_request.
    destruct (auth authHeader (clock st) (incoming None))
      as [req | e | r] eqn:Ha.
    + unfold graphql.
      pose proof (dispatch_keeps_integrity op req st Hinv) as Hkeep.
      destruct (dispatch op req st) as [[d | e] st']; exact Hkeep.
    + exact Hinv.
    + exact Hinv.
  - intros authHeader part old st Hinv.
    apply creators_exist_integrity. apply creators_exist_integrity in Hinv.
    destruct (upload_request_keeps_collections authHeader part old st)
      as [-> ->].
    exact Hinv.
Qed.

(** ** The sample deployment at work *)

Example split_bearer : split_space "Bearer jwt.a1" = ["Bearer"; "jwt.a1"].
Proof. reflexivity. Qed.

Example guard_accepts_token :
  auth (Jw := Sample.jwt) (R := HttpResponse) (Some "Bearer jwt.a1") 1000
    Sample.anonymous
  = Next (Sample.as_user "a1").
Proof. reflexivity. Qed.

Example login_issues_token :
  fst (login (Bc := Sample.bcrypt) (Jw := Sample.jwt)
         "alice@example.com" "wonderland" Sample.store)
  = Ok {| token := "jwt.a1"; ad_userId := "a1" |}.
Proof. reflexivity. Qed.

Example owner_deletes_through_endpoint :
  fst (graphql_request (Vd := Sample.validator) (Bc := Sample.bcrypt)
         (Jw := Sample.jwt) (Rt := Sample.runtime) (Mg := Sample.mongo)
         (Some "Bearer jwt.b2") (DeletePost "p3") Sample.store)
  = inl (DBool true).
Proof. vm_compute. reflexivity. Qed.

Example createPost_links_post_and_creator :
  let st' :=
    snd (createPost (Rt := Sample.runtime)
           (Some {| pi_title := "Fourth post"; pi_content := "Fresh words";
                    pi_imageUrl := "images/four.png" |})
           (Sample.as_user "b2") Sample.store) in
  map Post._id (db_posts st') = [Oid "p1"; Oid "p2"; Oid "p3"; Oid "n"]
  /\ option_map User.posts (user_by_id "b2" st') = Some [Oid "p3"; Oid "n"].
Proof. vm_compute. split; reflexivity. Qed.

Example accepted_upload_replaces_old_image :
  let run :=
    upload_request (Jw := Sample.jwt) (Rt := Sample.runtime)
      (Some "Bearer jwt.a1")
      (Some {| originalname := "new.png"; mimetype := "image/png" |})
      (Some "images/one.png") Sample.store in
  fst run
  = {| res_status := 201;
       res_json :=
         [ ("message", VStr "File stored.");
           ("filePath", VStr "images/2019-03-01T10:00:00.000Z-new.png") ] |}
  /\ trace (snd run)
     = [ FsWrite "images/2019-03-01T10:00:00.000Z-new.png";
         FsUnlink "/srv/util/../images/one.png" ].
Proof. vm_compute. split; reflexivity. Qed.

(** * Further properties of the resolvers *)

(** ** Registration *)

Lemma length_nonempty (str : string) :
  (1 <= String.length str)%nat -> truthy_string str = true.
Proof. destruct str; simpl; [lia | reflexivity]. Qed.

Lemma find_app_none {A} (f : A -> bool) (l : list A) (x : A) :
  List.find f l = None -> List.find f (l ++ [x]) = List.find f [x].
Proof.
  induction l as [| a l IH]; simpl; [reflexivity |].
  destruct (f a); [discriminate | exact IH].
Qed.

Lemma find_app_some {A} (f : A -> bool) (l l' : list A) (y : A) :
  List.find f l = Some y -> List.find f (l ++ l') = Some y.
Proof.
  induction l as [| a l IH]; simpl; [discriminate |].
  destruct (f a); [easy | exact IH].
Qed.

Lemma createUser_invalid_run
    {Vd : Validator} {Bc : Bcrypt} {Rt : Runtime}
    (input : UserInputData) (req : Request) (st : State) :
  user_errors input <> [] ->
  createUser (Some input) req st
  = (Throw {| message := "Invalid input."; code := Some 422;
              data := Some (user_errors input) |}, st).
Proof.
  unfold createUser, user_errors, isEmpty, isLength, push.
  destruct (isEmail (ui_email input)); simpl;
    destruct (String.length (ui_password input)) as [| [| [| [| [| n]]]]];
    simpl; intros Hne; try reflexivity; now elim Hne.
Qed.

(** X1: the data of createUser's validation error is exact: the email
    message when, and only when, the email is malformed, then the password
    message when, and only when, the password has fewer than 5 characters
    (5 are enough).  One violation is enough for the 422, and the state is
    untouched. *)
Theorem createUser_validation_is_exact
    {Vd : Validator} {Bc : Bcrypt} {Rt : Runtime}
    (input : UserInputData) (req : Request) (st : State) :
  isEmail (ui_email input) = false
  \/ (String.length (ui_password input) < 5)%nat ->
  createUser (Some input) req st
  = (Throw {| message := "Invalid input."; code := Some 422;
              data := Some (user_errors input) |}, st)
  /\ (In {| fe_message := "E-Mail is invalid." |} (user_errors input)
      <-> isEmail (ui_email input) = false)
  /\ (In {| fe_message := "Password too short!" |} (user_errors input)
      <-> (String.length (ui_password input) < 5)%nat).
Proof.
  intros Hbad.
  assert (Hcases :
    (In {| fe_message := "E-Mail is invalid." |} (user_errors input)
     <-> isEmail (ui_email input) = false)
    /\ (In {| fe_message := "Password too short!" |} (user_errors input)
        <-> (String.length (ui_password input) < 5)%nat)).
  { unfold user_errors.
    destruct (isEmail (ui_email input));
      destruct (5 <=? String.length (ui_password input))%nat eqn:Hlen;
      [apply Nat.leb_le in Hlen | apply Nat.leb_gt in Hlen
       | apply Nat.leb_le in Hlen | apply Nat.leb_gt in Hlen];
      simpl; split; split; intros Hx;
      try discriminate; try lia; try tauto;
      try (destruct Hx as [Hx | Hx]; [discriminate Hx | tauto]);
      try (destruct Hx as [Hx | [Hx | []]]; discriminate Hx);
      auto. }
  split; [| exact Hcases].
  apply createUser_invalid_run. destruct Hcases as [Hmail Hpw].
  intros Hnil. rewrite Hnil in Hmail, Hpw. simpl in Hmail, Hpw.
  destruct Hbad as [Hb | Hb]; [now apply Hmail | now apply Hpw].
Qed.

Lemma createUser_validation_is_exact_witness :
  createUser (Vd := Sample.validator) (Bc := Sample.bcrypt)
    (Rt := Sample.runtime)
    (Some {| ui_email := "carol@example.com"; ui_name := "Carol";
             ui_password := "abcd" |})
    Sample.anonymous Sample.store
  = (Throw {| message := "Invalid input."; code := Some 422;
              data := Some [ {| fe_message := "Password too short!" |} ] |},
     Sample.store).
Proof.
  apply (createUser_validation_is_exact
           (Vd := Sample.validator) (Bc := Sample.bcrypt)
           (Rt := Sample.runtime)
           {| ui_email := "carol@example.com"; ui_name := "Carol";
              ui_password := "abcd" |}).
  right. simpl. lia.
Defined.

Lemma createUser_registers_run
    {Vd : Validator} {Bc : Bcrypt} {Rt : Runtime}
    (input : UserInputData) (req : Request) (st : State) :
  isEmail (ui_email input) = true ->
  (5 <= String.length (ui_password input))%nat ->
  user_by_email (ui_email input) st = None ->
  User.valid (registered (oid_counter st) input) = true ->
  createUser (Some input) req st
  = (Ok (user_out (registered (oid_counter st) input)),
     {| db_users := db_users st ++ [registered (oid_counter st) input];
        db_posts := db_posts st; fs_files := fs_files st;
        clock := clock st; oid_counter := S (oid_counter st);
        trace := trace st
                 ++ [ UserFindOne (ui_email input);
                      UserSave (new_ObjectId (oid_counter st)) ] |}).
Proof.
  intros Hemail Hpw Hfree Hvalid. unfold createUser.
  rewrite Hemail, (long_password_accepted _ Hpw). simpl.
  unfold bind at 1. rewrite User_findOne_run, Hfree.
  unfold bind at 1, bump_counter. simpl.
  unfold bind at 1, User_save.
  change (User.valid _) with (User.valid (registered (oid_counter st) input)).
  rewrite Hvalid. run_async. now rewrite <- app_assoc.
Qed.

(** X2: a createUser call with a well-formed, unregistered email, a
    password of at least 5 characters and a name succeeds whenever the
    hash is not empty.  It adds exactly one user, last in the collection,
    whose password is the hash and not the input, with the default status
    and no posts; the users that were there and the posts are unchanged;
    the store calls are one lookup by email and one save; the returned
    identifier is the string of the stored one. *)
Theorem createUser_registers
    {Vd : Validator} {Bc : Bcrypt} {Rt : Runtime}
    (input : UserInputData) (req : Request) (st : State) :
  isEmail (ui_email input) = true ->
  (5 <= String.length (ui_password input))%nat ->
  user_by_email (ui_email input) st = None ->
  ui_email input <> "" -> ui_name input <> "" ->
  bcrypt_hash (ui_password input) 12 <> "" ->
  let u := registered (oid_counter st) input in
  let run := createUser (Some input) req st in
  fst run = Ok (user_out u)
  /\ db_users (snd run) = db_users st ++ [u]
  /\ db_posts (snd run) = db_posts st
  /\ trace (snd run)
     = trace st ++ [UserFindOne (ui_email input); UserSave (User._id u)]
  /\ user_by_email (ui_email input) (snd run) = Some u
  /\ User.password u = bcrypt_hash (ui_password input) 12
  /\ User.status u = "I am new!" /\ User.posts u = []
  /\ obj_get "_id" (user_out u) = Some (VStr (toString (User._id u))).
Proof.
  intros Hemail Hpw Hfree Hmail Hname Hhash u run.
  assert (Hvalid : User.valid u = true).
  { unfold User.valid, u, registered. simpl.
    now rewrite !truthy_string_true. }
  subst run. rewrite (createUser_registers_run _ _ _ Hemail Hpw Hfree Hvalid).
  simpl. repeat split.
  unfold user_by_email in *. simpl.
  rewrite (find_app_none _ _ _ Hfree). simpl.
  now rewrite String.eqb_refl.
Qed.

Lemma createUser_registers_witness :
  let input := {| ui_email := "carol@example.com"; ui_name := "Carol";
                  ui_password := "looking glass" |} in
  let run := createUser (Vd := Sample.validator) (Bc := Sample.bcrypt)
               (Rt := Sample.runtime) (Some input) Sample.anonymous
               Sample.store in
  db_users (snd run)
  = [ Sample.alice; Sample.bob;
      registered (Bc := Sample.bcrypt) (Rt := Sample.runtime) 0 input ].
Proof.
  intros input run.
  assert (Hlen : (5 <= String.length (ui_password input))%nat)
    by (simpl; lia).
  assert (Hmail : ui_email input <> "") by discriminate.
  assert (Hname : ui_name input <> "") by discriminate.
  assert (Hhash : bcrypt_hash (Bcrypt := Sample.bcrypt)
                    (ui_password input) 12 <> "") by discriminate.
  exact (proj1 (proj2 (createUser_registers
                         (Vd := Sample.validator) (Bc := Sample.bcrypt)
                         (Rt := Sample.runtime) input Sample.anonymous
                         Sample.store eq_refl Hlen eq_refl Hmail Hname
                         Hhash))).
Defined.

(** X3: registration and login compose: after a createUser call that
    succeeds on an unregistered email, a login with the same email and
    password succeeds, provided bcrypt's compare accepts the password
    against its own hash; the userId it returns is the identifier
    createUser returned, and the token is signed for that identifier and
    email. *)
Theorem register_then_login
    {Vd : Validator} {Bc : Bcrypt} {Jw : Jwt} {Rt : Runtime}
    (input : UserInputData) (req : Request) (st st' : State) (o : Obj) :
  user_by_email (ui_email input) st = None ->
  createUser (Some input) req st = (Ok o, st') ->
  bcrypt_compare (ui_password input) (bcrypt_hash (ui_password input) 12)
  = true ->
  exists id,
    obj_get "_id" o = Some (VStr id)
    /\ fst (login (ui_email input) (ui_password input) st')
       = Ok {| token := jwt_sign {| tp_userId := id;
                                    tp_email := ui_email input |}
                                 jwt_secret "1h" (clock st');
               ad_userId := id |}.
Proof.
  intros Hfree Hcreate Hcompare.
  destruct (createUser_success_inv _ _ _ _ _ Hcreate)
    as (input' & u & [= <-] & Husers & Hmail & Hpw & ->).
  exists (toString (User._id u)). split; [apply user_out_id |].
  unfold login, bind at 1. rewrite User_findOne_run.
  assert (Hfound : user_by_email (ui_email input) st' = Some u).
  { unfold user_by_email in *. rewrite Husers.
    rewrite (find_app_none _ _ _ Hfree). simpl.
    now rewrite Hmail, String.eqb_refl. }
  rewrite Hfound, Hpw, Hcompare. simpl. now rewrite Hmail.
Qed.

Lemma register_then_login_witness :
  let input := {| ui_email := "carol@example.com"; ui_name := "Carol";
                  ui_password := "looking glass" |} in
  let st' := snd (createUser (Vd := Sample.validator) (Bc := Sample.bcrypt)
                    (Rt := Sample.runtime) (Some input) Sample.anonymous
                    Sample.store) in
  fst (login (Bc := Sample.bcrypt) (Jw := Sample.jwt)
         "carol@example.com" "looking glass" st')
  = Ok {| token := "jwt.n"; ad_userId := "n" |}.
Proof.
  intros input st'.
  destruct (createUser (Vd := Sample.validator) (Bc := Sample.bcrypt)
              (Rt := Sample.runtime) (Some input) Sample.anonymous
              Sample.store) as [[o | e] st1] eqn:Hrun;
    [| vm_compute in Hrun; discriminate].
  destruct (register_then_login
              (Vd := Sample.validator) (Bc := Sample.bcrypt)
              (Jw := Sample.jwt) (Rt := Sample.runtime)
              input Sample.anonymous Sample.store st1 o
              eq_refl Hrun eq_refl) as (id & Hid & Hlogin).
  assert (Ho : obj_get "_id" o = Some (VStr "n")).
  { vm_compute in Hrun. injection Hrun as <- _. reflexivity. }
  rewrite Ho in Hid. injection Hid as <-.
  subst st'. exact Hlogin.
Defined.

(** ** The guard and the tokens of login *)

Lemma append_cons (x : ascii) (a b : string) :
  String x a +:+ b = String x (a +:+ b).
Proof. reflexivity. Qed.

Lemma append_cons_assoc (a : string) (c : ascii) (b : string) :
  (a +:+ String c EmptyString) +:+ b = a +:+ String c b.
Proof.
  induction a as [| x a IH]; [reflexivity |].
  rewrite !append_cons. now f_equal.
Qed.

Lemma append_empty_r (a : string) : a +:+ "" = a.
Proof.
  induction a as [| x a IH]; [reflexivity |].
  rewrite append_cons. now f_equal.
Qed.

Lemma split_from_word (w cur rest : string) :
  no_space w = true ->
  split_from " "%char cur (w +:+ rest)
  = split_from " "%char (cur +:+ w) rest.
Proof.
  revert cur. induction w as [| c w IH]; intros cur Hw.
  - now rewrite append_empty_r.
  - simpl in Hw. apply andb_true_iff in Hw as [Hc Hw].
    apply negb_true_iff in Hc.
    rewrite append_cons. cbn [split_from]. rewrite Hc, (IH _ Hw).
    now rewrite append_cons_assoc.
Qed.

Lemma split_space_two (scheme tok : string) :
  no_space scheme = true -> no_space tok = true ->
  split_space (scheme +:+ " " +:+ tok) = [scheme; tok].
Proof.
  intros Hs Ht. unfold split_space.
  rewrite (split_from_word scheme "" _ Hs).
  change ("" +:+ scheme) with scheme.
  change (" " +:+ tok) with (String " "%char tok).
  cbn [split_from]. rewrite Ascii.eqb_refl.
  rewrite <- (append_empty_r tok) at 1.
  rewrite (split_from_word tok "" "" Ht). reflexivity.
Qed.

Lemma split_space_one (word : string) :
  no_space word = true -> split_space word = [word].
Proof.
  intros Hw. unfold split_space.
  rewrite <- (append_empty_r word) at 1.
  rewrite (split_from_word word "" "" Hw). reflexivity.
Qed.

Lemma auth_two_segments
    {Jw : Jwt} {R : Type}
    (scheme tok : string) (now : Z) (req : Request) :
  no_space scheme = true -> no_space tok = true ->
  auth (R := R) (Some (scheme +:+ " " +:+ tok)) now req
  = Next (match jwt_verify (Some tok) jwt_secret now with
          | Decoded (Some d) => with_auth req true (Some (tp_userId d))
          | _ => with_auth req false (userId req)
          end).
Proof.
  intros Hs Ht. unfold auth.
  assert (Htruthy : truthy_string (scheme +:+ " " +:+ tok) = true).
  { apply truthy_string_true. destruct scheme; discriminate. }
  rewrite Htruthy, (split_space_two _ _ Hs Ht). simpl.
  now destruct (jwt_verify _ _ _) as [| [d |]].
Qed.

(** X4: the guard verifies the second space-separated segment of the
    Authorization header and nothing else: the first word, the scheme, is
    not looked at, so any word in place of Bearer gives the same identity;
    a header of one word leaves nothing to verify, and the token handed to
    jwt.verify is undefined.  In every case the request is handed on. *)
Theorem guard_reads_second_segment
    {Jw : Jwt} {R : Type}
    (scheme tok : string) (now : Z) (req : Request) :
  no_space scheme = true -> no_space tok = true ->
  auth (R := R) (Some (scheme +:+ " " +:+ tok)) now req
  = Next (match jwt_verify (Some tok) jwt_secret now with
          | Decoded (Some d) => with_auth req true (Some (tp_userId d))
          | _ => with_auth req false (userId req)
          end)
  /\ (scheme <> "" ->
      auth (R := R) (Some scheme) now req
      = Next (match jwt_verify None jwt_secret now with
              | Decoded (Some d) => with_auth req true (Some (tp_userId d))
              | _ => with_auth req false (userId req)
              end)).
Proof.
  intros Hs Ht. split.
  - now apply auth_two_segments.
  - intros Hne. unfold auth.
    rewrite (truthy_string_true _ Hne), (split_space_one _ Hs). simpl.
    now destruct (jwt_verify _ _ _) as [| [d |]].
Qed.

Lemma guard_reads_second_segment_witness :
  auth (Jw := Sample.jwt) (R := HttpResponse) (Some "Basic jwt.b2") 1000
    Sample.anonymous
  = Next (Sample.as_user "b2").
Proof.
  exact (proj1 (guard_reads_second_segment (Jw := Sample.jwt)
                  (R := HttpResponse) "Basic" "jwt.b2" 1000
                  Sample.anonymous eq_refl eq_refl)).
Defined.

(** X5: login and the guard compose: when jwt.verify decodes the token
    that a successful login issued to a payload with the userId that was
    signed, a later call carrying that token after any scheme word is
    authenticated, and its userId is the identifier of the user whose
    password login compared: the first stored user with the email. *)
Theorem login_token_passes_guard
    {Bc : Bcrypt} {Jw : Jwt} {R : Type}
    (email password scheme : string) (st st' : State) (d : AuthData)
    (payload : TokenPayload) (now : Z) (req : Request) :
  login email password st = (Ok d, st') ->
  no_space scheme = true -> no_space (token d) = true ->
  jwt_verify (Some (token d)) jwt_secret now = Decoded (Some payload) ->
  tp_userId payload = ad_userId d ->
  exists u,
    user_by_email email st = Some u
    /\ bcrypt_compare password (User.password u) = true
    /\ token d = jwt_sign {| tp_userId := toString (User._id u);
                             tp_email := email |}
                          jwt_secret "1h" (clock st)
    /\ auth (R := R) (Some (scheme +:+ " " +:+ token d)) now req
       = Next (with_auth req true (Some (toString (User._id u)))).
Proof.
  intros Hlogin Hs Ht Hverify Hsame.
  unfold login, bind at 1 in Hlogin. rewrite User_findOne_run in Hlogin.
  destruct (user_by_email email st) as [u |] eqn:Hu; [| discriminate].
  destruct (bcrypt_compare password (User.password u)) eqn:Hcmp;
    [| discriminate].
  simpl in Hlogin. run_async. injection Hlogin as <- <-.
  simpl in *. exists u.
  assert (Hmail : User.email u = email).
  { unfold user_by_email in Hu. apply find_some in Hu as [_ He].
    now apply String.eqb_eq in He. }
  rewrite Hmail in *.
  split; [reflexivity |]. split; [exact Hcmp |]. split; [reflexivity |].
  etransitivity; [apply (auth_two_segments (R := R)); assumption |].
  now rewrite Hverify, Hsame.
Qed.

Lemma login_token_passes_guard_witness :
  let run := login (Bc := Sample.bcrypt) (Jw := Sample.jwt)
               "bob@example.com" "builder" Sample.store in
  exists d,
    fst run = Ok d
    /\ auth (Jw := Sample.jwt) (R := HttpResponse)
         (Some ("Bearer" +:+ " " +:+ token d)) 2000 Sample.anonymous
       = Next (Sample.as_user "b2").
Proof.
  intros run.
  destruct run as [[d | e] st'] eqn:Hrun; [| vm_compute in Hrun; discriminate].
  exists d. split; [reflexivity |].
  assert (Hd : d = {| token := "jwt.b2"; ad_userId := "b2" |}).
  { vm_compute in Hrun. now injection Hrun as <- _. }
  destruct (login_token_passes_guard
              (Bc := Sample.bcrypt) (Jw := Sample.jwt) (R := HttpResponse)
              "bob@example.com" "builder" "Bearer" Sample.store st' d
              {| tp_userId := "b2"; tp_email := "" |} 2000
              Sample.anonymous Hrun eq_refl)
    as (u & Hu & _ & _ & Hguard).
  - rewrite Hd. reflexivity.
  - rewrite Hd. reflexivity.
  - rewrite Hd. reflexivity.
  - vm_compute in Hu. injection Hu as <-. exact Hguard.
Defined.

(** ** Creating a post *)

Lemma post_errors_length_errors (input : PostInputData) :
  post_errors input = length_errors input.
Proof.
  unfold post_errors, length_errors, isEmpty, isLength, push.
  destruct (String.length (pi_title input)) as [| [| [| [| [| n]]]]];
    destruct (String.length (pi_content input)) as [| [| [| [| [| m]]]]];
    reflexivity.
Qed.

Lemma length_errors_nil (input : PostInputData) :
  length_errors input = []
  <-> (5 <= String.length (pi_title input))%nat
      /\ (5 <= String.length (pi_content input))%nat.
Proof.
  unfold length_errors.
  destruct (5 <=? String.length (pi_title input))%nat eqn:Ht;
    destruct (5 <=? String.length (pi_content input))%nat eqn:Hc;
    [apply Nat.leb_le in Ht, Hc | apply Nat.leb_le in Ht; apply Nat.leb_gt in Hc
     | apply Nat.leb_gt in Ht; apply Nat.leb_le in Hc
     | apply Nat.leb_gt in Ht, Hc];
    simpl; split; try discriminate; try lia; auto.
Qed.

Lemma length_errors_positive (input : PostInputData) :
  length_errors input <> [] ->
  (0 <? length (post_errors input))%nat = true.
Proof.
  rewrite post_errors_length_errors. intros Hne.
  destruct (length_errors input); [contradiction | reflexivity].
Qed.

Lemma length_errors_zero (input : PostInputData) :
  length_errors input = [] ->
  (0 <? length (post_errors input))%nat = false.
Proof. rewrite post_errors_length_errors. now intros ->. Qed.

(** X6: createPost by an authenticated caller with a title or a content of
    fewer than 5 characters fails with 422; the data holds the title
    message when, and only when, the title is too short, then the content
    message when, and only when, the content is; the state is untouched:
    the creator is not even looked up. *)
Theorem createPost_validation_is_exact
    {Rt : Runtime} (input : PostInputData) (req : Request) (st : State) :
  isAuth req = true ->
  (String.length (pi_title input) < 5)%nat
  \/ (String.length (pi_content input) < 5)%nat ->
  createPost (Some input) req st
  = (Throw {| message := "Invalid input."; code := Some 422;
              data := Some (length_errors input) |}, st)
  /\ (In {| fe_message := "Title is invalid." |} (length_errors input)
      <-> (String.length (pi_title input) < 5)%nat)
  /\ (In {| fe_message := "Content is invalid." |} (length_errors input)
      <-> (String.length (pi_content input) < 5)%nat).
Proof.
  intros Hauth Hshort. split.
  - unfold createPost. rewrite Hauth. simpl.
    rewrite length_errors_positive.
    + now rewrite post_errors_length_errors.
    + intros Hnil. apply length_errors_nil in Hnil. lia.
  - unfold length_errors.
    destruct (5 <=? String.length (pi_title input))%nat eqn:Ht;
      destruct (5 <=? String.length (pi_content input))%nat eqn:Hc;
      [apply Nat.leb_le in Ht, Hc
      | apply Nat.leb_le in Ht; apply Nat.leb_gt in Hc
      | apply Nat.leb_gt in Ht; apply Nat.leb_le in Hc
      | apply Nat.leb_gt in Ht, Hc];
      simpl; split; split; intros Hx;
      try lia; try tauto;
      try (destruct Hx as [Hx | Hx]; [discriminate Hx | tauto]);
      try (destruct Hx as [Hx | [Hx | []]]; discriminate Hx);
      auto.
Qed.

Lemma createPost_validation_is_exact_witness :
  createPost (Rt := Sample.runtime)
    (Some {| pi_title := "Hello"; pi_content := "Hey";
             pi_imageUrl := "images/x.png" |})
    (Sample.as_user "a1") Sample.store
  = (Throw {| message := "Invalid input."; code := Some 422;
              data := Some [ {| fe_message := "Content is invalid." |} ] |},
     Sample.store).
Proof.
  refine (proj1 (createPost_validation_is_exact (Rt := Sample.runtime)
                   {| pi_title := "Hello"; pi_content := "Hey";
                      pi_imageUrl := "images/x.png" |}
                   (Sample.as_user "a1") Sample.store eq_refl _)).
  right. simpl. lia.
Defined.

Lemma createPost_run
    {Rt : Runtime} (input : PostInputData) (req : Request) (st : State)
    (uid : string) (u : User.t) :
  isAuth req = true -> userId req = Some uid ->
  length_errors input = [] ->
  user_by_id uid st = Some u ->
  Post.valid (created (oid_counter st) (clock st) input (User._id u)) = true ->
  User.valid u = true ->
  let p := created (oid_counter st) (clock st) input (User._id u) in
  createPost (Some input) req st
  = (Ok (post_out p (VObj (User._doc (pushed (Post._id p) u)))),
     {| db_users := users_after_save (pushed (Post._id p) u) (db_users st);
        db_posts := db_posts st ++ [p]; fs_files := fs_files st;
        clock := clock st; oid_counter := S (oid_counter st);
        trace := trace st ++ [ UserFindById (Some uid);
                               PostSave (Post._id p);
                               UserSave (User._id u) ] |}).
Proof.
  intros Hauth Huid Hok Hu Hpvalid Huvalid p.
  unfold createPost. rewrite Hauth, (length_errors_zero _ Hok), Huid. simpl.
  unfold bind at 1. rewrite User_findById_run, Hu.
  unfold bind at 1, bump_counter. simpl.
  unfold bind at 1, Post_save.
  change (Post.valid _)
    with (Post.valid (created (oid_counter st) (clock st) input (User._id u))).
  rewrite Hpvalid. simpl.
  unfold bind, get_state, log, set_posts, ret, User_save. simpl.
  change (User.valid _) with (User.valid u). rewrite Huvalid. simpl.
  unfold bind, get_state, log, set_users, ret. simpl.
  now rewrite <- !app_assoc.
Qed.

(** X7: createPost by an authenticated caller who is a stored user, with a
    title and a content of at least 5 characters and an image reference,
    succeeds.  The new post is appended with both timestamps at the
    current time and the caller as creator; the caller is saved with the
    new identifier appended to its post set; the two side effects are the
    save of the post and then the save of the user; the other posts are
    untouched, and so are the other users. *)
Theorem createPost_appends_post_and_reference
    {Rt : Runtime} (input : PostInputData) (req : Request) (st : State)
    (uid : string) (u : User.t) :
  isAuth req = true -> userId req = Some uid ->
  (5 <= String.length (pi_title input))%nat ->
  (5 <= String.length (pi_content input))%nat ->
  pi_imageUrl input <> "" ->
  user_by_id uid st = Some u -> User.valid u = true ->
  let p := created (oid_counter st) (clock st) input (User._id u) in
  let run := createPost (Some input) req st in
  fst run = Ok (post_out p (VObj (User._doc (pushed (Post._id p) u))))
  /\ db_posts (snd run) = db_posts st ++ [p]
  /\ user_by_id uid (snd run) = Some (pushed (Post._id p) u)
  /\ (forall id', id' <> uid ->
        user_by_id id' (snd run) = user_by_id id' st)
  /\ (exists evs,
        trace (snd run) = trace st ++ evs
        /\ side_effects evs = [PostSave (Post._id p); UserSave (User._id u)])
  /\ Post.creator p = User._id u
  /\ Post.createdAt p = clock st /\ Post.updatedAt p = clock st.
Proof.
  intros Hauth Huid Htitle Hcontent Himage Hu Huvalid p run.
  assert (Hok : length_errors input = []) by now apply length_errors_nil.
  assert (Hpvalid : Post.valid p = true).
  { unfold Post.valid, p, created. simpl.
    rewrite (length_nonempty (pi_title input)) by lia.
    rewrite (length_nonempty (pi_content input)) by lia.
    now rewrite (truthy_string_true _ Himage). }
  subst run.
  rewrite (createPost_run input req st uid u Hauth Huid Hok Hu Hpvalid Huvalid).
  pose proof (user_by_id_has_id _ _ _ Hu) as Hkey.
  simpl. repeat split.
  - unfold user_by_id, users_after_save. simpl. rewrite <- Hkey.
    apply (find_replaced_same (fun x => toString (User._id x))
             (pushed (Post._id p) u) u).
    simpl. rewrite Hkey. exact Hu.
  - intros id' Hother. unfold user_by_id, users_after_save. simpl.
    apply (find_replaced_other (fun x => toString (User._id x)) id'
             (pushed (Post._id p) u)).
    simpl. now rewrite Hkey.
  - eexists. split; reflexivity.
Qed.

Lemma createPost_appends_post_and_reference_witness :
  let input := {| pi_title := "Fourth post"; pi_content := "Fresh words";
                  pi_imageUrl := "images/four.png" |} in
  let run := createPost (Rt := Sample.runtime) (Some input)
               (Sample.as_user "b2") Sample.store in
  db_posts (snd run)
  = [ Sample.post1; Sample.post2; Sample.post3;
      created (Rt := Sample.runtime) 0 1000 input (Oid "b2") ]
  /\ user_by_id "b2" (snd run) = Some (pushed (Oid "n") Sample.bob).
Proof.
  intros input run.
  assert (Ht : (5 <= String.length (pi_title input))%nat) by (simpl; lia).
  assert (Hc : (5 <= String.length (pi_content input))%nat) by (simpl; lia).
  assert (Hi : pi_imageUrl input <> "") by discriminate.
  destruct (createPost_appends_post_and_reference (Rt := Sample.runtime)
              input (Sample.as_user "b2") Sample.store "b2" Sample.bob
              eq_refl eq_refl Ht Hc Hi eq_refl eq_refl)
    as (_ & Hposts & Huser & _).
  split; [exact Hposts | exact Huser].
Defined.

(** ** A token whose user is not stored *)

Lemma User_findById_caller (req : Request) (st : State) :
  User_findById (userId req) st
  = (Ok (caller req st), traced [UserFindById (userId req)] st).
Proof. unfold caller. now destruct (userId req). Qed.



(** ** The owner's update *)

(** X9: when the creator of a post calls updatePost with a title or a
    content of fewer than 5 characters, the call fails with 422 and the
    exact list of messages, after the post and its creator were read; no
    side effect is issued and the post is stored as before. *)
Theorem updatePost_owner_invalid_input
    {Rt : Runtime} (id : string) (input : PostInputData) (req : Request)
    (st : State) (p : Post.t) (u : User.t) :
  isAuth req = true ->
  post_by_id id st = Some p ->
  user_by_id (toString (Post.creator p)) st = Some u ->
  userId req = Some (toString (Post.creator p)) ->
  (String.length (pi_title input) < 5)%nat
  \/ (String.length (pi_content input) < 5)%nat ->
  updatePost id (Some input) req st
  = (Throw {| message := "Invalid input."; code := Some 422;
              data := Some (length_errors input) |},
     traced [ PostFindById id;
              UserFindById (Some (toString (Post.creator p))) ] st)
  /\ length_errors input <> []
  /\ side_effects [ PostFindById id;
                    UserFindById (Some (toString (Post.creator p))) ] = [].
Proof.
  intros Hauth Hpost Hcreator Huid Hshort.
  assert (Hne : length_errors input <> []).
  { intros Hnil. apply length_errors_nil in Hnil. lia. }
  split; [| split; [exact Hne | reflexivity]].
  unfold updatePost. rewrite Hauth. simpl.
  unfold bind at 1. rewrite (Post_findById_found _ _ _ Hpost).
  unfold bind at 1. rewrite populate_run, user_by_id_traced, Hcreator.
  simpl. rewrite Huid, (user_by_id_has_id _ _ _ Hcreator), String.eqb_refl.
  simpl. rewrite (length_errors_positive _ Hne), post_errors_length_errors.
  unfold throw. now rewrite traced_traced.
Qed.

Lemma updatePost_owner_invalid_input_witness :
  updatePost (Rt := Sample.runtime) "p3"
    (Some {| pi_title := "Hi"; pi_content := "A longer content";
             pi_imageUrl := "undefined" |})
    (Sample.as_user "b2") Sample.store
  = (Throw {| message := "Invalid input."; code := Some 422;
              data := Some [ {| fe_message := "Title is invalid." |} ] |},
     traced [PostFindById "p3"; UserFindById (Some "b2")] Sample.store).
Proof.
  refine (proj1 (updatePost_owner_invalid_input (Rt := Sample.runtime)
                   "p3" {| pi_title := "Hi";
                           pi_content := "A longer content";
                           pi_imageUrl := "undefined" |}
                   (Sample.as_user "b2") Sample.store Sample.post3
                   Sample.bob eq_refl eq_refl eq_refl eq_refl _)).
  left. simpl. lia.
Defined.

#[local] Arguments stamp : simpl never.

(** The post updatePost saves: the loaded post with the supplied title
    and content, and the supplied image unless it is the sentinel. *)
Lemma updatePost_owner_run
    {Rt : Runtime} (id : string) (input : PostInputData) (req : Request)
    (st : State) (p : Post.t) (u : User.t) :
  isAuth req = true ->
  post_by_id id st = Some p ->
  user_by_id (toString (Post.creator p)) st = Some u ->
  userId req = Some (toString (Post.creator p)) ->
  length_errors input = [] ->
  pi_imageUrl input <> "" -> Post.imageUrl p <> "" ->
  exists saved,
    updatePost id (Some input) req st
    = (Ok (post_out saved (VObj (User._doc u))),
       {| db_users := db_users st;
          db_posts :=
            map (fun q => if ObjectId_eqb (Post._id q) (Post._id p)
                          then saved else q) (db_posts st);
          fs_files := fs_files st; clock := clock st;
          oid_counter := oid_counter st;
          trace := trace st
                   ++ [ PostFindById id;
                        UserFindById (Some (toString (Post.creator p)));
                        PostSave (Post._id p) ] |})
    /\ Post._id saved = Post._id p
    /\ Post.title saved = pi_title input
    /\ Post.content saved = pi_content input
    /\ Post.imageUrl saved
       = (if String.eqb (pi_imageUrl input) unchanged_image
          then Post.imageUrl p else pi_imageUrl input)
    /\ Post.creator saved = Post.creator p
    /\ Post.createdAt saved = Post.createdAt p.
Proof.
  intros Hauth Hpost Hcreator Huid Hok Himage Hold.
  unfold updatePost. rewrite Hauth. simpl.
  unfold bind at 1. rewrite (Post_findById_found _ _ _ Hpost).
  unfold bind at 1. rewrite populate_run, user_by_id_traced, Hcreator.
  simpl. rewrite Huid, (user_by_id_has_id _ _ _ Hcreator), String.eqb_refl.
  simpl. rewrite (length_errors_zero _ Hok).
  apply length_errors_nil in Hok as [Htitle Hcontent].
  unfold bind at 1, Post_save.
  match goal with
  | |- context [negb (Post.valid ?q)] =>
      assert (Hvalid : Post.valid q = true)
  end.
  { unfold Post.valid. simpl.
    rewrite (length_nonempty (pi_title input)) by lia.
    rewrite (length_nonempty (pi_content input)) by lia.
    destruct (String.eqb (pi_imageUrl input) unchanged_image); simpl;
      now rewrite truthy_string_true. }
  rewrite Hvalid. simpl.
  unfold bind, get_state, log, set_posts, ret. simpl.
  eexists. split.
  - rewrite <- !app_assoc. simpl. reflexivity.
  - match goal with
    | |- context [stamp false ?now ?stored ?post] =>
        destruct (stamp_loaded_fields now stored post)
          as (Hid & Ht & Hc & Hi & Hcr & Hca)
    end.
    simpl in Hid, Ht, Hc, Hi, Hcr, Hca.
    repeat split; try assumption.
    rewrite Hi. now destruct (String.eqb (pi_imageUrl input) _).
Qed.

(** X10: the creator of a post who calls updatePost with a title and a
    content of at least 5 characters and an image value succeeds; the one
    side effect is the save of the post; afterwards the post query for
    the same id returns the post with the new title and content. *)
Theorem updatePost_owner_succeeds
    {Rt : Runtime} (id : string) (input : PostInputData) (req : Request)
    (st : State) (p : Post.t) (u : User.t) :
  isAuth req = true ->
  post_by_id id st = Some p ->
  user_by_id (toString (Post.creator p)) st = Some u ->
  userId req = Some (toString (Post.creator p)) ->
  (5 <= String.length (pi_title input))%nat ->
  (5 <= String.length (pi_content input))%nat ->
  pi_imageUrl input <> "" -> Post.imageUrl p <> "" ->
  let run := updatePost id (Some input) req st in
  exists out shown,
    fst run = Ok out
    /\ (exists evs, trace (snd run) = trace st ++ evs
                    /\ side_effects evs = [PostSave (Post._id p)])
    /\ db_users (snd run) = db_users st
    /\ fst (post id req (snd run)) = Ok shown
    /\ obj_get "title" shown = Some (VStr (pi_title input))
    /\ obj_get "content" shown = Some (VStr (pi_content input))
    /\ obj_get "title" out = Some (VStr (pi_title input))
    /\ obj_get "content" out = Some (VStr (pi_content input)).
Proof.
  intros Hauth Hpost Hcreator Huid Htitle Hcontent Himage Hold run.
  assert (Hok : length_errors input = []) by now apply length_errors_nil.
  destruct (updatePost_owner_run id input req st p u
              Hauth Hpost Hcreator Huid Hok Himage Hold)
    as (saved & Hrun & Hid & Ht & Hc & _ & Hcr & _).
  subst run. rewrite Hrun. cbn [fst snd].
  pose proof (post_by_id_has_id _ _ _ Hpost) as Hkey.
  set (st' := {| db_users := db_users st; db_posts := _ |}).
  pose proof (post_by_id_isValid _ _ _ Hpost) as Hv.
  assert (Hfound : post_by_id id st' = Some saved).
  { rewrite (post_by_id_valid _ _ Hv). unfold st'. cbn [db_posts].
    rewrite <- Hkey, <- Hid.
    apply (find_replaced_same (fun q => toString (Post._id q)) saved p).
    rewrite Hid, Hkey. now rewrite <- (post_by_id_valid _ _ Hv). }
  eexists. exists (rendered st' saved).
  split; [reflexivity |].
  split; [eexists; split; reflexivity |].
  split; [reflexivity |].
  split.
  - unfold post. rewrite Hauth. simpl.
    unfold bind at 1. rewrite (Post_findById_found _ _ _ Hfound).
    unfold bind at 1. now rewrite populate_run.
  - unfold rendered. cbn. rewrite Ht, Hc. repeat split.
Qed.

Lemma updatePost_owner_succeeds_witness :
  let input := {| pi_title := "Third, edited";
                  pi_content := "By Bob, again";
                  pi_imageUrl := "undefined" |} in
  let run := updatePost (Rt := Sample.runtime) "p3" (Some input)
               (Sample.as_user "b2") Sample.store in
  exists out shown,
    fst run = Ok out
    /\ fst (post (Rt := Sample.runtime) "p3" (Sample.as_user "b2") (snd run))
       = Ok shown
    /\ obj_get "title" shown = Some (VStr "Third, edited").
Proof.
  intros input run.
  assert (Ht : (5 <= String.length (pi_title input))%nat) by (simpl; lia).
  assert (Hc : (5 <= String.length (pi_content input))%nat) by (simpl; lia).
  assert (Hi : pi_imageUrl input <> "") by discriminate.
  assert (Ho : Post.imageUrl Sample.post3 <> "") by discriminate.
  destruct (updatePost_owner_succeeds (Rt := Sample.runtime) "p3" input
              (Sample.as_user "b2") Sample.store Sample.post3 Sample.bob
              eq_refl eq_refl eq_refl eq_refl Ht Hc Hi Ho)
    as (out & shown & Hout & _ & _ & Hshown & Htitle & _).
  exists out, shown. auto.
Defined.

(** ** Reading one post *)

(** X11: the post query of an authenticated caller.  An id that is no
    ObjectId fails before any query is sent, with the store's cast error,
    which has no code.  An id that renders an ObjectId which no post has
    fails with 404.  An id that a stored post's identifier renders as
    returns that post with its identifier as the string that was asked
    for, both timestamps as ISO strings, and its creator resolved to the
    stored user document, whole: the object under creator carries the
    creator's password hash.  The query issues reads only. *)
Theorem post_query_resolves_creator
    {Rt : Runtime} (id : string) (req : Request) (st : State) :
  isAuth req = true ->
  (isValid id = false ->
   post id req st = (Throw (CastError "Post" id), st))
  /\ (issued id -> post_by_id id st = None ->
      post id req st
      = (Throw {| message := "No post found!"; code := Some 404;
                  data := None |}, traced [PostFindById id] st))
  /\ (forall p, post_by_id id st = Some p ->
      let reads := [ PostFindById id;
                     UserFindById (Some (toString (Post.creator p))) ] in
      post id req st = (Ok (rendered st p), traced reads st)
      /\ side_effects reads = []
      /\ obj_get "_id" (rendered st p) = Some (VStr id)
      /\ obj_get "title" (rendered st p) = Some (VStr (Post.title p))
      /\ obj_get "createdAt" (rendered st p)
         = Some (VStr (toISOString (Post.createdAt p)))
      /\ obj_get "updatedAt" (rendered st p)
         = Some (VStr (toISOString (Post.updatedAt p)))
      /\ (forall u,
            user_by_id (toString (Post.creator p)) st = Some u ->
            obj_get "creator" (rendered st p) = Some (VObj (User._doc u))
            /\ obj_get "password" (User._doc u)
               = Some (VStr (User.password u)))).
Proof.
  intros Hauth. split; [| split].
  - intros Hv. now apply post_cast.
  - intros Hissued Hmiss. unfold post. rewrite Hauth. simpl.
    unfold bind at 1.
    now rewrite (Post_findById_run _ _ (issued_isValid _ Hissued)), Hmiss.
  - intros p Hpost. split.
    { unfold post. rewrite Hauth. simpl.
      unfold bind at 1. rewrite (Post_findById_found _ _ _ Hpost).
      unfold bind at 1. now rewrite populate_run, traced_traced. }
    split; [reflexivity |].
    split.
    { unfold rendered, post_out. cbn.
      now rewrite (post_by_id_has_id _ _ _ Hpost). }
    split; [reflexivity |]. split; [reflexivity |]. split; [reflexivity |].
    intros u Hu. unfold rendered. rewrite Hu. split; reflexivity.
Qed.

Lemma post_query_resolves_creator_witness :
  (fst (post (Rt := Sample.runtime) "p3" (Sample.as_user "a1") Sample.store)
   = Ok (rendered (Rt := Sample.runtime) Sample.store Sample.post3)
   /\ obj_get "creator"
        (rendered (Rt := Sample.runtime) Sample.store Sample.post3)
      = Some (VObj (User._doc Sample.bob))
   /\ obj_get "password" (User._doc Sample.bob)
      = Some (VStr "$2a$12$builder"))
  /\ fst (post (Rt := Hex.runtime) "000000000000000000000009"
            (Sample.as_user "000000000000000000000001") Hex.store)
     = Throw {| message := "No post found!"; code := Some 404;
                data := None |}
  /\ fst (post (Rt := Hex.runtime) "p9"
            (Sample.as_user "000000000000000000000001") Hex.store)
     = Throw (CastError "Post" "p9").
Proof.
  split; [| split].
  - destruct (proj2 (proj2 (post_query_resolves_creator
                (Rt := Sample.runtime) "p3" (Sample.as_user "a1")
                Sample.store eq_refl)) Sample.post3 eq_refl)
      as (Hrun & _ & _ & _ & _ & _ & Hcreator).
    destruct (Hcreator Sample.bob eq_refl) as [Hc Hp].
    rewrite Hrun. repeat split; assumption.
  - rewrite (proj1 (proj2 (post_query_resolves_creator
               (Rt := Hex.runtime) "000000000000000000000009"
               (Sample.as_user "000000000000000000000001") Hex.store
               eq_refl)) (ex_intro _ 9%nat eq_refl) eq_refl).
    reflexivity.
  - rewrite (proj1 (post_query_resolves_creator
               (Rt := Hex.runtime) "p9"
               (Sample.as_user "000000000000000000000001") Hex.store
               eq_refl) eq_refl).
    reflexivity.
Defined.

(** ** Updating the status *)

Lemma updateStatus_run
    (status uid : string) (req : Request) (st : State) (u : User.t) :
  isAuth req = true -> userId req = Some uid ->
  user_by_id uid st = Some u -> User.valid u = true ->
  updateStatus status req st
  = (Ok (user_out (with_status status u)),
     {| db_users := users_after_save (with_status status u) (db_users st);
        db_posts := db_posts st; fs_files := fs_files st;
        clock := clock st; oid_counter := oid_counter st;
        trace := trace st
                 ++ [UserFindById (Some uid); UserSave (User._id u)] |}).
Proof.
  intros Hauth Huid Hu Hvalid.
  unfold updateStatus. rewrite Hauth, Huid. simpl.
  unfold bind at 1. rewrite User_findById_run, Hu.
  unfold bind at 1, User_save.
  change (User.valid _) with (User.valid u). rewrite Hvalid. simpl.
  unfold bind, get_state, log, set_users, ret. simpl.
  now rewrite <- app_assoc.
Qed.

(** X12: updateStatus by an authenticated caller who is a stored user
    succeeds for every status string, the empty one included: no rule is
    checked.  The caller is stored with the new status and every other
    field as before, the other users and all posts are untouched, the one
    side effect is the save of the user, and the returned object shows the
    new status. *)
Theorem updateStatus_changes_only_the_status
    (status uid : string) (req : Request) (st : State) (u : User.t) :
  isAuth req = true -> userId req = Some uid ->
  user_by_id uid st = Some u -> User.valid u = true ->
  let run := updateStatus status req st in
  fst run = Ok (user_out (with_status status u))
  /\ obj_get "status" (user_out (with_status status u)) = Some (VStr status)
  /\ user_by_id uid (snd run) = Some (with_status status u)
  /\ (forall id', id' <> uid ->
        user_by_id id' (snd run) = user_by_id id' st)
  /\ db_posts (snd run) = db_posts st
  /\ trace (snd run)
     = trace st ++ [UserFindById (Some uid); UserSave (User._id u)]
  /\ (User.email (with_status status u) = User.email u
      /\ User.password (with_status status u) = User.password u
      /\ User.posts (with_status status u) = User.posts u).
Proof.
  intros Hauth Huid Hu Hvalid run. subst run.
  rewrite (updateStatus_run status uid req st u Hauth Huid Hu Hvalid).
  pose proof (user_by_id_has_id _ _ _ Hu) as Hkey.
  cbn [fst snd db_posts trace]. repeat split.
  - unfold user_by_id, users_after_save. cbn [db_users]. rewrite <- Hkey.
    apply (find_replaced_same (fun x => toString (User._id x))
             (with_status status u) u).
    simpl. rewrite Hkey. exact Hu.
  - intros id' Hother. unfold user_by_id, users_after_save. cbn [db_users].
    apply (find_replaced_other (fun x => toString (User._id x)) id'
             (with_status status u)).
    simpl. now rewrite Hkey.
Qed.

Lemma updateStatus_changes_only_the_status_witness :
  let run := updateStatus "" (Sample.as_user "a1") Sample.store in
  fst run = Ok (user_out (with_status "" Sample.alice))
  /\ db_users (snd run) = [with_status "" Sample.alice; Sample.bob].
Proof.
  intros run.
  destruct (updateStatus_changes_only_the_status "" "a1"
              (Sample.as_user "a1") Sample.store Sample.alice
              eq_refl eq_refl eq_refl eq_refl) as (Hout & _).
  split; [exact Hout | reflexivity].
Defined.

(** ** The statuses a caller can see *)

Ltac solve_classified :=
  unfold classified; simpl;
  first
    [ left; split; [solve [auto] | reflexivity]
    | right; right; split; reflexivity
    | right; left; split; [reflexivity |];
      eexists; split; [reflexivity |];
      let Hnil := fresh in
      intros Hnil;
      match goal with
      | H : (0 <? length _)%nat = true |- _ =>
          try rewrite Hnil in H; simpl in H; discriminate H
      end ].

Ltac classify_throws Hrun :=
  unfold_store Hrun;
  repeat branch_on Hrun; try discriminate Hrun;
  injection Hrun as <- <-; solve_classified.

Lemma createUser_throws_classified
    {Vd : Validator} {Bc : Bcrypt} {Rt : Runtime} userInput req st e st' :
  createUser userInput req st = (Throw e, st') -> classified e.
Proof. intros Hrun. unfold createUser in Hrun. classify_throws Hrun. Qed.

Lemma login_throws_classified
    {Bc : Bcrypt} {Jw : Jwt} email password st e st' :
  login email password st = (Throw e, st') -> classified e.
Proof. intros Hrun. unfold login in Hrun. classify_throws Hrun. Qed.

Lemma createPost_throws_classified
    {Rt : Runtime} postInput req st e st' :
  createPost postInput req st = (Throw e, st') -> classified e.
Proof.
  intros Hrun. unfold createPost in Hrun.
  destruct (userId req); classify_throws Hrun.
Qed.

Lemma post_throws_classified {Rt : Runtime} id req st e st' :
  post id req st = (Throw e, st') -> classified e.
Proof. intros Hrun. unfold post in Hrun. classify_throws Hrun. Qed.

Lemma updatePost_throws_classified
    {Rt : Runtime} id postInput req st e st' :
  updatePost id postInput req st = (Throw e, st') -> classified e.
Proof.
  intros Hrun. unfold updatePost in Hrun.
  destruct (userId req); classify_throws Hrun.
Qed.

Lemma deletePost_throws_classified {Rt : Runtime} id req st e st' :
  deletePost id req st = (Throw e, st') -> classified e.
Proof.
  intros Hrun. unfold deletePost in Hrun.
  destruct (userId req); classify_throws Hrun.
Qed.

Lemma user_throws_classified req st e st' :
  user req st = (Throw e, st') -> classified e.
Proof.
  intros Hrun. unfold user in Hrun.
  destruct (userId req); classify_throws Hrun.
Qed.

Lemma updateStatus_throws_classified status req st e st' :
  updateStatus status req st = (Throw e, st') -> classified e.
Proof.
  intros Hrun. unfold updateStatus in Hrun.
  destruct (userId req); classify_throws Hrun.
Qed.

Lemma posts_throws_classified
    {Rt : Runtime} {Mg : Mongo} page req st e st' :
  match page with Some n => 0 <= n | None => True end ->
  posts page req st = (Throw e, st') -> classified e.
Proof.
  intros Hpage Hrun. unfold posts in Hrun.
  destruct (negb (isAuth req)).
  - injection Hrun as <- <-. solve_classified.
  - unfold Post_countDocuments, Post_find_page, bind, log, get_state, ret,
      throw in Hrun.
    simpl in Hrun.
    match type of Hrun with
    | context [?skip <? 0] =>
        assert (Hskip : (skip <? 0) = false)
    end.
    { apply Z.ltb_ge. unfold perPage.
      destruct page as [[| n | n] |]; simpl; lia. }
    rewrite Hskip, populate_all_run in Hrun. discriminate Hrun.
Qed.

Lemma dispatch_throws_classified
    {Vd : Validator} {Bc : Bcrypt} {Jw : Jwt} {Rt : Runtime} {Mg : Mongo}
    op req st e st' :
  skips_forward op ->
  dispatch op req st = (Throw e, st') -> classified e.
Proof.
  intros Hop Hrun. destruct op; simpl in Hrun; unfold bind, ret in Hrun.
  - destruct (login _ _ st) as [[d | e0] st0] eqn:H0; [discriminate |].
    injection Hrun as <- <-. eapply login_throws_classified, H0.
  - destruct (posts _ _ st) as [[d | e0] st0] eqn:H0; [discriminate |].
    injection Hrun as <- <-. eapply posts_throws_classified; [| exact H0].
    exact Hop.
  - destruct (post _ _ st) as [[d | e0] st0] eqn:H0; [discriminate |].
    injection Hrun as <- <-. eapply post_throws_classified, H0.
  - destruct (user _ st) as [[d | e0] st0] eqn:H0; [discriminate |].
    injection Hrun as <- <-. eapply user_throws_classified, H0.
  - destruct (createUser _ _ st) as [[d | e0] st0] eqn:H0; [discriminate |].
    injection Hrun as <- <-. eapply createUser_throws_classified, H0.
  - destruct (createPost _ _ st) as [[d | e0] st0] eqn:H0; [discriminate |].
    injection Hrun as <- <-. eapply createPost_throws_classified, H0.
  - destruct (updatePost _ _ _ st) as [[d | e0] st0] eqn:H0; [discriminate |].
    injection Hrun as <- <-. eapply updatePost_throws_classified, H0.
  - destruct (deletePost _ _ st) as [[d | e0] st0] eqn:H0; [discriminate |].
    injection Hrun as <- <-. eapply deletePost_throws_classified, H0.
  - destruct (updateStatus _ _ st) as [[d | e0] st0] eqn:H0; [discriminate |].
    injection Hrun as <- <-. eapply updateStatus_throws_classified, H0.
Qed.

(** X13: whatever operation fails, the caller receives an envelope (never
    a bare GraphQL error) whose status is one of 401, 403, 404, 422 and
    500; the envelope carries data exactly when the status is 422, and
    then the list of messages is not empty.  This holds for every request
    that does not ask the posts query for a negative page. *)
Theorem every_error_has_a_known_status
    {Vd : Validator} {Bc : Bcrypt} {Jw : Jwt} {Rt : Runtime} {Mg : Mongo}
    (op : Operation) (req : Request) (st st' : State) (f : Formatted) :
  skips_forward op ->
  graphql op req st = (inr f, st') ->
  exists env,
    f = Enveloped env
    /\ In (env_status env) [401; 403; 404; 422; 500]
    /\ (env_status env = 422 <-> env_data env <> None)
    /\ (forall d, env_data env = Some d -> d <> []).
Proof.
  intros Hop Hrun. unfold graphql in Hrun.
  destruct (dispatch op req st) as [[d | e] st0] eqn:Hd; [discriminate |].
  injection Hrun as <- <-.
  pose proof (dispatch_throws_classified _ _ _ _ _ Hop Hd) as Hclass.
  unfold formatError, located. simpl. eexists. split; [reflexivity |].
  simpl. destruct e as [msg c dat]. unfold classified in Hclass.
  simpl in Hclass.
  destruct Hclass as [[[-> | [-> | ->]] ->] | [[-> (d & -> & Hne)] | [-> ->]]];
    simpl; (split; [tauto |]); (split; [split |]);
    try discriminate; try tauto; try congruence.
Qed.

Lemma every_error_has_a_known_status_witness :
  exists env,
    fst (graphql (Vd := Sample.validator) (Bc := Sample.bcrypt)
           (Jw := Sample.jwt) (Rt := Sample.runtime) (Mg := Sample.mongo)
           (DeletePost "p3") (Sample.as_user "a1") Sample.store)
    = inr (Enveloped env)
    /\ In (env_status env) [401; 403; 404; 422; 500].
Proof.
  destruct (graphql (Vd := Sample.validator) (Bc := Sample.bcrypt)
              (Jw := Sample.jwt) (Rt := Sample.runtime) (Mg := Sample.mongo)
              (DeletePost "p3") (Sample.as_user "a1") Sample.store)
    as [[d | f] st'] eqn:Hrun; [vm_compute in Hrun; discriminate |].
  destruct (every_error_has_a_known_status
              (Vd := Sample.validator) (Bc := Sample.bcrypt)
              (Jw := Sample.jwt) (Rt := Sample.runtime) (Mg := Sample.mongo)
              (DeletePost "p3") _ _ _ _ I Hrun) as (env & -> & Hin & _).
  exists env. split; [reflexivity | exact Hin].
Defined.

(** ** Uploads *)

Lemma fileFilter_accepts (f : Upload) :
  fileFilter f = true
  <-> In (mimetype f) ["image/png"; "image/jpg"; "image/jpeg"].
Proof.
  unfold fileFilter. rewrite !orb_true_iff, !String.eqb_eq. simpl.
  intuition congruence.
Qed.

Lemma multer_single_accepted {Rt : Runtime} (f : Upload) (req : Request)
    (st : State) :
  fileFilter f = true ->
  multer_single (Some f) req st
  = (Ok {| isAuth := isAuth req; userId := userId req;
           file := Some {| mf_path := stored_path (clock st) f |};
           oldPath := oldPath req |},
     {| db_users := db_users st; db_posts := db_posts st;
        fs_files := {[ stored_path (clock st) f ]} ∪ fs_files st;
        clock := clock st; oid_counter := oid_counter st;
        trace := trace st ++ [FsWrite (stored_path (clock st) f)] |}).
Proof. intros Hok. unfold multer_single. now rewrite Hok. Qed.

(** X14: an upload request without a valid token is answered with status
    500 and the message 'Not authenticated!' (the handler's error has no
    status of its own), and no old image is unlinked; but multer runs
    before the guard, so a file of an accepted MIME type (png, jpg, jpeg)
    has already been written under images and stays there. *)
Theorem unauthenticated_upload_is_500_and_keeps_the_file
    {Jw : Jwt} {Rt : Runtime}
    (authHeader : option string) (f : Upload) (old : option string)
    (st : State) :
  no_identity authHeader (clock st) ->
  In (mimetype f) ["image/png"; "image/jpg"; "image/jpeg"] ->
  let run := upload_request authHeader (Some f) old st in
  fst run = {| res_status := 500;
               res_json := [ ("message", VStr "Not authenticated!") ] |}
  /\ trace (snd run) = trace st ++ [FsWrite (stored_path (clock st) f)]
  /\ fs_files (snd run) = {[ stored_path (clock st) f ]} ∪ fs_files st
  /\ stored_path (clock st) f ∈ fs_files (snd run)
  /\ upload_request authHeader None old st
     = ({| res_status := 500;
           res_json := [ ("message", VStr "Not authenticated!") ] |}, st).
Proof.
  intros Hnone Hmime run. apply fileFilter_accepts in Hmime.
  assert (Hrun : run
                 = ({| res_status := 500;
                       res_json := [("message", VStr "Not authenticated!")] |},
                    {| db_users := db_users st; db_posts := db_posts st;
                       fs_files := {[ stored_path (clock st) f ]} ∪ fs_files st;
                       clock := clock st; oid_counter := oid_counter st;
                       trace := trace st
                                ++ [FsWrite (stored_path (clock st) f)] |})).
  { subst run. unfold upload_request.
    rewrite (multer_single_accepted f _ st Hmime). cbn [clock].
    now rewrite (auth_no_identity _ _ _ Hnone). }
  rewrite Hrun. cbn [fst snd trace fs_files].
  repeat split.
  - set_solver.
  - unfold upload_request. simpl.
    now rewrite (auth_no_identity _ _ _ Hnone).
Qed.

Lemma unauthenticated_upload_is_500_and_keeps_the_file_witness :
  let run := upload_request (Jw := Sample.jwt) (Rt := Sample.runtime) None
               (Some {| originalname := "cat.png"; mimetype := "image/png" |})
               (Some "images/one.png") Sample.store in
  res_status (fst run) = 500
  /\ trace (snd run) = [FsWrite "images/2019-03-01T10:00:00.000Z-cat.png"].
Proof.
  intros run.
  destruct (unauthenticated_upload_is_500_and_keeps_the_file
              (Jw := Sample.jwt) (Rt := Sample.runtime) None
              {| originalname := "cat.png"; mimetype := "image/png" |}
              (Some "images/one.png") Sample.store I)
    as (Hres & Htrace & _).
  - left. reflexivity.
  - subst run. rewrite Hres, Htrace. split; reflexivity.
Defined.

(** X15: an upload request with a valid token and a file of an accepted
    MIME type is answered with status 201 and the path of the stored file,
    [images/<ISO time>-<original name>]; the file is written first, and
    the old image is unlinked after it exactly when the oldPath field is
    present and not empty. *)
Theorem accepted_upload_stores_then_unlinks
    {Jw : Jwt} {Rt : Runtime}
    (authHeader : option string) (f : Upload) (old : option string)
    (st : State) (d : TokenPayload) :
  identifies authHeader (clock st) d ->
  In (mimetype f) ["image/png"; "image/jpg"; "image/jpeg"] ->
  let run := upload_request authHeader (Some f) old st in
  let path := stored_path (clock st) f in
  fst run = {| res_status := 201;
               res_json := [ ("message", VStr "File stored.");
                             ("filePath", VStr path) ] |}
  /\ match old with
     | Some o =>
         if truthy_string o then
           trace (snd run)
           = trace st ++ [FsWrite path; FsUnlink (image_path o)]
           /\ fs_files (snd run)
              = ({[ path ]} ∪ fs_files st) ∖ {[ image_path o ]}
         else
           trace (snd run) = trace st ++ [FsWrite path]
           /\ fs_files (snd run) = {[ path ]} ∪ fs_files st
     | None =>
         trace (snd run) = trace st ++ [FsWrite path]
         /\ fs_files (snd run) = {[ path ]} ∪ fs_files st
     end
  /\ db_users (snd run) = db_users st /\ db_posts (snd run) = db_posts st.
Proof.
  intros Hid Hmime run path. apply fileFilter_accepts in Hmime.
  subst run. unfold upload_request.
  rewrite (multer_single_accepted f _ st Hmime). cbn [clock].
  rewrite (auth_identifies _ _ _ _ Hid).
  unfold put_post_image, with_auth, incoming. cbn [isAuth file oldPath negb].
  destruct old as [o |]; [destruct (truthy_string o) |].
  - unfold clearImage, fs_unlink. run_async.
    rewrite <- app_assoc. repeat split.
  - run_async. repeat split.
  - run_async. repeat split.
Qed.

Lemma accepted_upload_stores_then_unlinks_witness :
  let run := upload_request (Jw := Sample.jwt) (Rt := Sample.runtime)
               (Some "Bearer jwt.a1")
               (Some {| originalname := "new.png"; mimetype := "image/png" |})
               (Some "images/one.png") Sample.store in
  res_status (fst run) = 201
  /\ trace (snd run)
     = [ FsWrite "images/2019-03-01T10:00:00.000Z-new.png";
         FsUnlink "/srv/util/../images/one.png" ].
Proof.
  intros run.
  destruct (accepted_upload_stores_then_unlinks
              (Jw := Sample.jwt) (Rt := Sample.runtime)
              (Some "Bearer jwt.a1")
              {| originalname := "new.png"; mimetype := "image/png" |}
              (Some "images/one.png") Sample.store
              {| tp_userId := "a1"; tp_email := "" |})
    as (Hres & [Htrace _] & _).
  - exists "Bearer jwt.a1". repeat split. discriminate.
  - left. reflexivity.
  - subst run. rewrite Hres, Htrace. split; reflexivity.
Defined.

(** ** Reading the pages in turn *)

Lemma take_then_two {A} (n : nat) (l : list A) :
  take n l ++ take 2 (drop n l) = take (n + 2) l.
Proof.
  revert l. induction n as [| n IH]; intros l; [reflexivity |].
  destruct l as [| a l]; [reflexivity |].
  simpl. f_equal. apply IH.
Qed.

Lemma page_slice_nth (k : nat) (l : list Post.t) :
  page_slice (Z.of_nat (S k)) l = take 2 (drop (2 * k) l).
Proof.
  unfold page_slice. do 2 f_equal. lia.
Qed.

Lemma pages_concat (m : nat) (l : list Post.t) :
  concat (map (fun k => page_slice (Z.of_nat (S k)) l) (seq 0 m))
  = take (2 * m) l.
Proof.
  induction m as [| m IH]; [reflexivity |].
  rewrite seq_S, map_app, concat_app, IH. simpl.
  rewrite app_nil_r, page_slice_nth, take_then_two.
  f_equal. lia.
Qed.

(** X16: for an authenticated caller the pages 1, 2, ..., m of the posts
    query, read one after the other on the same collection, are the first
    2*m posts of the collection sorted newest first: no post is shown
    twice and none is skipped; once 2*m reaches the size of the collection
    the pages together are the whole collection. *)
Theorem pages_partition_the_collection
    {Rt : Runtime} {Mg : Mongo} (req : Request) (st : State) (m : nat) :
  isAuth req = true ->
  let pages :=
    concat (map (fun k =>
                   page_posts (fst (posts (Some (Z.of_nat (S k))) req st)))
                (seq 0 m)) in
  pages = map (rendered st) (take (2 * m) (sort_desc (db_posts st)))
  /\ ((length (db_posts st) <= 2 * m)%nat ->
      pages = map (rendered st) (sort_desc (db_posts st)))
  /\ Permutation (sort_desc (db_posts st)) (db_posts st).
Proof.
  intros Hauth pages.
  assert (Hpages : pages
                   = map (rendered st)
                         (take (2 * m) (sort_desc (db_posts st)))).
  { subst pages. rewrite <- pages_concat, concat_map, map_map.
    f_equal. apply map_ext. intros k.
    rewrite (posts_run (Z.of_nat (S k)) req st Hauth) by lia.
    reflexivity. }
  split; [exact Hpages |]. split; [| apply sort_desc_perm].
  intros Hall. rewrite Hpages. f_equal. apply take_ge.
  rewrite (Permutation_length (sort_desc_perm _)). exact Hall.
Qed.

Lemma pages_partition_the_collection_witness :
  concat (map (fun k =>
                 page_posts
                   (fst (posts (Rt := Sample.runtime) (Mg := Sample.mongo)
                           (Some (Z.of_nat (S k))) (Sample.as_user "a1")
                           Sample.store)))
              (seq 0 2))
  = map (rendered (Rt := Sample.runtime) Sample.store)
        [Sample.post2; Sample.post3; Sample.post1].
Proof.
  destruct (pages_partition_the_collection
              (Rt := Sample.runtime) (Mg := Sample.mongo)
              (Sample.as_user "a1") Sample.store 2 eq_refl)
    as (_ & Hall & _).
  apply Hall. simpl. lia.
Defined.

(** ** After a deletion *)

Lemma remove_by_id_not_found (id : string) (ps : list Post.t) :
  List.NoDup (map (fun p => toString (Post._id p)) ps) ->
  List.find (fun p => has_id id (Post._id p)) (remove_by_id id ps) = None.
Proof.
  induction ps as [| p ps IH]; intros Hnd; [reflexivity |].
  inversion Hnd as [| k ks Hnotin Hnd']; subst. simpl.
  destruct (has_id id (Post._id p)) eqn:Hid.
  - apply String.eqb_eq in Hid.
    destruct (List.find _ ps) as [q |] eqn:Hq; [| reflexivity].
    apply find_some in Hq as [Hin Hq]. apply String.eqb_eq in Hq.
    exfalso. apply Hnotin. rewrite Hid, <- Hq.
    now apply (in_map (fun p => toString (Post._id p))).
  - simpl. rewrite Hid. now apply IH.
Qed.

Lemma remove_by_id_other (id id' : string) (ps : list Post.t) :
  id' <> id ->
  List.find (fun p => has_id id' (Post._id p)) (remove_by_id id ps)
  = List.find (fun p => has_id id' (Post._id p)) ps.
Proof.
  intros Hother. induction ps as [| p ps IH]; [reflexivity |]. simpl.
  destruct (has_id id (Post._id p)) eqn:Hid.
  - apply String.eqb_eq in Hid.
    assert (Hno : has_id id' (Post._id p) = false).
    { apply String.eqb_neq. congruence. }
    now rewrite Hno.
  - simpl. now rewrite IH.
Qed.

(** X17: on a collection whose posts have distinct identifiers, a post
    that was deleted is gone for every later authenticated caller: the
    post query, updatePost and a second deletePost for the same id all
    fail with 404, while every other post is found as before. *)
Theorem deleted_post_is_not_found_again
    {Rt : Runtime} (id : string) (req req' : Request) (st st' : State)
    (b : bool) (postInput : option PostInputData) :
  deletePost id req st = (Ok b, st') ->
  List.NoDup (map (fun p => toString (Post._id p)) (db_posts st)) ->
  isAuth req' = true ->
  let missing :=
    {| message := "No post found!"; code := Some 404; data := None |} in
  post_by_id id st' = None
  /\ fst (post id req' st') = Throw missing
  /\ fst (updatePost id postInput req' st') = Throw missing
  /\ fst (deletePost id req' st') = Throw missing
  /\ (forall id', id' <> id -> post_by_id id' st' = post_by_id id' st).
Proof.
  intros Hrun Hnd Hauth missing.
  destruct (deletePost_success_inv _ _ _ _ _ Hrun)
    as (p & u & _ & _ & Hpost & _ & _ & _ & _ & _ & Hposts & _).
  pose proof (post_by_id_isValid _ _ _ Hpost) as Hv.
  assert (Hgone : post_by_id id st' = None).
  { rewrite (post_by_id_valid _ _ Hv), Hposts.
    now apply remove_by_id_not_found. }
  split; [exact Hgone |].
  split; [| split; [| split]].
  - unfold post. rewrite Hauth. simpl.
    unfold bind at 1. now rewrite (Post_findById_run _ _ Hv), Hgone.
  - now rewrite updatePost_missing.
  - now rewrite deletePost_missing.
  - intros id' Hother. destruct (isValid id') eqn:Hv';
      [| now rewrite !post_by_id_invalid].
    rewrite !post_by_id_valid by exact Hv'. rewrite Hposts.
    now apply remove_by_id_other.
Qed.

Lemma deleted_post_is_not_found_again_witness :
  let st' := snd (deletePost (Rt := Sample.runtime) "p1"
                    (Sample.as_user "a1") Sample.store) in
  fst (post (Rt := Sample.runtime) "p1" (Sample.as_user "b2") st')
  = Throw {| message := "No post found!"; code := Some 404; data := None |}
  /\ post_by_id (Rt := Sample.runtime) "p2" st' = Some Sample.post2.
Proof.
  intros st'.
  destruct (deletePost (Rt := Sample.runtime) "p1" (Sample.as_user "a1")
              Sample.store) as [[b | e] st1] eqn:Hrun;
    [| vm_compute in Hrun; discriminate].
  assert (Hnd : List.NoDup (map (fun p => toString (Post._id p))
                           (db_posts Sample.store))).
  { simpl. repeat constructor; simpl; intuition discriminate. }
  destruct (deleted_post_is_not_found_again (Rt := Sample.runtime)
              "p1" (Sample.as_user "a1") (Sample.as_user "b2")
              Sample.store st1 b None Hrun Hnd eq_refl)
    as (_ & Hpost & _ & _ & Hothers).
  subst st'. cbn [snd]. split; [exact Hpost |].
  rewrite Hothers by discriminate. reflexivity.
Defined.

(** ** Posts and post sets agree in every reachable store *)

Lemma toString_inj (a b : ObjectId) : toString a = toString b -> a = b.
Proof. destruct a, b. simpl. now intros ->. Qed.

Lemma has_id_toString (o : ObjectId) : has_id (toString o) o = true.
Proof. unfold has_id. apply String.eqb_refl. Qed.

Lemma same_id_same_post (ps : list Post.t) (p q : Post.t) :
  List.NoDup (map (fun p => toString (Post._id p)) ps) ->
  In p ps -> In q ps -> Post._id p = Post._id q -> p = q.
Proof.
  induction ps as [| a ps IH]; intros Hnd Hp Hq Hid; [easy |].
  inversion Hnd as [| k ks Hnotin Hnd']; subst.
  destruct Hp as [-> | Hp], Hq as [-> | Hq]; auto.
  - exfalso. apply Hnotin. rewrite Hid.
    now apply (in_map (fun p => toString (Post._id p))).
  - exfalso. apply Hnotin. rewrite <- Hid.
    now apply (in_map (fun p => toString (Post._id p))).
Qed.

Lemma in_users_after_save (u x : User.t) (us : list User.t) :
  In x (users_after_save u us) ->
  x = u \/ (In x us /\ ObjectId_eqb (User._id x) (User._id u) = false).
Proof.
  unfold users_after_save. intros Hin.
  apply in_map_iff in Hin as (y & Hy & Hin).
  destruct (ObjectId_eqb (User._id y) (User._id u)) eqn:Hsame;
    subst; auto.
Qed.

Lemma find_after_save_same (u old : User.t) (us : list User.t) :
  List.find (fun x => has_id (toString (User._id u)) (User._id x)) us
  = Some old ->
  List.find (fun x => has_id (toString (User._id u)) (User._id x))
            (users_after_save u us) = Some u.
Proof.
  intros Hfind.
  apply (find_replaced_same (fun x => toString (User._id x)) u old us Hfind).
Qed.

Lemma find_after_save_other (id : string) (u : User.t) (us : list User.t) :
  id <> toString (User._id u) ->
  List.find (fun x => has_id id (User._id x)) (users_after_save u us)
  = List.find (fun x => has_id id (User._id x)) us.
Proof.
  intros Hother.
  apply (find_replaced_other (fun x => toString (User._id x)) id u us Hother).
Qed.

Lemma consistent_more_ids {Rt : Runtime} us ps c c' :
  consistent_at us ps c -> (c <= c')%nat -> consistent_at us ps c'.
Proof.
  intros (Hnd & Hgen & Hval & Hback & Hrefs) Hle.
  repeat split; auto.
  intros p Hin. destruct (Hgen p Hin) as (k & Hk & Hid).
  exists k. split; [lia | exact Hid].
Qed.

Lemma consistent_add_user {Rt : Runtime} us ps c (u : User.t) :
  consistent_at us ps c ->
  User.valid u = true -> User.posts u = [] ->
  consistent_at (us ++ [u]) ps c.
Proof.
  intros (Hnd & Hgen & Hval & Hback & Hrefs) Hvalid Hnone.
  repeat split; auto.
  - intros x Hin. apply in_app_or in Hin as [Hin | [<- | []]]; auto.
  - intros p Hin. destruct (Hback p Hin) as (v & Hfind & Href).
    exists v. split; [now apply find_app_some | exact Href].
  - intros x r Hin Hr. apply in_app_or in Hin as [Hin | [<- | []]].
    + now apply Hrefs.
    + rewrite Hnone in Hr. destruct Hr.
Qed.

(** The save of a loaded user whose post set has not changed. *)
Lemma consistent_save_user {Rt : Runtime} us ps c (uid : string)
    (u u' : User.t) :
  consistent_at us ps c ->
  List.find (fun x => has_id uid (User._id x)) us = Some u ->
  User._id u' = User._id u -> User.valid u' = true ->
  User.posts u' = User.posts u ->
  consistent_at (users_after_save u' us) ps c.
Proof.
  intros (Hnd & Hgen & Hval & Hback & Hrefs) Hfind Hid Hvalid Hposts.
  pose proof Hfind as Hu. apply find_some in Hu as [Hu Hkey].
  apply String.eqb_eq in Hkey. subst uid.
  repeat split; auto.
  - intros x Hin. apply in_users_after_save in Hin as [-> | [Hin _]]; auto.
  - intros p Hin. destruct (Hback p Hin) as (v & Hv & Href).
    destruct (String.eqb_spec (toString (Post.creator p))
                (toString (User._id u'))) as [Hsame | Hother].
    + exists u'. rewrite Hsame. split.
      * apply (find_after_save_same u' u). now rewrite Hid.
      * rewrite Hsame, Hid, Hfind in Hv. injection Hv as <-.
        now rewrite Hposts.
    + exists v. split; [| exact Href].
      now rewrite find_after_save_other.
  - intros x r Hin Hr.
    apply in_users_after_save in Hin as [-> | [Hin _]].
    + rewrite Hposts in Hr. rewrite Hid. now apply Hrefs.
    + now apply Hrefs.
Qed.

(** The two saves of createPost: the new post, then its creator with the
    reference pushed. *)
Lemma consistent_create_post {Rt : Runtime} us ps c (uid : string)
    (u : User.t) (p : Post.t) :
  generates_distinct ->
  consistent_at us ps c ->
  List.find (fun x => has_id uid (User._id x)) us = Some u ->
  Post._id p = new_ObjectId c -> Post.creator p = User._id u ->
  consistent_at (users_after_save (pushed (Post._id p) u) us) (ps ++ [p])
                (S c).
Proof.
  intros Hinj (Hnd & Hgen & Hval & Hback & Hrefs) Hfind Hid Hcreator.
  pose proof Hfind as Hu. apply find_some in Hu as [Hu Hkey].
  apply String.eqb_eq in Hkey. subst uid.
  set (u' := pushed (Post._id p) u).
  assert (Hfresh : forall q, In q ps -> Post._id q <> Post._id p).
  { intros q Hq Hsame. destruct (Hgen q Hq) as (k & Hk & Hqid).
    rewrite Hsame, Hid in Hqid. apply Hinj in Hqid. lia. }
  repeat split.
  - rewrite map_app. simpl. apply List.NoDup_app.
    + exact Hnd.
    + constructor; [intros [] | constructor].
    + intros k Hk [<- | []].
      apply in_map_iff in Hk as (q & Hq & Hin).
      apply toString_inj in Hq. now apply (Hfresh q).
  - intros q Hin. apply in_app_or in Hin as [Hin | [<- | []]].
    + destruct (Hgen q Hin) as (k & Hk & Hqid). exists k. split; [lia | easy].
    + exists c. split; [lia | exact Hid].
  - intros x Hin. apply in_users_after_save in Hin as [-> | [Hin _]]; auto.
    unfold u', User.valid. simpl. apply (Hval u Hu).
  - intros q Hin.
    assert (Hsave : List.find
                      (fun x => has_id (toString (User._id u)) (User._id x))
                      (users_after_save u' us) = Some u').
    { apply (find_after_save_same u' u). exact Hfind. }
    apply in_app_or in Hin as [Hin | [<- | []]].
    + destruct (Hback q Hin) as (v & Hv & Href).
      destruct (String.eqb_spec (toString (Post.creator q))
                  (toString (User._id u))) as [Hsame | Hother].
      * exists u'. rewrite Hsame. split; [exact Hsave |].
        rewrite Hsame, Hfind in Hv. injection Hv as <-.
        unfold u'. simpl. apply in_or_app. now left.
      * exists v. split; [| exact Href].
        now rewrite find_after_save_other.
    + exists u'. rewrite Hcreator. split; [exact Hsave |].
      unfold u'. simpl. apply in_or_app. right. now left.
  - intros x r Hin Hr.
    apply in_users_after_save in Hin as [-> | [Hin _]].
    + unfold u' in Hr. simpl in Hr.
      apply in_app_or in Hr as [Hr | [<- | []]].
      * destruct (Hrefs u r Hu Hr) as (q & Hq & Hqid & Hqc).
        exists q. split; [apply in_or_app; now left | now split].
      * exists p. split; [apply in_or_app; right; now left |].
        split; [reflexivity | now rewrite Hcreator].
    + destruct (Hrefs x r Hin Hr) as (q & Hq & Hqid & Hqc).
      exists q. split; [apply in_or_app; now left | now split].
Qed.

(** The save of a loaded post: identifier and creator are kept. *)
Lemma consistent_update_post {Rt : Runtime} us ps c (id : string)
    (p saved : Post.t) :
  consistent_at us ps c ->
  List.find (fun q => has_id id (Post._id q)) ps = Some p ->
  Post._id saved = Post._id p -> Post.creator saved = Post.creator p ->
  consistent_at us
    (map (fun q => if ObjectId_eqb (Post._id q) (Post._id p)
                   then saved else q) ps) c.
Proof.
  intros (Hnd & Hgen & Hval & Hback & Hrefs) Hfind Hid Hcreator.
  pose proof Hfind as Hp. apply find_some in Hp as [Hp _].
  set (ps' := map _ ps).
  assert (Hin' : forall q, In q ps' ->
                   exists q0, In q0 ps /\ Post._id q = Post._id q0
                              /\ Post.creator q = Post.creator q0).
  { intros q Hq. apply in_map_iff in Hq as (q0 & Hq0 & Hin).
    destruct (ObjectId_eqb (Post._id q0) (Post._id p)) eqn:Hsame.
    - subst q. exists p. auto.
    - subst q. exists q0. auto. }
  repeat split; auto.
  - assert (Hids : map (fun q => toString (Post._id q)) ps'
                   = map (fun q => toString (Post._id q)) ps).
    { unfold ps'. rewrite map_map. apply map_ext. intros q.
      destruct (ObjectId_eqb (Post._id q) (Post._id p)) eqn:Hsame;
        [| reflexivity].
      apply String.eqb_eq in Hsame. now rewrite Hid. }
    now rewrite Hids.
  - intros q Hq. destruct (Hin' q Hq) as (q0 & Hq0 & -> & _). now apply Hgen.
  - intros q Hq. destruct (Hin' q Hq) as (q0 & Hq0 & -> & ->).
    now apply Hback.
  - intros x r Hx Hr. destruct (Hrefs x r Hx Hr) as (q & Hq & Hqid & Hqc).
    destruct (ObjectId_eqb (Post._id q) (Post._id p)) eqn:Hsame.
    + apply String.eqb_eq, toString_inj in Hsame.
      assert (q = p) by now apply (same_id_same_post ps). subst q.
      exists saved. split; [| split; congruence].
      apply in_map_iff. exists p. split; [| exact Hp].
      unfold ObjectId_eqb. now rewrite String.eqb_refl.
    + exists q. split; [| now split].
      apply in_map_iff. exists q. split; [now rewrite Hsame | exact Hq].
Qed.

Lemma in_remove_by_id (id : string) (ps : list Post.t) (q : Post.t) :
  In q (remove_by_id id ps) -> In q ps.
Proof.
  induction ps as [| a ps IH]; simpl; [easy |].
  destruct (has_id id (Post._id a)); [now right |].
  intros [<- | Hin]; [now left | right; now apply IH].
Qed.

Lemma in_remove_by_id_other (id : string) (ps : list Post.t) (q : Post.t) :
  In q ps -> has_id id (Post._id q) = false -> In q (remove_by_id id ps).
Proof.
  induction ps as [| a ps IH]; simpl; [easy |].
  intros [-> | Hin] Hother.
  - rewrite Hother. now left.
  - destruct (has_id id (Post._id a)); [exact Hin | right; now apply IH].
Qed.

Lemma remove_by_id_nodup (id : string) (ps : list Post.t) :
  List.NoDup (map (fun p => toString (Post._id p)) ps) ->
  List.NoDup (map (fun p => toString (Post._id p)) (remove_by_id id ps)).
Proof.
  induction ps as [| a ps IH]; intros Hnd; [constructor |].
  inversion Hnd as [| k ks Hnotin Hnd']; subst. simpl.
  destruct (has_id id (Post._id a)); [exact Hnd' |].
  simpl. constructor; [| now apply IH].
  intros Hin. apply Hnotin.
  apply in_map_iff in Hin as (q & Hq & Hin).
  apply in_map_iff. exists q. split; [exact Hq |].
  now apply in_remove_by_id in Hin.
Qed.

Lemma removed_have_other_ids (id : string) (ps : list Post.t) (q : Post.t) :
  List.NoDup (map (fun p => toString (Post._id p)) ps) ->
  In q (remove_by_id id ps) -> has_id id (Post._id q) = false.
Proof.
  intros Hnd Hin.
  apply (find_none _ _ (remove_by_id_not_found id ps Hnd) q Hin).
Qed.

(** The removal of deletePost and the save of the creator with the
    reference pulled. *)
Lemma consistent_delete_post {Rt : Runtime} us ps c (id : string)
    (p : Post.t) (u : User.t) :
  consistent_at us ps c ->
  List.find (fun q => has_id id (Post._id q)) ps = Some p ->
  List.find (fun x => has_id (toString (Post.creator p)) (User._id x)) us
  = Some u ->
  consistent_at (users_after_save (pulled id u) us) (remove_by_id id ps) c.
Proof.
  intros (Hnd & Hgen & Hval & Hback & Hrefs) Hfind Hfu.
  pose proof Hfind as Hp. apply find_some in Hp as [Hp Hpid].
  pose proof Hfu as Hu. apply find_some in Hu as [Hu Hkey].
  apply String.eqb_eq in Hkey.
  set (u' := pulled id u).
  repeat split.
  - now apply remove_by_id_nodup.
  - intros q Hq. apply Hgen. now apply in_remove_by_id in Hq.
  - intros x Hin. apply in_users_after_save in Hin as [-> | [Hin _]]; auto.
    unfold u', User.valid. simpl. apply (Hval u Hu).
  - intros q Hq.
    pose proof (removed_have_other_ids id ps q Hnd Hq) as Hother.
    apply in_remove_by_id in Hq.
    destruct (Hback q Hq) as (v & Hv & Href).
    destruct (String.eqb_spec (toString (Post.creator q))
                (toString (User._id u))) as [Hsame | Hdiff].
    + exists u'. rewrite Hsame. split.
      * apply (find_after_save_same u' u). simpl.
        now rewrite Hkey.
      * rewrite Hsame, Hkey, Hfu in Hv. injection Hv as <-.
        unfold u', pulled, pull. simpl. apply filter_In.
        split; [exact Href | now rewrite Hother].
    + exists v. split; [| exact Href].
      now rewrite find_after_save_other.
  - intros x r Hin Hr.
    apply in_users_after_save in Hin as [-> | [Hin Hnot]].
    + unfold u', pulled, pull in Hr. simpl in Hr.
      apply filter_In in Hr as [Hr Hkeep]. apply negb_true_iff in Hkeep.
      destruct (Hrefs u r Hu Hr) as (q & Hq & Hqid & Hqc).
      exists q. split; [| now split].
      apply in_remove_by_id_other; [exact Hq | now rewrite Hqid].
    + destruct (Hrefs x r Hin Hr) as (q & Hq & Hqid & Hqc).
      exists q. split; [| now split].
      apply in_remove_by_id_other; [exact Hq |].
      destruct (has_id id (Post._id q)) eqn:Hsame; [| reflexivity].
      exfalso.
      assert (q = p).
      { apply (same_id_same_post ps); auto.
        apply toString_inj. apply String.eqb_eq in Hsame, Hpid. congruence. }
      subst q. unfold ObjectId_eqb in Hnot. apply String.eqb_neq in Hnot.
      apply Hnot. unfold u'. simpl. congruence.
Qed.

Ltac consistent_unchanged Hc :=
  first [ exact Hc | eapply consistent_more_ids; [exact Hc | simpl; lia] ].

Lemma createUser_keeps_consistent
    {Vd : Validator} {Bc : Bcrypt} {Rt : Runtime}
    userInput req st (r : Result Obj) st' :
  consistent st -> createUser userInput req st = (r, st') -> consistent st'.
Proof.
  intros Hc Hrun. unfold createUser in Hrun. unfold_store Hrun.
  repeat branch_on Hrun; injection Hrun as <- <-;
    try (consistent_unchanged Hc; fail).
  unfold consistent. simpl.
  eapply consistent_more_ids with (c := oid_counter st); [| lia].
  apply consistent_add_user; [exact Hc | | reflexivity].
  match goal with H : negb _ = false |- _ => apply negb_false_iff in H end.
  assumption.
Qed.

Lemma login_keeps_consistent
    {Bc : Bcrypt} {Jw : Jwt} {Rt : Runtime}
    email password st (r : Result AuthData) st' :
  consistent st -> login email password st = (r, st') -> consistent st'.
Proof.
  intros Hc Hrun. unfold login in Hrun. unfold_store Hrun.
  repeat branch_on Hrun; injection Hrun as <- <-; exact Hc.
Qed.

Lemma posts_keeps_consistent
    {Rt : Runtime} {Mg : Mongo} page req st (r : Result PostData) st' :
  consistent st -> posts page req st = (r, st') -> consistent st'.
Proof.
  intros Hc Hrun. unfold posts in Hrun.
  destruct (negb (isAuth req)).
  - injection Hrun as <- <-. exact Hc.
  - unfold Post_countDocuments, Post_find_page, bind, log, get_state, ret,
      throw in Hrun.
    simpl in Hrun.
    destruct (_ <? 0).
    + destruct (find_negative_skip _ _ _).
      * rewrite populate_all_run in Hrun. injection Hrun as <- <-. exact Hc.
      * injection Hrun as <- <-. exact Hc.
    + rewrite populate_all_run in Hrun. injection Hrun as <- <-. exact Hc.
Qed.

Lemma post_keeps_consistent
    {Rt : Runtime} id req st (r : Result Obj) st' :
  consistent st -> post id req st = (r, st') -> consistent st'.
Proof.
  intros Hc Hrun. unfold post in Hrun. unfold_store Hrun.
  repeat branch_on Hrun; injection Hrun as <- <-; exact Hc.
Qed.

Lemma user_keeps_consistent {Rt : Runtime} req st (r : Result Obj) st' :
  consistent st -> user req st = (r, st') -> consistent st'.
Proof.
  intros Hc Hrun. unfold user in Hrun. unfold_store Hrun.
  destruct (userId req) as [uid |];
    repeat branch_on Hrun; injection Hrun as <- <-; exact Hc.
Qed.

Lemma valid_of_found {Rt : Runtime} us ps c (uid : string) (u : User.t) :
  consistent_at us ps c ->
  List.find (fun x => has_id uid (User._id x)) us = Some u ->
  User.valid u = true.
Proof.
  intros (_ & _ & Hval & _) Hfind. apply Hval.
  now apply find_some in Hfind.
Qed.

Lemma updateStatus_keeps_consistent
    {Rt : Runtime} status req st (r : Result Obj) st' :
  consistent st -> updateStatus status req st = (r, st') -> consistent st'.
Proof.
  intros Hc Hrun. unfold updateStatus in Hrun.
  destruct (negb (isAuth req)); [injection Hrun as <- <-; exact Hc |].
  unfold bind at 1 in Hrun. rewrite User_findById_caller in Hrun.
  unfold caller in Hrun.
  destruct (userId req) as [uid |]; [| injection Hrun as <- <-; exact Hc].
  destruct (user_by_id uid st) as [u |] eqn:Hu;
    [| injection Hrun as <- <-; exact Hc].
  pose proof (valid_of_found _ _ _ _ _ Hc Hu) as Hvalid.
  unfold bind at 1, User_save in Hrun.
  change (User.valid _) with (User.valid u) in Hrun.
  rewrite Hvalid in Hrun. unfold_store Hrun. injection Hrun as <- <-.
  unfold consistent. simpl.
  apply (consistent_save_user _ _ _ uid u (with_status status u));
    auto.
Qed.

Lemma updatePost_keeps_consistent
    {Rt : Runtime} id postInput req st (r : Result Obj) st' :
  consistent st ->
  updatePost id postInput req st = (r, st') -> consistent st'.
Proof.
  intros Hc Hrun. unfold updatePost in Hrun.
  destruct (negb (isAuth req)); [injection Hrun as <- <-; exact Hc |].
  unfold bind at 1 in Hrun.
  destruct (isValid id) eqn:Hv;
    [| rewrite (Post_findById_cast _ _ Hv) in Hrun;
       injection Hrun as <- <-; exact Hc].
  rewrite (Post_findById_run _ _ Hv) in Hrun.
  destruct (post_by_id id st) as [p |] eqn:Hp;
    [| injection Hrun as <- <-; exact Hc].
  pose proof Hp as Hfind. rewrite (post_by_id_valid _ _ Hv) in Hfind.
  unfold bind at 1 in Hrun. rewrite populate_run in Hrun. simpl in Hrun.
  destruct (user_by_id _ _) as [u |];
    [| injection Hrun as <- <-; exact Hc].
  destruct (userId req) as [uid |]; [| injection Hrun as <- <-; exact Hc].
  destruct (negb _); [injection Hrun as <- <-; exact Hc |].
  destruct postInput as [input |]; [| injection Hrun as <- <-; exact Hc].
  destruct (0 <? _)%nat; [injection Hrun as <- <-; exact Hc |].
  unfold bind at 1, Post_save in Hrun.
  destruct (negb (Post.valid _)); [injection Hrun as <- <-; exact Hc |].
  unfold bind, get_state, log, set_posts, ret in Hrun. simpl in Hrun.
  injection Hrun as _ <-.
  unfold consistent. simpl.
  match goal with
  | |- context [stamp false ?now ?stored ?post] =>
      destruct (stamp_loaded_fields now stored post)
        as (Hid & _ & _ & _ & Hcr & _);
      simpl in Hid, Hcr;
      apply (consistent_update_post _ _ _ id p (stamp false now stored post)
               Hc Hfind Hid Hcr)
  end.
Qed.

Lemma createPost_keeps_consistent
    {Rt : Runtime} postInput req st (r : Result Obj) st' :
  generates_distinct ->
  consistent st -> createPost postInput req st = (r, st') -> consistent st'.
Proof.
  intros Hinj Hc Hrun. unfold createPost in Hrun.
  destruct (negb (isAuth req)); [injection Hrun as <- <-; exact Hc |].
  destruct postInput as [input |]; [| injection Hrun as <- <-; exact Hc].
  destruct (0 <? _)%nat; [injection Hrun as <- <-; exact Hc |].
  unfold bind at 1 in Hrun. rewrite User_findById_caller in Hrun.
  unfold caller in Hrun.
  destruct (userId req) as [uid |]; [| injection Hrun as <- <-; exact Hc].
  destruct (user_by_id uid st) as [u |] eqn:Hu;
    [| injection Hrun as <- <-; exact Hc].
  pose proof (valid_of_found _ _ _ _ _ Hc Hu) as Hvalid.
  unfold bind at 1, bump_counter in Hrun. simpl in Hrun.
  unfold bind at 1, Post_save in Hrun.
  destruct (negb (Post.valid _)).
  { injection Hrun as <- <-. unfold consistent. simpl.
    eapply consistent_more_ids; [exact Hc | lia]. }
  unfold bind, get_state, log, set_posts, ret, User_save in Hrun.
  simpl in Hrun.
  change (User.valid _) with (User.valid u) in Hrun.
  rewrite Hvalid in Hrun. simpl in Hrun.
  unfold bind, get_state, log, set_users, ret in Hrun. simpl in Hrun.
  injection Hrun as _ <-. unfold consistent. simpl.
  match goal with
  | |- consistent_at _ (_ ++ [?p]) _ =>
      exact (consistent_create_post _ _ _ uid u p Hinj Hc Hu eq_refl eq_refl)
  end.
Qed.

Lemma deletePost_keeps_consistent
    {Rt : Runtime} id req st (r : Result bool) st' :
  consistent st -> deletePost id req st = (r, st') -> consistent st'.
Proof.
  intros Hc Hrun. unfold deletePost in Hrun.
  destruct (negb (isAuth req)); [injection Hrun as <- <-; exact Hc |].
  unfold bind at 1 in Hrun.
  destruct (isValid id) eqn:Hv;
    [| rewrite (Post_findById_cast _ _ Hv) in Hrun;
       injection Hrun as <- <-; exact Hc].
  rewrite (Post_findById_run _ _ Hv) in Hrun.
  destruct (post_by_id id st) as [p |] eqn:Hp;
    [| injection Hrun as <- <-; exact Hc].
  pose proof Hp as Hfind. rewrite (post_by_id_valid _ _ Hv) in Hfind.
  destruct (userId req) as [uid |]; [| injection Hrun as <- <-; exact Hc].
  destruct (String.eqb (toString (Post.creator p)) uid) eqn:Hown;
    [| injection Hrun as <- <-; exact Hc].
  apply String.eqb_eq in Hown. subst uid. simpl in Hrun.
  assert (Hu : exists u,
             user_by_id (toString (Post.creator p)) st = Some u).
  { destruct Hc as (_ & _ & _ & Hback & _).
    destruct (Hback p (post_by_id_In _ _ _ Hp)) as (u & Hu & _).
    now exists u. }
  destruct Hu as [u Hu].
  pose proof (valid_of_found _ _ _ _ _ Hc Hu) as Hvalid.
  unfold bind, clearImage, fs_unlink, Post_findByIdAndRemove, User_findById,
    bind, log, get_state, set_files, set_posts, ret in Hrun.
  rewrite Hv in Hrun. simpl in Hrun.
  fold (user_by_id (toString (Post.creator p)) st) in Hrun.
  rewrite Hu in Hrun. unfold User_save in Hrun. simpl in Hrun.
  change (User.valid _) with (User.valid u) in Hrun.
  rewrite Hvalid in Hrun. simpl in Hrun.
  unfold bind, get_state, log, set_users, ret in Hrun. simpl in Hrun.
  injection Hrun as _ <-. unfold consistent. simpl.
  exact (consistent_delete_post _ _ _ id p u Hc Hfind Hu).
Qed.

Lemma dispatch_keeps_consistent
    {Vd : Validator} {Bc : Bcrypt} {Jw : Jwt} {Rt : Runtime} {Mg : Mongo}
    op req st :
  generates_distinct -> consistent st ->
  consistent (snd (dispatch op req st)).
Proof.
  intros Hinj Hc. destruct op; simpl; unfold bind, ret.
  - destruct (login _ _ st) as [[d | e] st'] eqn:Hrun;
      apply (login_keeps_consistent _ _ _ _ _ Hc Hrun).
  - destruct (posts _ _ st) as [[d | e] st'] eqn:Hrun;
      apply (posts_keeps_consistent _ _ _ _ _ Hc Hrun).
  - destruct (post _ _ st) as [[d | e] st'] eqn:Hrun;
      apply (post_keeps_consistent _ _ _ _ _ Hc Hrun).
  - destruct (user _ st) as [[d | e] st'] eqn:Hrun;
      apply (user_keeps_consistent _ _ _ _ Hc Hrun).
  - destruct (createUser _ _ st) as [[d | e] st'] eqn:Hrun;
      apply (createUser_keeps_consistent _ _ _ _ _ Hc Hrun).
  - destruct (createPost _ _ st) as [[d | e] st'] eqn:Hrun;
      apply (createPost_keeps_consistent _ _ _ _ _ Hinj Hc Hrun).
  - destruct (updatePost _ _ _ st) as [[d | e] st'] eqn:Hrun;
      apply (updatePost_keeps_consistent _ _ _ _ _ _ Hc Hrun).
  - destruct (deletePost _ _ st) as [[d | e] st'] eqn:Hrun;
      apply (deletePost_keeps_consistent _ _ _ _ _ Hc Hrun).
  - destruct (updateStatus _ _ st) as [[d | e] st'] eqn:Hrun;
      apply (updateStatus_keeps_consistent _ _ _ _ _ Hc Hrun).
Qed.

Lemma upload_request_keeps_counter
    {Jw : Jwt} {Rt : Runtime} authHeader part old st :
  oid_counter (snd (upload_request authHeader part old st)) = oid_counter st.
Proof.
  unfold upload_request, multer_single.
  destruct part as [f |]; [destruct (fileFilter f) |]; run_async.
  all: destruct (auth authHeader (clock st) _) as [req' | e | r];
    try reflexivity.
  all: unfold put_post_image; destruct (negb (isAuth req'));
    try reflexivity.
  all: destruct (file req') as [mf |]; try reflexivity.
  all: destruct (oldPath req') as [o |];
    [destruct (truthy_string o) |]; reflexivity.
Qed.

Lemma empty_store_consistent {Rt : Runtime} (now : Z) :
  consistent (empty_store now).
Proof.
  unfold consistent, consistent_at. simpl.
  repeat split; try constructor; intros; contradiction.
Qed.

Lemma createPost_post_save_orphan
    {Rt : Runtime} (input : PostInputData) (uid : string) (u : User.t)
    (st st1 : State) (p : Post.t) :
  generates_distinct -> consistent st ->
  user_by_id uid st = Some u ->
  createPost_post_save input u st = (Ok p, st1) ->
  ~ consistent st1.
Proof.
  intros Hinj (Hnd & Hgen & Hval & Hback & Hrefs) Hu Hrun Hc1.
  unfold createPost_post_save, bind at 1, bump_counter in Hrun.
  simpl in Hrun. unfold Post_save in Hrun.
  destruct (negb (Post.valid _)); [discriminate |].
  unfold bind, get_state, log, set_posts, ret in Hrun. simpl in Hrun.
  injection Hrun as <- <-.
  destruct Hc1 as (_ & _ & _ & Hback1 & _). simpl in Hback1.
  match type of Hback1 with
  | forall q, In q (_ ++ [?p]) -> _ =>
      destruct (Hback1 p) as (v & Hv & Href);
        [apply in_or_app; right; now left |]
  end.
  simpl in Hv, Href.
  pose proof (user_by_id_has_id _ _ _ Hu) as Hkey.
  unfold user_by_id in Hu. rewrite Hkey in Hv. rewrite Hu in Hv.
  injection Hv as <-.
  pose proof Hu as Hin. apply find_some in Hin as [Hin _].
  destruct (Hrefs u _ Hin Href) as (q & Hq & Hqid & _).
  destruct (Hgen q Hq) as (k & Hk & Hgenerated).
  rewrite Hqid in Hgenerated. apply Hinj in Hgenerated. lia.
Qed.

Lemma createPost_post_save_reached
    {Rt : Runtime} (input : PostInputData) (uid : string) (u : User.t)
    (req : Request) (st st1 : State) (p : Post.t) :
  consistent st -> user_by_id uid st = Some u ->
  createPost_post_save input u st = (Ok p, st1) ->
  isAuth req = true -> userId req = Some uid -> length_errors input = [] ->
  db_users st1 = db_users st
  /\ db_posts st1 = db_posts (snd (createPost (Some input) req st))
  /\ exists out, fst (createPost (Some input) req st) = Ok out.
Proof.
  intros Hc Hu Hrun Hauth Huid Hok.
  pose proof (valid_of_found _ _ _ _ _ Hc Hu) as Huvalid.
  unfold createPost_post_save, bind at 1, bump_counter in Hrun.
  simpl in Hrun. unfold Post_save in Hrun.
  destruct (Post.valid _) eqn:Hpvalid; [| discriminate]. simpl in Hrun.
  unfold bind, get_state, log, set_posts, ret in Hrun. simpl in Hrun.
  injection Hrun as <- <-.
  rewrite (createPost_run input req st uid u Hauth Huid Hok Hu Hpvalid
             Huvalid).
  simpl. split; [reflexivity |]. split; [reflexivity |]. now eexists.
Qed.

(** X18: the two sides of the relation between posts and users agree in
    every store the service reaches by whole requests, provided no
    ObjectId is generated twice and the store answers every call a request
    issues.  In the empty store, and after every GraphQL request and every
    upload request, whether the resolver returned or threw: the posts have
    distinct identifiers, every stored user passes the schema, every post
    is in the post set of the user found for its creator, and every
    reference in a post set is a stored post of that user.  The agreement
    is one of whole requests only: createPost writes the post and the
    creator's post set in two saves, and the store between them holds a
    post without its back reference, which is what would stay if the
    second save were never answered. *)
Theorem posts_and_post_sets_agree
    {Vd : Validator} {Bc : Bcrypt} {Jw : Jwt} {Rt : Runtime} {Mg : Mongo} :
  generates_distinct ->
  (forall now, consistent (empty_store now))
  /\ (forall authHeader op st,
        consistent st ->
        consistent (snd (graphql_request authHeader op st)))
  /\ (forall authHeader part old st,
        consistent st ->
        consistent (snd (upload_request authHeader part old st)))
  /\ (forall input uid u req st p st1,
        consistent st -> user_by_id uid st = Some u ->
        createPost_post_save input u st = (Ok p, st1) ->
        ~ consistent st1
        /\ (isAuth req = true -> userId req = Some uid ->
            length_errors input = [] ->
            db_users st1 = db_users st
            /\ db_posts st1 = db_posts (snd (createPost (Some input) req st))
            /\ exists out, fst (createPost (Some input) req st) = Ok out)).
Proof.
  intros Hinj. split; [apply empty_store_consistent | split; [| split]].
  - intros authHeader op st Hc. unfold graphql_request.
    destruct (auth authHeader (clock st) (incoming None))
      as [req | e | r]; [| exact Hc ..].
    unfold graphql.
    pose proof (dispatch_keeps_consistent op req st Hinj Hc) as Hkeep.
    destruct (dispatch op req st) as [[d | e] st']; exact Hkeep.
  - intros authHeader part old st Hc. unfold consistent.
    destruct (upload_request_keeps_collections authHeader part old st)
      as [-> ->].
    rewrite upload_request_keeps_counter. exact Hc.
  - intros input uid u req st p st1 Hc Hu Hrun. split.
    + exact (createPost_post_save_orphan input uid u st st1 p Hinj Hc Hu
               Hrun).
    + now apply (createPost_post_save_reached input uid u req st st1 p).
Qed.

Lemma length_repeated (c : ascii) (n : nat) :
  String.length (string_of_list_ascii (repeat c n)) = n.
Proof. induction n as [| n IH]; simpl; [reflexivity | now rewrite IH]. Qed.

Lemma sample_generates_distinct :
  generates_distinct (Rt := Sample.runtime).
Proof.
  intros j k Heq. apply (f_equal (fun o => String.length (toString o))) in Heq.
  cbn [Sample.runtime new_ObjectId toString] in Heq.
  rewrite !length_repeated in Heq. lia.
Qed.

Lemma posts_and_post_sets_agree_witness :
  let st :=
    snd (graphql_request (Vd := Sample.validator) (Bc := Sample.bcrypt)
           (Jw := Sample.jwt) (Rt := Sample.runtime) (Mg := Sample.mongo)
           None
           (CreateUser (Some {| ui_email := "dora@example.com";
                                ui_name := "Dora";
                                ui_password := "explorer" |}))
           (empty_store 0)) in
  let dora :=
    {| User._id := Oid "n"; User.email := "dora@example.com";
       User.password := "$2a$12$explorer"; User.name := "Dora";
       User.status := "I am new!"; User.posts := [] |} in
  let input :=
    {| pi_title := "Hello there"; pi_content := "First words";
       pi_imageUrl := "images/hello.png" |} in
  consistent (Rt := Sample.runtime) st
  /\ ~ consistent (Rt := Sample.runtime)
         (snd (createPost_post_save (Rt := Sample.runtime) input dora st)).
Proof.
  intros st dora input.
  destruct (posts_and_post_sets_agree
              (Vd := Sample.validator) (Bc := Sample.bcrypt)
              (Jw := Sample.jwt) (Rt := Sample.runtime) (Mg := Sample.mongo)
              sample_generates_distinct)
    as (Hempty & Hrequest & _ & Hbetween).
  assert (Hc : consistent (Rt := Sample.runtime) st)
    by apply Hrequest, Hempty.
  split; [exact Hc |].
  destruct (createPost_post_save (Rt := Sample.runtime) input dora st)
    as [[p | e] st1] eqn:Hrun; [| vm_compute in Hrun; discriminate].
  exact (proj1 (Hbetween input "n" dora Sample.anonymous st p st1 Hc eq_refl
                  Hrun)).
Defined.

(** X19: on a store where posts and post sets agree, the creator of a post
    who calls deletePost always succeeds, and nothing of the post is left:
    no post has the id any more, no user's post set holds a reference to
    it, and posts and post sets still agree. *)
Theorem owner_delete_leaves_nothing_behind
    {Rt : Runtime} (id : string) (req : Request) (st : State) (p : Post.t) :
  consistent st ->
  isAuth req = true ->
  post_by_id id st = Some p ->
  userId req = Some (toString (Post.creator p)) ->
  let run := deletePost id req st in
  fst run = Ok true
  /\ post_by_id id (snd run) = None
  /\ (forall u r, In u (db_users (snd run)) -> In r (User.posts u) ->
        toString r <> id)
  /\ consistent (snd run).
Proof.
  intros Hc Hauth Hp Huid run.
  assert (Hu : exists u,
             user_by_id (toString (Post.creator p)) st = Some u).
  { destruct Hc as (_ & _ & _ & Hback & _).
    destruct (Hback p (post_by_id_In _ _ _ Hp)) as (u & Hu & _).
    now exists u. }
  destruct Hu as [u Hu].
  pose proof (valid_of_found _ _ _ _ _ Hc Hu) as Hvalid.
  pose proof (deletePost_succeeds id req st p u Hauth Hp Huid Hu Hvalid)
    as Hok.
  subst run. destruct (deletePost id req st) as [r st'] eqn:Hrun.
  simpl in Hok. subst r. cbn [fst snd].
  pose proof (deletePost_keeps_consistent _ _ _ _ _ Hc Hrun) as Hc'.
  destruct (deletePost_success_inv _ _ _ _ _ Hrun)
    as (p' & u' & _ & _ & _ & _ & _ & _ & _ & _ & Hposts & _).
  assert (Hnd : List.NoDup (map (fun q => toString (Post._id q))
                                (db_posts st))) by apply Hc.
  pose proof (post_by_id_isValid _ _ _ Hp) as Hv.
  assert (Hgone : post_by_id id st' = None).
  { rewrite (post_by_id_valid _ _ Hv), Hposts.
    now apply remove_by_id_not_found. }
  split; [reflexivity |]. split; [exact Hgone |].
  split; [| exact Hc'].
  intros x r Hx Hr Hsame.
  destruct Hc' as (_ & _ & _ & _ & Hrefs).
  destruct (Hrefs x r Hx Hr) as (q & Hq & Hqid & _).
  rewrite (post_by_id_valid _ _ Hv) in Hgone.
  apply (find_none _ _ Hgone q) in Hq.
  unfold has_id in Hq. rewrite Hqid, Hsame, String.eqb_refl in Hq.
  discriminate.
Qed.

Lemma grown_store_consistent : consistent (Rt := Sample.runtime) grown_store.
Proof.
  unfold grown_store.
  match goal with
  | |- consistent (snd (createPost ?i ?r ?s)) =>
      destruct (createPost i r s) as [res st2] eqn:Hpost;
      apply (createPost_keeps_consistent _ _ _ _ _
               sample_generates_distinct) in Hpost; [exact Hpost |]
  end.
  match goal with
  | |- consistent (snd (createUser ?i ?r ?s)) =>
      destruct (createUser i r s) as [res1 st1] eqn:Huser;
      apply (createUser_keeps_consistent _ _ _ _ _
               (empty_store_consistent 0)) in Huser; exact Huser
  end.
Qed.

Lemma owner_delete_leaves_nothing_behind_witness :
  let run := deletePost (Rt := Sample.runtime) "nn"
               {| isAuth := true; userId := Some "n"; file := None;
                  oldPath := None |} grown_store in
  fst run = Ok true
  /\ post_by_id (Rt := Sample.runtime) "nn" (snd run) = None.
Proof.
  intros run.
  assert (Hp : exists p, post_by_id (Rt := Sample.runtime) "nn" grown_store
                         = Some p
                         /\ toString (Post.creator p) = "n").
  { eexists. split; [vm_compute; reflexivity | reflexivity]. }
  destruct Hp as (p & Hp & Hcreator).
  destruct (owner_delete_leaves_nothing_behind (Rt := Sample.runtime)
              "nn" {| isAuth := true; userId := Some "n"; file := None;
                      oldPath := None |} grown_store p
              grown_store_consistent eq_refl Hp)
    as (Hok & Hgone & _).
  - simpl. now rewrite Hcreator.
  - split; [exact Hok | exact Hgone].
Defined.

(** ** Accounts stay distinct *)

Lemma accounts_more_ids {Rt : Runtime} us c c' :
  accounts_at us c -> (c <= c')%nat -> accounts_at us c'.
Proof.
  intros (Hids & Hgen & Hmails) Hle. repeat split; auto.
  intros u Hin. destruct (Hgen u Hin) as (k & Hk & Hid).
  exists k. split; [lia | exact Hid].
Qed.

Lemma accounts_add {Rt : Runtime} us c (u : User.t) :
  generates_distinct ->
  accounts_at us c ->
  User._id u = new_ObjectId c ->
  List.find (fun x => String.eqb (User.email x) (User.email u)) us = None ->
  accounts_at (us ++ [u]) (S c).
Proof.
  intros Hinj (Hids & Hgen & Hmails) Hid Hfree. repeat split.
  - rewrite map_app. simpl. apply List.NoDup_app; auto.
    + constructor; [intros [] | constructor].
    + intros k Hk [<- | []].
      apply in_map_iff in Hk as (x & Hx & Hin).
      apply toString_inj in Hx.
      destruct (Hgen x Hin) as (j & Hj & Hxid).
      rewrite Hx, Hid in Hxid. apply Hinj in Hxid. lia.
  - intros x Hin. apply in_app_or in Hin as [Hin | [<- | []]].
    + destruct (Hgen x Hin) as (k & Hk & Hxid).
      exists k. split; [lia | exact Hxid].
    + exists c. split; [lia | exact Hid].
  - rewrite map_app. simpl. apply List.NoDup_app; auto.
    + constructor; [intros [] | constructor].
    + intros e He [<- | []].
      apply in_map_iff in He as (x & Hx & Hin).
      apply (find_none _ _ Hfree x) in Hin.
      apply String.eqb_neq in Hin. contradiction.
Qed.

Lemma same_id_same_user (us : list User.t) (u x : User.t) :
  List.NoDup (map (fun u => toString (User._id u)) us) ->
  In u us -> In x us ->
  ObjectId_eqb (User._id x) (User._id u) = true -> x = u.
Proof.
  induction us as [| a us IH]; intros Hnd Hu Hx Hsame; [easy |].
  apply String.eqb_eq in Hsame.
  inversion Hnd as [| k ks Hnotin Hnd']; subst.
  destruct Hu as [-> | Hu], Hx as [-> | Hx]; auto.
  - exfalso. apply Hnotin. rewrite <- Hsame.
    now apply (in_map (fun u => toString (User._id u))).
  - exfalso. apply Hnotin. rewrite Hsame.
    now apply (in_map (fun u => toString (User._id u))).
  - apply IH; auto. now apply String.eqb_eq.
Qed.

Lemma accounts_save {Rt : Runtime} us c c' (uid : string) (u u' : User.t)
    (target : ObjectId) :
  accounts_at us c -> (c <= c')%nat ->
  List.find (fun x => has_id uid (User._id x)) us = Some u ->
  target = User._id u -> User._id u' = User._id u ->
  User.email u' = User.email u ->
  accounts_at
    (map (fun x => if ObjectId_eqb (User._id x) target then u' else x) us) c'.
Proof.
  intros Ha Hle Hfind -> Hid Hmail.
  apply accounts_more_ids with (c := c); [| exact Hle].
  destruct Ha as (Hids & Hgen & Hmails).
  apply find_some in Hfind as [Hu _].
  assert (Hsame : forall x, In x us ->
            ObjectId_eqb (User._id x) (User._id u) = true -> x = u).
  { intros x Hx. now apply (same_id_same_user us). }
  assert (Hmap_ids :
    map (fun x => toString (User._id x))
        (map (fun x => if ObjectId_eqb (User._id x) (User._id u)
                       then u' else x) us)
    = map (fun x => toString (User._id x)) us).
  { rewrite map_map. apply map_ext_in. intros x Hx.
    destruct (ObjectId_eqb (User._id x) (User._id u)) eqn:He;
      [| reflexivity].
    rewrite (Hsame x Hx He). now rewrite Hid. }
  assert (Hmap_mails :
    map User.email
        (map (fun x => if ObjectId_eqb (User._id x) (User._id u)
                       then u' else x) us)
    = map User.email us).
  { rewrite map_map. apply map_ext_in. intros x Hx.
    destruct (ObjectId_eqb (User._id x) (User._id u)) eqn:He;
      [| reflexivity].
    rewrite (Hsame x Hx He). exact Hmail. }
  repeat split.
  - now rewrite Hmap_ids.
  - intros x Hin. apply in_map_iff in Hin as (y & Hy & Hin).
    destruct (ObjectId_eqb (User._id y) (User._id u)); subst.
    + rewrite Hid. now apply Hgen.
    + now apply Hgen.
  - now rewrite Hmap_mails.
Qed.

Ltac close_accounts Hinj Ha :=
  unfold accounts_distinct; simpl;
  first
    [ exact Ha
    | eapply accounts_more_ids; [exact Ha | simpl; lia]
    | eapply accounts_add; [exact Hinj | exact Ha | reflexivity | eassumption]
    | eapply accounts_save;
      [exact Ha | simpl; lia | eassumption | reflexivity | reflexivity
       | reflexivity] ].

Lemma createUser_keeps_accounts
    {Vd : Validator} {Bc : Bcrypt} {Rt : Runtime}
    userInput req st (r : Result Obj) st' :
  generates_distinct -> accounts_distinct st ->
  createUser userInput req st = (r, st') -> accounts_distinct st'.
Proof.
  intros Hinj Ha Hrun. unfold createUser in Hrun. unfold_store Hrun.
  repeat branch_on Hrun; injection Hrun as <- <-; close_accounts Hinj Ha.
Qed.

Lemma createPost_keeps_accounts
    {Rt : Runtime} postInput req st (r : Result Obj) st' :
  generates_distinct -> accounts_distinct st ->
  createPost postInput req st = (r, st') -> accounts_distinct st'.
Proof.
  intros Hinj Ha Hrun. unfold createPost in Hrun. unfold_store Hrun.
  destruct (userId req) as [uid |];
    repeat branch_on Hrun; try discriminate; injection Hrun as <- <-;
    close_accounts Hinj Ha.
Qed.

Lemma updatePost_keeps_accounts
    {Rt : Runtime} id postInput req st (r : Result Obj) st' :
  generates_distinct -> accounts_distinct st ->
  updatePost id postInput req st = (r, st') -> accounts_distinct st'.
Proof.
  intros Hinj Ha Hrun. unfold updatePost in Hrun. unfold_store Hrun.
  destruct (userId req) as [uid |];
    repeat branch_on Hrun; try discriminate; injection Hrun as <- <-;
    close_accounts Hinj Ha.
Qed.

Lemma deletePost_keeps_accounts
    {Rt : Runtime} id req st (r : Result bool) st' :
  generates_distinct -> accounts_distinct st ->
  deletePost id req st = (r, st') -> accounts_distinct st'.
Proof.
  intros Hinj Ha Hrun. unfold deletePost in Hrun. unfold_store Hrun.
  destruct (userId req) as [uid |];
    repeat branch_on Hrun; try discriminate; injection Hrun as <- <-;
    close_accounts Hinj Ha.
Qed.

Lemma updateStatus_keeps_accounts
    {Rt : Runtime} status req st (r : Result Obj) st' :
  generates_distinct -> accounts_distinct st ->
  updateStatus status req st = (r, st') -> accounts_distinct st'.
Proof.
  intros Hinj Ha Hrun. unfold updateStatus in Hrun. unfold_store Hrun.
  destruct (userId req) as [uid |];
    repeat branch_on Hrun; try discriminate; injection Hrun as <- <-;
    close_accounts Hinj Ha.
Qed.

Lemma login_keeps_accounts
    {Bc : Bcrypt} {Jw : Jwt} {Rt : Runtime}
    email password st (r : Result AuthData) st' :
  accounts_distinct st ->
  login email password st = (r, st') -> accounts_distinct st'.
Proof.
  intros Ha Hrun. unfold login in Hrun. unfold_store Hrun.
  repeat branch_on Hrun; injection Hrun as <- <-; exact Ha.
Qed.

Lemma posts_keeps_accounts
    {Rt : Runtime} {Mg : Mongo} page req st (r : Result PostData) st' :
  accounts_distinct st ->
  posts page req st = (r, st') -> accounts_distinct st'.
Proof.
  intros Ha Hrun. unfold posts in Hrun.
  destruct (negb (isAuth req)).
  - injection Hrun as <- <-. exact Ha.
  - unfold Post_countDocuments, Post_find_page, bind, log, get_state, ret,
      throw in Hrun.
    simpl in Hrun.
    destruct (_ <? 0).
    + destruct (find_negative_skip _ _ _).
      * rewrite populate_all_run in Hrun. injection Hrun as <- <-. exact Ha.
      * injection Hrun as <- <-. exact Ha.
    + rewrite populate_all_run in Hrun. injection Hrun as <- <-. exact Ha.
Qed.

Lemma post_keeps_accounts
    {Rt : Runtime} id req st (r : Result Obj) st' :
  accounts_distinct st -> post id req st = (r, st') -> accounts_distinct st'.
Proof.
  intros Ha Hrun. unfold post in Hrun. unfold_store Hrun.
  repeat branch_on Hrun; injection Hrun as <- <-; exact Ha.
Qed.

Lemma user_keeps_accounts {Rt : Runtime} req st (r : Result Obj) st' :
  accounts_distinct st -> user req st = (r, st') -> accounts_distinct st'.
Proof.
  intros Ha Hrun. unfold user in Hrun. unfold_store Hrun.
  destruct (userId req) as [uid |];
    repeat branch_on Hrun; injection Hrun as <- <-; exact Ha.
Qed.

Lemma dispatch_keeps_accounts
    {Vd : Validator} {Bc : Bcrypt} {Jw : Jwt} {Rt : Runtime} {Mg : Mongo}
    op req st :
  generates_distinct -> accounts_distinct st ->
  accounts_distinct (snd (dispatch op req st)).
Proof.
  intros Hinj Ha. destruct op; simpl; unfold bind, ret.
  - destruct (login _ _ st) as [[d | e] st'] eqn:Hrun;
      apply (login_keeps_accounts _ _ _ _ _ Ha Hrun).
  - destruct (posts _ _ st) as [[d | e] st'] eqn:Hrun;
      apply (posts_keeps_accounts _ _ _ _ _ Ha Hrun).
  - destruct (post _ _ st) as [[d | e] st'] eqn:Hrun;
      apply (post_keeps_accounts _ _ _ _ _ Ha Hrun).
  - destruct (user _ st) as [[d | e] st'] eqn:Hrun;
      apply (user_keeps_accounts _ _ _ _ Ha Hrun).
  - destruct (createUser _ _ st) as [[d | e] st'] eqn:Hrun;
      apply (createUser_keeps_accounts _ _ _ _ _ Hinj Ha Hrun).
  - destruct (createPost _ _ st) as [[d | e] st'] eqn:Hrun;
      apply (createPost_keeps_accounts _ _ _ _ _ Hinj Ha Hrun).
  - destruct (updatePost _ _ _ st) as [[d | e] st'] eqn:Hrun;
      apply (updatePost_keeps_accounts _ _ _ _ _ _ Hinj Ha Hrun).
  - destruct (deletePost _ _ st) as [[d | e] st'] eqn:Hrun;
      apply (deletePost_keeps_accounts _ _ _ _ _ Hinj Ha Hrun).
  - destruct (updateStatus _ _ st) as [[d | e] st'] eqn:Hrun;
      apply (updateStatus_keeps_accounts _ _ _ _ _ Hinj Ha Hrun).
Qed.

Lemma same_email_same_user (us : list User.t) (u x : User.t) :
  List.NoDup (map User.email us) ->
  In u us -> In x us -> User.email x = User.email u -> x = u.
Proof.
  induction us as [| a us IH]; intros Hnd Hu Hx Hsame; [easy |].
  inversion Hnd as [| k ks Hnotin Hnd']; subst.
  destruct Hu as [-> | Hu], Hx as [-> | Hx]; auto.
  - exfalso. apply Hnotin. rewrite <- Hsame. now apply in_map.
  - exfalso. apply Hnotin. rewrite Hsame. now apply in_map.
Qed.

(** X20: although the user schema declares no unique index, the accounts
    stay distinct in every store the service can reach, provided no
    ObjectId is generated twice: in the empty store and after every
    GraphQL request, whether it succeeded or threw, no two stored users
    share an identifier or an email.  So the user that login or the guard's
    identifier designates is the only one with that email or
    identifier. *)
Theorem accounts_stay_distinct
    {Vd : Validator} {Bc : Bcrypt} {Jw : Jwt} {Rt : Runtime} {Mg : Mongo} :
  generates_distinct ->
  (forall now, accounts_distinct (empty_store now))
  /\ (forall authHeader op st,
        accounts_distinct st ->
        accounts_distinct (snd (graphql_request authHeader op st)))
  /\ (forall st u x,
        accounts_distinct st -> In u (db_users st) -> In x (db_users st) ->
        User.email x = User.email u
        \/ toString (User._id x) = toString (User._id u) ->
        x = u).
Proof.
  intros Hinj. split; [| split].
  - intros now. unfold accounts_distinct, accounts_at. simpl.
    repeat split; try constructor. intros u [].
  - intros authHeader op st Ha. unfold graphql_request.
    destruct (auth authHeader (clock st) (incoming None))
      as [req | e | r]; [| exact Ha ..].
    unfold graphql.
    pose proof (dispatch_keeps_accounts op req st Hinj Ha) as Hkeep.
    destruct (dispatch op req st) as [[d | e] st']; exact Hkeep.
  - intros st u x (Hids & _ & Hmails) Hu Hx [Hsame | Hsame].
    + now apply (same_email_same_user (db_users st)).
    + apply (same_id_same_user (db_users st)); auto.
      now apply String.eqb_eq.
Qed.

Lemma accounts_stay_distinct_witness :
  accounts_distinct (Rt := Sample.runtime)
    (snd (graphql_request (Vd := Sample.validator) (Bc := Sample.bcrypt)
            (Jw := Sample.jwt) (Rt := Sample.runtime) (Mg := Sample.mongo)
            None
            (CreateUser (Some {| ui_email := "dora@example.com";
                                 ui_name := "Dora";
                                 ui_password := "explorer" |}))
            (empty_store 0))).
Proof.
  destruct (accounts_stay_distinct
              (Vd := Sample.validator) (Bc := Sample.bcrypt)
              (Jw := Sample.jwt) (Rt := Sample.runtime) (Mg := Sample.mongo)
              sample_generates_distinct) as (Hempty & Hrequest & _).
  apply Hrequest, Hempty.
Defined.

(** ** Creating and deleting a post *)

Lemma createPost_success_inv
    {Rt : Runtime} postInput req st (o : Obj) st1 :
  createPost postInput req st = (Ok o, st1) ->
  exists input uid u,
    postInput = Some input /\ isAuth req = true /\ userId req = Some uid
    /\ length_errors input = []
    /\ user_by_id uid st = Some u
    /\ Post.valid (created (oid_counter st) (clock st) input (User._id u))
       = true
    /\ User.valid u = true.
Proof.
  intros Hrun. unfold createPost in Hrun.
  destruct (isAuth req) eqn:Hauth; [| discriminate]. simpl in Hrun.
  destruct postInput as [input |]; [| discriminate].
  destruct (0 <? length (post_errors input))%nat eqn:Herr; [discriminate |].
  unfold bind at 1 in Hrun. rewrite User_findById_caller in Hrun.
  unfold caller in Hrun.
  destruct (userId req) as [uid |]; [| discriminate].
  destruct (user_by_id uid st) as [u |] eqn:Hu; [| discriminate].
  unfold bind at 1, bump_counter in Hrun. simpl in Hrun.
  unfold bind at 1, Post_save in Hrun.
  destruct (Post.valid _) eqn:Hpvalid; [| discriminate]. simpl in Hrun.
  unfold bind, get_state, log, set_posts, ret, User_save in Hrun.
  simpl in Hrun.
  destruct (User.valid _) eqn:Huvalid; [| discriminate].
  exists input, uid, u. repeat split; auto.
  rewrite post_errors_length_errors in Herr.
  destruct (length_errors input); [reflexivity | discriminate].
Qed.

Lemma remove_appended (id : string) (ps : list Post.t) (p : Post.t) :
  List.find (fun q => has_id id (Post._id q)) ps = None ->
  has_id id (Post._id p) = true ->
  remove_by_id id (ps ++ [p]) = ps.
Proof.
  intros Hnone Hp. induction ps as [| a ps IH]; simpl in *.
  - now rewrite Hp.
  - destruct (has_id id (Post._id a)); [discriminate |].
    now rewrite IH.
Qed.

Lemma pull_pushed (id : string) (pid : ObjectId) (refs : list ObjectId) :
  toString pid = id ->
  (forall r, In r refs -> toString r <> id) ->
  pull id (refs ++ [pid]) = refs.
Proof.
  intros Hpid Hrefs. unfold pull. rewrite List.filter_app. simpl.
  unfold has_id at 2. rewrite Hpid, String.eqb_refl. simpl.
  rewrite app_nil_r.
  induction refs as [| r refs IH]; [reflexivity |]. simpl.
  assert (Hr : has_id id r = false).
  { apply String.eqb_neq. apply Hrefs. now left. }
  rewrite Hr. simpl. f_equal. apply IH.
  intros r' Hin. apply Hrefs. now right.
Qed.

Lemma save_then_restore (us : list User.t) (u u' : User.t) :
  List.NoDup (map (fun x => toString (User._id x)) us) ->
  In u us -> User._id u' = User._id u ->
  users_after_save u (users_after_save u' us) = us.
Proof.
  intros Hnd Hu Hid. unfold users_after_save. rewrite map_map.
  rewrite <- (map_id us) at 2. apply map_ext_in. intros x Hx.
  destruct (ObjectId_eqb (User._id x) (User._id u')) eqn:Hsame.
  - rewrite Hid in Hsame.
    unfold ObjectId_eqb at 1. rewrite Hid, String.eqb_refl.
    symmetry. now apply (same_id_same_user us).
  - rewrite Hid in Hsame. now rewrite Hsame.
Qed.

(** X21: creating a post and deleting it again is a round trip on the two
    collections.  On a reachable store (posts and post sets agree, the
    accounts are distinct, no ObjectId is generated twice), after a
    successful createPost the same caller's deletePost of the returned
    identifier succeeds, and the posts and the users are exactly those
    before the createPost. *)
Theorem create_then_delete_restores_the_collections
    {Rt : Runtime} (postInput : option PostInputData) (req : Request)
    (st st1 : State) (o : Obj) :
  generates_distinct -> consistent st -> accounts_distinct st ->
  createPost postInput req st = (Ok o, st1) ->
  exists id,
    obj_get "_id" o = Some (VStr id)
    /\ fst (deletePost id req st1) = Ok true
    /\ db_posts (snd (deletePost id req st1)) = db_posts st
    /\ db_users (snd (deletePost id req st1)) = db_users st.
Proof.
  intros Hinj Hc Ha Hrun.
  destruct (createPost_success_inv _ _ _ _ _ Hrun)
    as (input & uid & u & -> & Hauth & Huid & Hok & Hu & Hpvalid & Huvalid).
  rewrite (createPost_run input req st uid u Hauth Huid Hok Hu Hpvalid
             Huvalid) in Hrun.
  set (p := created (oid_counter st) (clock st) input (User._id u)) in *.
  injection Hrun as <- <-.
  set (st1 := {| db_users := _; db_posts := _ |}).
  pose proof (user_by_id_has_id _ _ _ Hu) as Hkey.
  pose proof Hu as Hin. unfold user_by_id in Hin.
  apply find_some in Hin as [Hin _].
  destruct Hc as (Hnd & Hgen & Hval & Hback & Hrefs).
  destruct Ha as (Hids & _ & _).
  set (id := toString (Post._id p)).
  assert (Hfresh : List.find (fun q => has_id id (Post._id q)) (db_posts st)
                   = None).
  { destruct (List.find _ (db_posts st)) as [q |] eqn:Hq; [| reflexivity].
    apply find_some in Hq as [Hq Hsame]. apply String.eqb_eq in Hsame.
    apply toString_inj in Hsame.
    destruct (Hgen q Hq) as (k & Hk & Hqid).
    rewrite Hsame in Hqid. apply Hinj in Hqid. lia. }
  assert (Hv : isValid id = true) by apply isValid_new_ObjectId.
  assert (Hp1 : post_by_id id st1 = Some p).
  { rewrite (post_by_id_valid _ _ Hv). unfold st1. cbn [db_posts].
    rewrite (find_app_none _ _ _ Hfresh). simpl.
    unfold id. now rewrite has_id_toString. }
  assert (Hu1 : user_by_id (toString (Post.creator p)) st1
                = Some (pushed (Post._id p) u)).
  { unfold user_by_id, st1. cbn [db_users].
    change (Post.creator p) with (User._id u).
    apply (find_after_save_same (pushed (Post._id p) u) u).
    simpl. rewrite Hkey. exact Hu. }
  assert (Huid1 : userId req = Some (toString (Post.creator p))).
  { rewrite Huid. f_equal. symmetry. exact Hkey. }
  pose proof (deletePost_succeeds id req st1 p _ Hauth Hp1 Huid1 Hu1 Huvalid)
    as Hdel.
  exists id. split; [reflexivity |]. split; [exact Hdel |].
  destruct (deletePost id req st1) as [r st2] eqn:Hrun2.
  simpl in Hdel. subst r.
  destruct (deletePost_success_inv _ _ _ _ _ Hrun2)
    as (p' & u' & _ & _ & Hp' & _ & Hu' & _ & _ & _ & Hposts & Husers).
  rewrite Hp1 in Hp'. injection Hp' as <-.
  rewrite Hu1 in Hu'. injection Hu' as <-.
  cbn [snd]. split.
  - rewrite Hposts. unfold st1. cbn [db_posts].
    apply remove_appended; [exact Hfresh |].
    unfold id. apply has_id_toString.
  - rewrite Husers. unfold st1. cbn [db_users].
    assert (Hback_u : pulled id (pushed (new_ObjectId (oid_counter st)) u)
                      = u).
    { unfold pulled, pushed. simpl.
      rewrite pull_pushed; [now destruct u | reflexivity |].
      intros r Hr Hsame.
      destruct (Hrefs u r Hin Hr) as (q & Hq & Hqid & _).
      apply (find_none _ _ Hfresh q) in Hq.
      unfold has_id in Hq. rewrite Hqid, Hsame, String.eqb_refl in Hq.
      discriminate. }
    rewrite Hback_u.
    change (map _ (users_after_save ?l (db_users st)))
      with (users_after_save u (users_after_save l (db_users st))).
    now apply save_then_restore.
Qed.

Lemma first_user_store_reachable :
  consistent (Rt := Sample.runtime) first_user_store
  /\ accounts_distinct (Rt := Sample.runtime) first_user_store.
Proof.
  unfold first_user_store.
  match goal with
  | |- consistent (snd (createUser ?i ?r ?s)) /\ _ =>
      destruct (createUser i r s) as [res st1] eqn:Hrun
  end.
  split.
  - apply (createUser_keeps_consistent _ _ _ _ _
             (empty_store_consistent 0) Hrun).
  - refine (createUser_keeps_accounts _ _ _ _ _ sample_generates_distinct
              _ Hrun).
    unfold accounts_distinct, accounts_at. simpl.
    repeat split; try constructor. intros u [].
Qed.

Lemma create_then_delete_restores_the_collections_witness :
  let req := {| isAuth := true; userId := Some "n"; file := None;
                oldPath := None |} in
  let run := createPost (Rt := Sample.runtime)
               (Some {| pi_title := "Hello there";
                        pi_content := "First words";
                        pi_imageUrl := "images/hello.png" |})
               req first_user_store in
  exists id,
    fst (deletePost (Rt := Sample.runtime) id req (snd run)) = Ok true
    /\ db_posts (snd (deletePost (Rt := Sample.runtime) id req (snd run)))
       = db_posts first_user_store
    /\ db_users (snd (deletePost (Rt := Sample.runtime) id req (snd run)))
       = db_users first_user_store.
Proof.
  intros req run.
  destruct run as [[o | e] st1] eqn:Hrun; [| vm_compute in Hrun; discriminate].
  destruct first_user_store_reachable as [Hc Ha].
  destruct (create_then_delete_restores_the_collections
              (Rt := Sample.runtime) _ req first_user_store st1 o
              sample_generates_distinct Hc Ha Hrun)
    as (id & _ & Hok & Hposts & Husers).
  exists id. auto.
Defined.

(** ** The public operations *)

Lemma auth_hands_on {Jw : Jwt} {R : Type} (authHeader : option string)
    (now : Z) (req : Request) :
  exists req', auth (R := R) authHeader now req = Next req'.
Proof.
  unfold auth. destruct authHeader as [h |]; [| eauto].
  destruct (negb (truthy_string h)); [eauto |].
  destruct (jwt_verify _ _ _) as [| [d |]]; eauto.
Qed.

(** X22: login and createUser never look at the caller's identity: with
    any two Authorization headers, valid, invalid or absent, the same
    public operation on the same store gives the same answer and the same
    resulting store. *)
Theorem public_operations_ignore_the_header
    {Vd : Validator} {Bc : Bcrypt} {Jw : Jwt} {Rt : Runtime} {Mg : Mongo}
    (header1 header2 : option string) (op : Operation) (st : State) :
  is_public op = true ->
  graphql_request header1 op st = graphql_request header2 op st.
Proof.
  intros Hpublic. unfold graphql_request.
  destruct (auth_hands_on (R := Data + Formatted) header1 (clock st)
              (incoming None)) as [req1 ->].
  destruct (auth_hands_on (R := Data + Formatted) header2 (clock st)
              (incoming None)) as [req2 ->].
  destruct op; try discriminate Hpublic; reflexivity.
Qed.

Lemma public_operations_ignore_the_header_witness :
  graphql_request (Vd := Sample.validator) (Bc := Sample.bcrypt)
    (Jw := Sample.jwt) (Rt := Sample.runtime) (Mg := Sample.mongo)
    (Some "Bearer forged") (Login "bob@example.com" "builder") Sample.store
  = graphql_request (Vd := Sample.validator) (Bc := Sample.bcrypt)
      (Jw := Sample.jwt) (Rt := Sample.runtime) (Mg := Sample.mongo)
      (Some "Bearer jwt.a1") (Login "bob@example.com" "builder")
      Sample.store.
Proof.
  apply (public_operations_ignore_the_header
           (Vd := Sample.validator) (Bc := Sample.bcrypt)
           (Jw := Sample.jwt) (Rt := Sample.runtime) (Mg := Sample.mongo)).
  reflexivity.
Defined.

(** ** The creators in a page *)

Lemma in_page_slice (n : Z) (l : list Post.t) (p : Post.t) :
  In p (page_slice n l) -> In p l.
Proof.
  unfold page_slice. intros Hin.
  apply list_elem_of_In in Hin. apply list_elem_of_In.
  apply elem_of_take in Hin as (i & Hi & _).
  rewrite lookup_drop in Hi. now apply list_elem_of_lookup_2 in Hi.
Qed.

(** X23: on a store whose posts all have a stored creator, every post
    object the posts query returns for a page n >= 1 has its creator
    resolved to a stored user document, whole: each object carries, under
    creator, that user's stored password hash. *)
Theorem posts_query_resolves_every_creator
    {Rt : Runtime} {Mg : Mongo} (n : Z) (req : Request) (st : State) :
  isAuth req = true -> 1 <= n -> creators_exist st = true ->
  List.Forall
    (fun o =>
       exists u,
         In u (db_users st)
         /\ obj_get "creator" o = Some (VObj (User._doc u))
         /\ obj_get "password" (User._doc u) = Some (VStr (User.password u)))
    (page_posts (fst (posts (Some n) req st))).
Proof.
  intros Hauth Hn Hinv. rewrite (posts_run n req st Hauth Hn). simpl.
  apply List.Forall_forall. intros o Ho.
  apply in_map_iff in Ho as (p & <- & Hp).
  apply in_page_slice in Hp.
  apply (Permutation_in _ (sort_desc_perm _)) in Hp.
  destruct (creators_exist_resolves st p Hinv Hp) as [u Hu].
  exists u. split; [| split].
  - unfold user_by_id in Hu. now apply find_some in Hu.
  - unfold rendered. now rewrite Hu.
  - reflexivity.
Qed.

Lemma posts_query_resolves_every_creator_witness :
  List.Forall
    (fun o =>
       exists u,
         In u (db_users Sample.store)
         /\ obj_get "creator" o = Some (VObj (User._doc u))
         /\ obj_get "password" (User._doc u) = Some (VStr (User.password u)))
    (page_posts
       (fst (posts (Rt := Sample.runtime) (Mg := Sample.mongo) (Some 1)
               (Sample.as_user "b2") Sample.store))).
Proof.
  apply (posts_query_resolves_every_creator (Rt := Sample.runtime)
           (Mg := Sample.mongo) 1 (Sample.as_user "b2") Sample.store).
  - reflexivity.
  - lia.
  - reflexivity.
Defined.
